(** * ve-bot: the book / table resolution engine of [src/lib/books.py]

    A shallow embedding of the classes [Page], [GroupOfPages], [Book],
    [MonsterBook], [TableEntry], [Table] and [Library], followed by the
    properties of loading, matching, template resolution and rolling.

    Conventions of the embedding.
    - A parsed JSON document is a [json] value.  JSON numbers are integers
      (floats are outside the model) and strings are byte strings.
    - A Python [dict] is an association list in insertion order whose keys
      are pairwise distinct; assignment to an existing key keeps the key's
      position, as Python does.
    - A raised exception is a [Raise e] result; nothing in [books.py]
      catches an exception except the [KeyError] of [Book.load].
    - The dice evaluator [rolldice.roll_dice] is external: it is a
      parameter threading an abstract random state. *)

From Stdlib Require Import ZArith List String Ascii Bool Lia.
From Stdlib Require Import DecimalString DecimalPos Permutation Sorted.
Import ListNotations.

Set Warnings "-register-all".

Local Open Scope string_scope.
Local Open Scope list_scope.
Local Open Scope Z_scope.

(** Python's [+] on [str]. *)
Infix "+++" := String.append (right associativity, at level 60).

(* ================================================================== *)
(** ** Python values, exceptions and builtins *)

Module Py.

Inductive exn : Type :=
| KeyError | IndexError | TypeError | AttributeError | ValueError | RuntimeError
| JSONDecodeError | DiceError.

Inductive result (A : Type) : Type :=
| Ok (a : A)
| Raise (e : exn).
Arguments Ok {A} a.
Arguments Raise {A} e.

Definition bind {A B} (r : result A) (k : A -> result B) : result B :=
  match r with
  | Ok a => k a
  | Raise e => Raise e
  end.

(** What [json.load] returns. *)
Inductive json : Type :=
| JNull
| JBool (b : bool)
| JInt (z : Z)
| JStr (s : string)
| JArr (l : list json)
| JObj (o : list (string * json)).

(** [bool(v)], the truth value used by [if v:] and [not v]. *)
Definition truthy (v : json) : bool :=
  match v with
  | JNull => false
  | JBool b => b
  | JInt z => negb (z =? 0)%Z
  | JStr s => negb (s =? "")%string
  | JArr l => match l with [] => false | _ => true end
  | JObj o => match o with [] => false | _ => true end
  end.

(** Lists and dicts cannot be dict keys. *)
Definition hashable (v : json) : bool :=
  match v with
  | JArr _ | JObj _ => false
  | _ => true
  end.

Definition bool_to_Z (b : bool) : Z := if b then 1 else 0.

(** [a == b] on hashable values: [True == 1] and [False == 0]. *)
Definition key_eqb (a b : json) : bool :=
  match a, b with
  | JNull, JNull => true
  | JBool x, JBool y => Bool.eqb x y
  | JBool x, JInt y => (bool_to_Z x =? y)%Z
  | JInt x, JBool y => (x =? bool_to_Z y)%Z
  | JInt x, JInt y => (x =? y)%Z
  | JStr x, JStr y => (x =? y)%string
  | _, _ => false
  end.

(** *** Dicts as association lists *)

Section Assoc.
Context {K V : Type} (eqb : K -> K -> bool).

Fixpoint assoc_get (k : K) (d : list (K * V)) : option V :=
  match d with
  | [] => None
  | (k', v) :: d' => if eqb k' k then Some v else assoc_get k d'
  end.

(** [d[k] = v]: overwrite in place or append. *)
Fixpoint assoc_set (k : K) (v : V) (d : list (K * V)) : list (K * V) :=
  match d with
  | [] => [(k, v)]
  | (k', v') :: d' =>
      if eqb k' k then (k', v) :: d' else (k', v') :: assoc_set k v d'
  end.

Definition assoc_mem (k : K) (d : list (K * V)) : bool :=
  match assoc_get k d with Some _ => true | None => false end.
End Assoc.

(** A dict keyed by arbitrary hashable values ([Book._pages],
    [Library.__books]). *)
Definition dict (V : Type) : Type := list (json * V).
Definition dict_get {V} (k : json) (d : dict V) : option V := assoc_get key_eqb k d.
Definition dict_set {V} (k : json) (v : V) (d : dict V) : dict V := assoc_set key_eqb k v d.
Definition values {V} (d : dict V) : list V := map snd d.

(** An instance [__dict__] and a JSON object: string keys. *)
Definition attrs : Type := list (string * json).
Definition attr_get (k : string) (d : attrs) : option json := assoc_get String.eqb k d.
Definition attr_set (k : string) (v : json) (d : attrs) : attrs := assoc_set String.eqb k v d.
Definition hasattr (d : attrs) (k : string) : bool := assoc_mem String.eqb k d.

(** [obj.name] on an instance whose class defines no such attribute. *)
Definition getattr (d : attrs) (k : string) : result json :=
  match attr_get k d with
  | Some v => Ok v
  | None => Raise AttributeError
  end.

(** [book[key]] for a string key. *)
Definition getitem (book : json) (k : string) : result json :=
  match book with
  | JObj o => match attr_get k o with Some v => Ok v | None => Raise KeyError end
  | _ => Raise TypeError
  end.

(** *** Strings *)

(** [s.replace(old, new)] for a non-empty [old]: every non-overlapping
    occurrence, leftmost first.  [skip] counts the characters of the
    occurrence that is being replaced and are still to be dropped. *)
Fixpoint replace_from (old new : string) (skip : nat) (s : string) : string :=
  match s with
  | EmptyString => EmptyString
  | String c s' =>
      match skip with
      | S k => replace_from old new k s'
      | O =>
          if String.prefix old s
          then new +++ replace_from old new (Nat.pred (String.length old)) s'
          else String c (replace_from old new O s')
      end
  end.

Definition replace (old new s : string) : string := replace_from old new O s.

(** [s.split(sep)] for a one-character separator. *)
Fixpoint split_from (sep : ascii) (cur : string) (s : string) : list string :=
  match s with
  | EmptyString => [cur]
  | String c s' =>
      if Ascii.eqb c sep then cur :: split_from sep EmptyString s'
      else split_from sep (cur +++ String c EmptyString) s'
  end.

Definition split (sep : ascii) (s : string) : list string :=
  split_from sep EmptyString s.

(** [str(n)] for an integer. *)
Definition str_of_Z (z : Z) : string := NilEmpty.string_of_int (Z.to_int z).

(** [int(s)] for a string of ASCII characters: optional surrounding
    white space, an optional sign, then decimal digits which single
    underscores may separate.  (CPython also accepts non-ASCII decimal
    digits and refuses more than 4300 digits; both are outside the
    model.) *)
Definition is_space (c : ascii) : bool :=
  let n := nat_of_ascii c in
  (((9 <=? n) && (n <=? 13)) || ((28 <=? n) && (n <=? 32)))%nat.

Definition is_digit (c : ascii) : bool :=
  let n := nat_of_ascii c in ((48 <=? n) && (n <=? 57))%nat.

Definition digit_val (c : ascii) : Z := Z.of_nat (nat_of_ascii c) - 48.

Fixpoint lstrip (cs : list ascii) : list ascii :=
  match cs with
  | c :: cs' => if is_space c then lstrip cs' else cs
  | [] => []
  end.

Definition strip (cs : list ascii) : list ascii := rev (lstrip (rev (lstrip cs))).

Fixpoint digits_val (acc : Z) (after_digit : bool) (cs : list ascii) : option Z :=
  match cs with
  | [] => if after_digit then Some acc else None
  | c :: cs' =>
      if is_digit c then digits_val (10 * acc + digit_val c) true cs'
      else if Ascii.eqb c "_" && after_digit then digits_val acc false cs'
      else None
  end.

Definition parse_int (s : string) : option Z :=
  match strip (list_ascii_of_string s) with
  | c :: cs' =>
      if Ascii.eqb c "-" then option_map Z.opp (digits_val 0 false cs')
      else if Ascii.eqb c "+" then digits_val 0 false cs'
      else digits_val 0 false (c :: cs')
  | [] => None
  end.

Definition int (s : string) : result Z :=
  match parse_int s with
  | Some z => Ok z
  | None => Raise ValueError
  end.

(** *** Ranges *)

(** [range(start, stop)] *)
Record range : Type := Range { start : Z; stop : Z }.

(** [x in r].  An [int] (or [bool]) is compared numerically; any other
    value is compared with [==] against each element and equals none. *)
Definition range_contains (x : json) (r : range) : bool :=
  match x with
  | JInt z => (start r <=? z) && (z <? stop r)
  | JBool b => (start r <=? bool_to_Z b) && (bool_to_Z b <? stop r)
  | _ => false
  end.

End Py.

Import Py.

Notation "x <- c1 ;; c2" := (bind c1 (fun x => c2))
  (at level 61, c1 at next level, right associativity).

(* ================================================================== *)
(** ** Pages, groups of pages and books *)

Inductive BookType : Type := MONSTER_MANUAL | TABLE.

(** [BookType(value)]: lookup of an enum member by value. *)
Definition BookType_of (value : json) : result BookType :=
  if key_eqb value (JInt 1) then Ok MONSTER_MANUAL
  else if key_eqb value (JInt 2) then Ok TABLE
  else Raise ValueError.

(** What a slot of [Book._pages] holds: a page, or a [GroupOfPages]
    with its [__gid] and its [__pages]. *)
Inductive slot (P : Type) : Type :=
| Single (page : P)
| Group (gid : json) (pages : list P).
Arguments Single {P} page.
Arguments Group {P} gid pages.

(** A [TableEntry] is its [__dict__]; the attribute [Table], which
    [TableEntry.add] sets to a [Table] object or to [None], is kept
    apart: [None] here stands for an attribute that is missing or
    [None], the two cases [Table.roll] does not tell apart.  A [Table]
    carries the fields of [Book] and its own. *)
Inductive entry : Type :=
| TableEntry (fields : attrs) (Table : option table)
with table : Type :=
| MkTable (bid title : json) (type : BookType)
          (pages : dict (slot entry))
          (Die : json) (forced_roll : option json) (rop : json).

Definition fields (e : entry) : attrs := let (f, _) := e in f.
Definition Table (e : entry) : option table := let (_, t) := e in t.

Definition bid (t : table) : json := let (b, _, _, _, _, _, _) := t in b.
Definition title (t : table) : json := let (_, x, _, _, _, _, _) := t in x.
Definition type (t : table) : BookType := let (_, _, x, _, _, _, _) := t in x.
Definition pages (t : table) : dict (slot entry) := let (_, _, _, x, _, _, _) := t in x.
Definition Die (t : table) : json := let (_, _, _, _, x, _, _) := t in x.
Definition forced_roll (t : table) : option json := let (_, _, _, _, _, x, _) := t in x.
Definition rop (t : table) : json := let (_, _, _, _, _, _, x) := t in x.

(** The pages of a slot, a group expanded. *)
Definition slot_pages {P} (s : slot P) : list P :=
  match s with
  | Single p => [p]
  | Group _ ps => ps
  end.

Definition list_item {A} (l : list A) (i : nat) : result A :=
  match nth_error l i with
  | Some a => Ok a
  | None => Raise IndexError
  end.

(** [Page.id_as_range] and [GroupOfPages.id_as_range], from the value of
    [self.Id]. *)
Definition id_as_range (Id : json) : result range :=
  match Id with
  | JStr s =>
      let values := split "-" s in
      if (List.length values =? 1)%nat
      then a <- int s ;; b <- int s ;; Ok (Range a (b + 1))
      else
        v0 <- list_item values 0 ;; a <- int v0 ;;
        v1 <- list_item values 1 ;; b <- int v1 ;;
        Ok (Range a (b + 1))
  | _ => Raise AttributeError
  end.

(** [Page.__init__]: every item of the record goes through [self.add].
    An earlier key [add] has replaced the method in the instance, and
    the next call of [self.add] then calls a JSON value. *)
Definition Page_add_all : list (string * json) -> attrs -> result attrs :=
  fix loop items d :=
    match items with
    | [] => Ok d
    | (key, value) :: rest =>
        if hasattr d "add" then Raise TypeError
        else loop rest (attr_set key value d)
    end.

Definition Page_init (json_dict : json) : result attrs :=
  match json_dict with
  | JObj items => Page_add_all items []
  | _ => Raise AttributeError
  end.

(** [TableEntry.__init__] with [TableEntry.add]; [mk] is the
    constructor [Table(book=value)]. *)
Definition TableEntry_add_all (mk : json -> result table)
  : list (string * json) -> attrs -> option table -> result entry :=
  fix loop items d tbl :=
    match items with
    | [] => Ok (TableEntry d tbl)
    | (key, value) :: rest =>
        if hasattr d "add" then Raise TypeError
        else if String.eqb key "Table" then
          if truthy value
          then t <- mk value ;; loop rest d (Some t)
          else loop rest d None
        else loop rest (attr_set key value d) tbl
    end.

Definition TableEntry_init (mk : json -> result table) (json_dict : json)
  : result entry :=
  match json_dict with
  | JObj items => TableEntry_add_all mk items [] None
  | _ => Raise AttributeError
  end.

Section Book.
Context {P : Type}.
(** [self.make_page] and the attribute access [page.Id]. *)
Variable make_page : json -> result P.
Variable page_Id : P -> result json.

(** The body of the loop of [Book.load], after [make_page].
    [GroupOfPages] defines no [add], so [page0.add(page)] raises
    [AttributeError], which the [except KeyError] does not catch. *)
Definition add_page (pages : dict (slot P)) (page : P) : result (dict (slot P)) :=
  pid <- page_Id page ;;
  if negb (hashable pid) then Raise TypeError
  else
    match dict_get pid pages with
    | Some (Group _ _) => Raise AttributeError
    | Some (Single page0) =>
        gid <- page_Id page0 ;;
        Ok (dict_set gid (Group gid [page0; page]) pages)
    | None => Ok (dict_set pid (Single page) pages)
    end.

Definition load_pages : list json -> dict (slot P) -> result (dict (slot P)) :=
  fix loop l pages :=
    match l with
    | [] => Ok pages
    | page_dict :: l' =>
        page <- make_page page_dict ;;
        pages' <- add_page pages page ;;
        loop l' pages'
    end.

(** [for page_dict in book['Pages']: ...] from the value of
    [book['Pages']].  Iterating a string or a dict yields strings, on
    which [Page.__init__] fails ([str] has no [items]). *)
Definition Book_pages (v : json) : result (dict (slot P)) :=
  match v with
  | JArr l => load_pages l []
  | JStr s => if String.eqb s "" then Ok [] else Raise AttributeError
  | JObj o => match o with [] => Ok [] | _ :: _ => Raise AttributeError end
  | JNull | JBool _ | JInt _ => Raise TypeError
  end.
End Book.

(** [Book.load] up to the test of [load_pages]. *)
Definition Book_header (book : json) : result (json * json * BookType) :=
  if negb (truthy book) then Raise RuntimeError
  else
    bid <- getitem book "Id" ;;
    title <- getitem book "Title" ;;
    ty <- getitem book "Type" ;;
    bt <- BookType_of ty ;;
    Ok (bid, title, bt).

(** [f (o[k])] when the key is there. *)
Definition item_with {A} (f : json -> A) (k : string)
  : list (string * json) -> option A :=
  fix go o :=
    match o with
    | [] => None
    | (k', v) :: o' => if String.eqb k' k then Some (f v) else go o'
    end.

Definition entry_Id (e : entry) : result json := getattr (fields e) "Id".

(** [Table(book=book)]: [Book.__init__], then [Table.load], which runs
    [Book.load] with [load_pages=True] and [make_page = TableEntry]. *)
Fixpoint Table_init (book : json) {struct book} : result table :=
  hdr <- Book_header book ;;
  let '(bid, title, ty) := hdr in
  pages <- match book with
           | JObj o =>
               match item_with (Book_pages (TableEntry_init Table_init) entry_Id)
                               "Pages" o with
               | Some r => r
               | None => Raise KeyError
               end
           | _ => Raise TypeError
           end ;;
  die <- getitem book "Die" ;;
  let forced := match book with JObj o => attr_get "forced_roll" o | _ => None end in
  let rop := match book with
             | JObj o => match attr_get "rop" o with Some v => v | None => JStr "replace" end
             | _ => JStr "replace"
             end in
  Ok (MkTable bid title ty pages die forced rop).

(* ================================================================== *)
(** ** Tables: matching entries *)

Definition slot_id_as_range (s : slot entry) : result range :=
  match s with
  | Single p => id <- entry_Id p ;; id_as_range id
  | Group gid _ => id_as_range gid
  end.

(** The loop of [Table.find], with [f] applied to each collected
    entry. *)
Definition find_with {A} (f : entry -> A) (rid : json)
  : dict (slot entry) -> result (list A) :=
  fix loop d :=
    match d with
    | [] => Ok []
    | (_, s) :: d' =>
        r <- slot_id_as_range s ;;
        rest <- loop d' ;;
        Ok ((if range_contains rid r
             then match s with
                  | Group _ ps => map f ps
                  | Single p => [f p]
                  end
             else []) ++ rest)
    end.

(** [Table.find] *)
Definition Table_find (t : table) (rid : json) : result (list entry) :=
  find_with (fun e => e) rid (pages t).

(* ================================================================== *)
(** ** Template resolution and rolling *)

Definition nl : string := String "010"%char EmptyString.

(** [v == s] for a string literal [s]. *)
Definition str_eqb (v : json) (s : string) : bool :=
  match v with
  | JStr x => String.eqb x s
  | _ => false
  end.

(** The replacements [TableEntry.result] always makes. *)
Definition strip_markers (details : string) : string :=
  replace "  " " " (replace "$" "" (replace "#" "" (replace "#a" "" details))).

(** The replacements that depend on the count. *)
Definition apply_count (count : Z) (details : string) : string :=
  if count =? 1 then replace "#" "un" details
  else if count >? 1 then
    replace "$" "s"
      (replace "$(es)" "es"
         (replace "a$(-es)" "es"
            (replace "#" (str_of_Z count)
               (replace "#a" (str_of_Z count) details))))
  else details.

(** The block of [Table.roll] under [if sresult:]. *)
Definition combine (rop : json) (cresult : string) (explanation : list string)
    (sresult : string) (sexpl : list string) : string * list string :=
  if String.eqb sresult "" then (cresult, explanation)
  else
    (if str_eqb rop "replace" then sresult
     else if str_eqb rop "append" then (cresult +++ nl) +++ sresult
     else if str_eqb rop "concat" then cresult +++ sresult
     else cresult,
     explanation ++ sexpl).

Section Roll.
(** The state of the random generator and [rolldice.roll_dice], of
    which only the first component of the result is used. *)
Context {R : Type}.
Variable roll_dice : json -> R -> result (Z * R).
(** [repr] of a list or of a dict, met only when such a value is
    formatted. *)
Variable repr : json -> string.

Definition M (A : Type) : Type := R -> result (A * R).
Definition ret {A} (a : A) : M A := fun r => Ok (a, r).
Definition mbind {A B} (m : M A) (k : A -> M B) : M B :=
  fun r => match m r with
           | Ok (a, r') => k a r'
           | Raise e => Raise e
           end.
Definition lift {A} (x : result A) : M A :=
  fun r => match x with
           | Ok a => Ok (a, r)
           | Raise e => Raise e
           end.

Notation "x <~ c1 ;; c2" := (mbind c1 (fun x => c2))
  (at level 61, c1 at next level, right associativity).

(** [f'{v}'] *)
Definition str (v : json) : string :=
  match v with
  | JStr s => s
  | JInt z => str_of_Z z
  | JBool b => if b then "True" else "False"
  | JNull => "None"
  | JArr _ | JObj _ => repr v
  end.

(** The count of [TableEntry.result]. *)
Definition entry_count (e : entry) : M Z :=
  match attr_get "Number" (fields e) with
  | Some number => if truthy number then roll_dice number else ret 0
  | None => ret 0
  end.

(** [TableEntry.result] *)
Definition TableEntry_result (e : entry) : M string :=
  details <~ lift (getattr (fields e) "Details") ;;
  count <~ entry_count e ;;
  d <~ lift (match details with
             | JStr d => Ok d
             | _ => Raise AttributeError
             end) ;;
  ret (strip_markers (apply_count count d)).

(** One turn of the loop of [Table.roll]: the entry's text, and the
    roll of its sub-table with that table's [rop], when it has one. *)
Definition step : Type := M string * option (M (string * list string) * json).

Definition run_step (s : step) (explanation : list string)
  : M (string * list string) :=
  cresult <~ fst s ;;
  match snd s with
  | Some (roll_sub, rop) =>
      sub <~ roll_sub ;;
      ret (combine rop cresult explanation (fst sub) (snd sub))
  | None => ret (cresult, explanation)
  end.

Definition run_steps : list step -> string -> list string -> M (string * list string) :=
  fix loop steps result explanation :=
    match steps with
    | [] => ret (result, explanation)
    | s :: rest =>
        ce <~ run_step s explanation ;;
        loop rest ((result +++ nl) +++ fst ce) (snd ce)
    end.

Definition rolled_id (t : table) (rolled : Z) : json :=
  match forced_roll t with
  | Some forced => if truthy forced then forced else JInt rolled
  | None => JInt rolled
  end.

Definition headline (t : table) (rid : json) : string :=
  str (Die t) +++ " -> **" +++ str rid +++ "**".

(** [Table.roll] *)
Fixpoint Table_roll (t : table) {struct t} : M (string * list string) :=
  rolled <~ roll_dice (Die t) ;;
  let rid := rolled_id t rolled in
  steps <~ lift (find_with
                   (fun e => (TableEntry_result e,
                              match Table e with
                              | Some sub => Some (Table_roll sub, rop sub)
                              | None => None
                              end))
                   rid (pages t)) ;;
  run_steps steps "" [headline t rid].

(** The same turn and loop, from an entry and the function that rolls
    a table. *)
Definition entry_step (roll : table -> M (string * list string)) (e : entry) : step :=
  (TableEntry_result e,
   match Table e with
   | Some sub => Some (roll sub, rop sub)
   | None => None
   end).

Definition roll_entries (roll : table -> M (string * list string))
    (entries : list entry) (result : string) (explanation : list string)
  : M (string * list string) :=
  run_steps (map (entry_step roll) entries) result explanation.
End Roll.

(* ================================================================== *)
(** ** The library *)

(** A [Page] or [MonsterPage] is its [__dict__]. *)
Definition page_Id (p : attrs) : result json := getattr p "Id".

(** What [Library.add_book] stores: a [MonsterBook] or a [Table]. *)
Inductive book : Type :=
| MonsterBook (bid title : json) (pages : dict (slot attrs))
| TableBook (t : table).

Definition book_bid (b : book) : json :=
  match b with
  | MonsterBook bid _ _ => bid
  | TableBook t => bid t
  end.

(** A file that [glob.glob] found: its name, and the value [json.load]
    returns for it, when it parses. *)
Record file : Type := File { name : string; content : option json }.

Definition load_json_from_disk (f : file) : result json :=
  match content f with
  | Some j => Ok j
  | None => Raise JSONDecodeError
  end.

(** The start of [Book.__init__]: [book] stays [None] for an empty
    file name. *)
Definition book_record (f : file) : result json :=
  if String.eqb (name f) "" then Ok JNull else load_json_from_disk f.

(** [Book(file)]: [Book.load] with [load_pages=False]. *)
Definition Book_init (f : file) : result (json * json * BookType) :=
  book <- book_record f ;;
  Book_header book.

(** [MonsterBook(file)] *)
Definition MonsterBook_init (f : file) : result book :=
  book <- book_record f ;;
  hdr <- Book_header book ;;
  let '(bid, title, _) := hdr in
  pv <- getitem book "Pages" ;;
  pages <- Book_pages Page_init page_Id pv ;;
  Ok (MonsterBook bid title pages).

(** [Library.add_book] *)
Definition add_book (books : dict book) (f : file) : result (dict book) :=
  hdr <- Book_init f ;;
  let '(_, _, ty) := hdr in
  b <- match ty with
       | MONSTER_MANUAL => MonsterBook_init f
       | TABLE => book <- book_record f ;; t <- Table_init book ;; Ok (TableBook t)
       end ;;
  if negb (hashable (book_bid b)) then Raise TypeError
  else Ok (dict_set (book_bid b) b books).

Definition add_books : list file -> dict book -> result (dict book) :=
  fix loop files books :=
    match files with
    | [] => Ok books
    | f :: rest => books' <- add_book books f ;; loop rest books'
    end.

(** [Library.load]; each element of [library_paths] is given by the
    files [glob.glob] lists for it. *)
Definition Library_load (library_paths : list (list file)) : result (dict book) :=
  (fix loop paths books :=
     match paths with
     | [] => Ok books
     | files :: rest => books' <- add_books files books ;; loop rest books'
     end) library_paths [].

(* ================================================================== *)
(** ** A dice evaluator to run the engine with *)

Module Demo.

(** Random numbers still to be drawn; an exhausted tape draws 0. *)
Definition tape : Type := list Z.

(** Evaluates the expressions ["1dN"]: one die of [N >= 1] sides. *)
Definition roll_dice (die : json) (r : tape) : result (Z * tape) :=
  match die with
  | JStr (String "1" (String "d" sides)) =>
      match parse_int sides with
      | Some n =>
          if n <=? 0 then Raise DiceError
          else match r with
               | x :: r' => Ok (1 + x mod n, r')
               | [] => Ok (1, [])
               end
      | None => Raise DiceError
      end
  | _ => Raise DiceError
  end.

Definition repr (_ : json) : string := "<container>".

Definition result (e : entry) : tape -> Py.result (string * tape) :=
  TableEntry_result roll_dice e.
Definition roll (t : table) : tape -> Py.result (string * list string * tape) :=
  Table_roll roll_dice repr t.

Definition page (Id : string) (Details : string) : json :=
  JObj [("Id", JStr Id); ("Details", JStr Details)].

Definition table_doc (fields : list (string * json)) (Pages : list json) : json :=
  JObj ([("Id", JStr "t"); ("Title", JStr "T"); ("Type", JInt 2)]
          ++ fields ++ [("Pages", JArr Pages)]).

End Demo.

(* ================================================================== *)
(** ** Notions the properties are stated with *)

(** The character [c] occurs in [s]. *)
Fixpoint occurs (c : ascii) (s : string) : bool :=
  match s with
  | EmptyString => false
  | String c' s' => Ascii.eqb c' c || occurs c s'
  end.

(** The entry as it is when its record has no [Number]. *)
Definition without_Number (e : entry) : entry :=
  TableEntry (filter (fun kv => negb (String.eqb (fst kv) "Number")) (fields e))
             (Table e).

(** The texts of the turns of the loop of [Table.roll], one for each
    step, with the explanation the loop ends with. *)
Section Texts.
Context {R : Type}.

Definition collect_steps
  : list (@step R) -> list string -> M (list string * list string) :=
  fix loop steps explanation :=
    match steps with
    | [] => ret ([], explanation)
    | s :: rest =>
        mbind (run_step s explanation) (fun ce =>
        mbind (loop rest (snd ce)) (fun x =>
        ret (fst ce :: fst x, snd x)))
    end.
End Texts.

(** Each text after a newline. *)
Definition newline_before_each (texts : list string) : string :=
  String.concat "" (map (fun c => nl +++ c) texts).

(** The texts with a newline between them: ["\n".join(texts)]. *)
Definition joined_by_newline (texts : list string) : string :=
  String.concat nl texts.

(** The entry rolls no [Number]. *)
Definition number_free (e : entry) : bool :=
  match attr_get "Number" (fields e) with
  | Some number => negb (truthy number)
  | None => true
  end.

(** The table has a truthy [forced_roll], and the entries which that
    value matches roll no [Number] and have sub-tables, if any, of the
    same kind. *)
Fixpoint replayable (t : table) {struct t} : bool :=
  match forced_roll t with
  | Some forced =>
      truthy forced &&
      match find_with
              (fun e => number_free e &&
                        match Table e with
                        | Some sub => replayable sub
                        | None => true
                        end)
              forced (pages t) with
      | Ok bs => forallb (fun b => b) bs
      | Raise _ => true
      end
  | None => false
  end.

(** The depth of nesting of a table. *)
Fixpoint height (t : table) {struct t} : nat :=
  S (list_max
       (map (fun ks : json * slot entry =>
               match snd ks with
               | Single p =>
                   match Table p with Some sub => height sub | None => O end
               | Group _ ps =>
                   list_max
                     (map (fun p => match Table p with
                                    | Some sub => height sub
                                    | None => O
                                    end) ps)
               end)
            (pages t))).

Definition entry_height (e : entry) : nat :=
  match Table e with
  | Some sub => height sub
  | None => O
  end.

(** *** Load order and the order of the mapping *)

Section PageOrder.
Context {P : Type}.
Variable make_page : json -> result P.
Variable page_Id : P -> result json.

(** The pages made from the records of [book['Pages']], in the order
    of the document: the load order. *)
Definition make_pages : list json -> result (list P) :=
  fix loop l :=
    match l with
    | [] => Ok []
    | page_dict :: l' =>
        p <- make_page page_dict ;;
        ps <- loop l' ;;
        Ok (p :: ps)
    end.

(** Two pages have the same [Id], as keys of a dict. *)
Definition same_Id (a b : P) : bool :=
  match page_Id a, page_Id b with
  | Ok x, Ok y => key_eqb x y
  | _, _ => false
  end.

(** The pages that are the first of the list with their [Id]. *)
Fixpoint first_of_Id (l : list P) : list P :=
  match l with
  | [] => []
  | p :: l' => p :: filter (fun q => negb (same_Id p q)) (first_of_Id l')
  end.

(** The pages ordered by the first occurrence of their [Id], those
    of one [Id] together and in the order of the list. *)
Definition mapping_order (l : list P) : list P :=
  flat_map (fun p0 => filter (same_Id p0) l) (first_of_Id l).

(** The page has an [Id] that can be a key. *)
Definition keyed (p : P) : Prop :=
  exists i, page_Id p = Ok i /\ hashable i = true.

(** No two pages of the list have the same [Id]. *)
Fixpoint distinct (F : list P) : Prop :=
  match F with
  | [] => True
  | p :: F' => Forall (fun q => same_Id p q = false) F' /\ distinct F'
  end.

(** What a slot of the mapping holds for the first page [p0] of an
    [Id], when the pages [L] have been loaded. *)
Definition slot_for (L : list P) (ks : json * slot P) (p0 : P) : Prop :=
  page_Id p0 = Ok (fst ks)
  /\ slot_pages (snd ks) = filter (same_Id p0) L
  /\ match snd ks with
     | Single _ => True
     | Group gid _ => key_eqb (fst ks) gid = true
     end.

(** The mapping [d] after the pages [L] have been loaded. *)
Definition loaded_inv (d : dict (slot P)) (L : list P) : Prop :=
  Forall2 (slot_for L) d (first_of_Id L)
  /\ Forall keyed L
  /\ Permutation (flat_map slot_pages (values d)) L.
End PageOrder.

(** The entries of a table in the order of [self._pages.values()],
    groups expanded. *)
Definition all_entries (t : table) : list entry :=
  flat_map slot_pages (values (pages t)).

(** The entries a table document is loaded from, in load order. *)
Definition loaded_entries (book : json) : result (list entry) :=
  pv <- getitem book "Pages" ;;
  match pv with
  | JArr l => make_pages (TableEntry_init Table_init) l
  | _ => Ok []
  end.

(** The [id_as_range] of the entry itself contains the rolled id. *)
Definition entry_matches (rid : json) (e : entry) : bool :=
  match (id <- entry_Id e ;; id_as_range id) with
  | Ok r => range_contains rid r
  | Raise _ => false
  end.

(* ================================================================== *)
(** ** Documents and tables the properties are run on *)

Module Cases.
Import Demo.

(** An entry whose sub-table has no entry for its only outcome. *)
Definition silent_sub_doc : json :=
  table_doc [("Die", JStr "1d1")] [page "2" "never"].

Definition dispatch_doc : json :=
  table_doc [("Die", JStr "1d1")]
    [JObj [("Id", JStr "1"); ("Details", JStr "parent"); ("Table", silent_sub_doc)]].

(** A forced table whose entry rolls a [Number]. *)
Definition forced_orcs_doc : json :=
  table_doc [("Die", JStr "1d4"); ("forced_roll", JInt 1)]
    [JObj [("Id", JStr "1"); ("Details", JStr "# orc$"); ("Number", JStr "1d6")]].

(** A forced table with a forced sub-table and no [Number]. *)
Definition forced_chain_doc : json :=
  table_doc [("Die", JStr "1d4"); ("forced_roll", JInt 2)]
    [page "1" "nothing";
     JObj [("Id", JStr "2-3"); ("Details", JStr "a chest");
           ("Table", table_doc [("Die", JStr "1d6"); ("forced_roll", JInt 6);
                                ("rop", JStr "append")]
                       [page "1-5" "empty"; page "6" "gold"])]].

(** A table forced to the string ["1"], with an entry for 1. *)
Definition forced_text_doc : json :=
  table_doc [("Die", JStr "1d1"); ("forced_roll", JStr "1")] [page "1" "x"].

(** One matching entry. *)
Definition one_entry_doc : json :=
  table_doc [("Die", JStr "1d1")] [page "1" "x"].

Definition one_entry_x : entry :=
  TableEntry [("Id", JStr "1"); ("Details", JStr "x")] None.

Definition goblin : entry :=
  TableEntry [("Id", JStr "1"); ("Details", JStr "#a goblin#"); ("Number", JStr "1d1")]
             None.

Definition witches (Number : json) : entry :=
  TableEntry [("Id", JStr "1"); ("Details", JStr "#a bruix$(es)"); ("Number", Number)]
             None.

(** Pages of a plain book under one [Id]. *)
Definition two_pages : json := JArr [page "7" "a"; page "7" "b"].
Definition three_pages : json := JArr [page "7" "a"; page "7" "b"; page "7" "c"].

(** Files of a library directory: a table, and a table without
    [Die]. *)
Definition good_file : file :=
  File "good.json" (Some (table_doc [("Die", JStr "1d1")] [page "1" "x"])).
Definition bad_file : file :=
  File "bad.json"
       (Some (JObj [("Id", JStr "u"); ("Title", JStr "U"); ("Type", JInt 2);
                    ("Pages", JArr [page "1" "y"])])).

(** The table a document loads as ([no_table] when it does not). *)
Definition no_table : table := MkTable JNull JNull TABLE [] JNull None JNull.
Definition loaded (doc : json) : table :=
  match Table_init doc with
  | Ok t => t
  | Raise _ => no_table
  end.

Definition dispatch : table := Eval vm_compute in loaded dispatch_doc.
Definition forced_orcs : table := Eval vm_compute in loaded forced_orcs_doc.
Definition forced_chain : table := Eval vm_compute in loaded forced_chain_doc.
Definition forced_text : table := Eval vm_compute in loaded forced_text_doc.
Definition one_entry : table := Eval vm_compute in loaded one_entry_doc.

(** An entry with a sub-table that always gives ["gold"]. *)
Definition gold : table :=
  Eval vm_compute in
    loaded (table_doc [("Die", JStr "1d1"); ("rop", JStr "append")] [page "1" "gold"]).
Definition chest : entry :=
  TableEntry [("Id", JStr "1"); ("Details", JStr "a chest")] (Some gold).
End Cases.

(** The number a decimal numeral denotes after the digits that gave
    [acc]. *)
Fixpoint uint_val (d : Decimal.uint) (acc : Z) : Z :=
  match d with
  | Decimal.Nil => acc
  | Decimal.D0 l => uint_val l (10 * acc)
  | Decimal.D1 l => uint_val l (10 * acc + 1)
  | Decimal.D2 l => uint_val l (10 * acc + 2)
  | Decimal.D3 l => uint_val l (10 * acc + 3)
  | Decimal.D4 l => uint_val l (10 * acc + 4)
  | Decimal.D5 l => uint_val l (10 * acc + 5)
  | Decimal.D6 l => uint_val l (10 * acc + 6)
  | Decimal.D7 l => uint_val l (10 * acc + 7)
  | Decimal.D8 l => uint_val l (10 * acc + 8)
  | Decimal.D9 l => uint_val l (10 * acc + 9)
  end.

(** The characters of a string are decimal digits. *)
Fixpoint all_digits (s : string) : bool :=
  match s with
  | EmptyString => true
  | String c s' => is_digit c && all_digits s'
  end.

(* ================================================================== *)
(** ** Lookups in books and in the library, hit points *)

(** [Book.search] *)
Definition Book_search {P} (pages : dict (slot P)) (pid : json)
  : result (option (slot P)) :=
  if negb (truthy pid) then Ok None
  else if negb (hashable pid) then Raise TypeError
  else Ok (dict_get pid pages).

(** [Book.index] *)
Definition Book_index {P} (pages : dict (slot P)) : list (slot P) := values pages.

(** [x.startswith(prefix)]: only [str] has the method, and it takes a
    string (a JSON value is never a tuple). *)
Definition startswith (x : json) (prefix : json) : result bool :=
  match x with
  | JStr s =>
      match prefix with
      | JStr p => Ok (String.prefix p s)
      | _ => Raise TypeError
      end
  | _ => Raise AttributeError
  end.

(** [list(filter(lambda x: x.startswith(bid), keys))] *)
Definition keys_startswith (bid : json) : list json -> result (list json) :=
  fix loop keys :=
    match keys with
    | [] => Ok []
    | x :: rest =>
        b <- startswith x bid ;;
        bids <- loop rest ;;
        Ok (if b then x :: bids else bids)
    end.

(** [Library.search]; a [KeyError] of the lookup gives [None]. *)
Definition Library_search (books : dict book) (bid : json) : result (option book) :=
  bids <- keys_startswith bid (map fst books) ;;
  if negb (List.length bids =? 1)%nat then Ok None
  else
    bid0 <- list_item bids 0 ;;
    Ok (dict_get bid0 books).

(** [Library.index] *)
Definition Library_index (books : dict book) : list book := values books.

(** [sorted(l)] for a list of integers: the ascending arrangement of
    the list, which is unique. *)
Fixpoint insert_sorted (x : Z) (l : list Z) : list Z :=
  match l with
  | [] => [x]
  | y :: l' => if x <=? y then x :: l else y :: insert_sorted x l'
  end.

Definition sorted (l : list Z) : list Z := fold_right insert_sorted [] l.

Section HitPoints.
Context {R : Type}.
Variable roll_dice : json -> R -> result (Z * R).
Variable repr : json -> string.

(** The loop of [MonsterPage.roll]: [hitppoints += [result]] for each
    of [n] rolls. *)
Definition roll_times (die : json) : nat -> list Z -> M (list Z) :=
  fix loop n hitppoints :=
    match n with
    | O => ret hitppoints
    | S n' =>
        mbind (roll_dice die) (fun result => loop n' (hitppoints ++ [result]))
    end.

(** The expression [f'{factors[0]} * {die}'] of [MonsterPage.roll]. *)
Definition hp_expression (page : attrs) (die : json) : result string :=
  hp <- getattr page "HP" ;;
  factors <- match hp with
             | JStr s => Ok (split "+" s)
             | _ => Raise AttributeError
             end ;;
  f0 <- list_item factors 0 ;;
  Ok (f0 +++ " * " +++ str repr die).

(** [page.roll(num, die)] on a [MonsterPage].  [Page.add] writes every
    key of the record into the instance's [__dict__], so that a key
    ["roll"] hides the method, and calling the JSON value it holds
    raises [TypeError].  [range(num)] is empty for [num <= 0]. *)
Definition MonsterPage_roll (page : attrs) (num : Z) (die : json) : M (list Z) :=
  if hasattr page "roll" then lift (Raise TypeError)
  else
    mbind (lift (hp_expression page die)) (fun expr =>
    mbind (roll_times (JStr expr) (Z.to_nat num) []) (fun hitppoints =>
    ret (sorted hitppoints))).
End HitPoints.

(** The value is a string that starts with [prefix]. *)
Definition has_prefix (prefix : string) (v : json) : bool :=
  match v with
  | JStr s => String.prefix prefix s
  | _ => false
  end.

(** No two keys of the list are equal. *)
Fixpoint distinct_keys (ks : list json) : Prop :=
  match ks with
  | [] => True
  | k :: ks' => Forall (fun k' => key_eqb k k' = false) ks' /\ distinct_keys ks'
  end.

(** The mapping of a library: distinct keys, each the [bid] of the book
    it holds. *)
Definition library_inv (books : dict book) : Prop :=
  distinct_keys (map fst books)
  /\ Forall (fun kb => key_eqb (fst kb) (book_bid (snd kb)) = true) books.

(* ================================================================== *)
(** ** The table maker of [utils/maketable.py] *)

(** The characters for which [str.isspace] holds, in UTF-8: U+0009 to
    U+000D, U+001C to U+0020, U+0085, U+00A0, U+1680, U+2000 to U+200A,
    U+2028, U+2029, U+202F, U+205F and U+3000. *)
Definition whitespace : list (list ascii) :=
  map (map ascii_of_nat)
      ([[9]; [10]; [11]; [12]; [13]; [28]; [29]; [30]; [31]; [32];
        [194; 133]; [194; 160]; [225; 154; 128]]
         ++ map (fun n => [226; 128; n]) (seq 128 11)
         ++ [[226; 128; 168]; [226; 128; 169]; [226; 128; 175]; [226; 129; 159];
             [227; 128; 128]])%nat.

(** What follows the prefix [p] in [cs], when [cs] starts with it. *)
Fixpoint after_prefix (p cs : list ascii) : option (list ascii) :=
  match p, cs with
  | [], _ => Some cs
  | a :: p', c :: cs' => if Ascii.eqb a c then after_prefix p' cs' else None
  | _ :: _, [] => None
  end.

(** What follows the first of the [marks] that [cs] starts with. *)
Fixpoint after_any (marks : list (list ascii)) (cs : list ascii)
  : option (list ascii) :=
  match marks with
  | [] => None
  | p :: marks' =>
      match after_prefix p cs with
      | Some rest => Some rest
      | None => after_any marks' cs
      end
  end.

(** [cs] without the [marks] it starts with; each turn removes a
    character, so that [fuel] is enough when it is the length of [cs]. *)
Fixpoint lstrip_marks (marks : list (list ascii)) (fuel : nat) (cs : list ascii)
  : list ascii :=
  match fuel with
  | O => cs
  | S fuel' =>
      match after_any marks cs with
      | Some rest => lstrip_marks marks fuel' rest
      | None => cs
      end
  end.

(** [s.strip()], on the UTF-8 encoding of [s]: a text ends with a
    character exactly when its encoding ends with the encoding of the
    character. *)
Definition str_strip (s : string) : string :=
  let cs := list_ascii_of_string s in
  let cs := lstrip_marks whitespace (List.length cs) cs in
  let rs := rev cs in
  string_of_list_ascii
    (rev (lstrip_marks (map (@rev ascii) whitespace) (List.length rs) rs)).

(** The loop of [main] over [enumerate(lines, eid)]. *)
Fixpoint maketable_entries (eid : Z) (lines : list string) : list json :=
  match lines with
  | [] => []
  | line :: rest =>
      JObj [("Id", JStr (str_of_Z eid)); ("Details", JStr (str_strip line))]
      :: maketable_entries (eid + 1) rest
  end.

(** The table that [main] prints for the lines of its input file. *)
Definition maketable (lines : list string) : json :=
  let count := Z.of_nat (List.length lines) in
  JObj [("Id", JStr "undefined"); ("Title", JStr "undefined title");
        ("Type", JInt 2); ("Die", JStr ("1d" +++ str_of_Z count));
        ("Pages", JArr (maketable_entries 1 lines))].

(** The entry that the line numbered [eid] loads as, and the mapping of
    the lines numbered from [eid]. *)
Definition made_entry (eid : Z) (line : string) : entry :=
  TableEntry [("Id", JStr (str_of_Z eid)); ("Details", JStr (str_strip line))] None.

Fixpoint made_slots (eid : Z) (lines : list string) : dict (slot entry) :=
  match lines with
  | [] => []
  | line :: rest =>
      (JStr (str_of_Z eid), Single (made_entry eid line)) :: made_slots (eid + 1) rest
  end.

(* ================================================================== *)
(** ** The settings of [src/vebot.py] *)

(** A [Settings] object is its [__dict__]. *)
Definition USER_FACING_SETTINGS : list string :=
  ["language"; "opengame"; "system"; "mode"; "attributes"; "score_threshold";
   "monsters"].

(** [Settings.__init__] up to [self.load()]; [books_path] is the
    directory [books] beside the sources. *)
Definition Settings_defaults (books_path : string) : attrs :=
  [("token", JStr ""); ("language", JStr "en"); ("opengame", JStr "yes");
   ("system", JStr "ve"); ("mode", JStr "default"); ("attributes", JStr "ve");
   ("score_threshold", JInt 60); ("books_path", JStr books_path);
   ("monsters", JStr "mmbecmi")].

(** [Settings.load]: [settings_file] is [None] when there is no
    settings file, and else what [json.load] gives for it, when it
    parses. *)
Definition Settings_load (settings_file : option (option json)) (s : attrs)
  : result attrs :=
  match settings_file with
  | None => Ok s
  | Some None => Raise JSONDecodeError
  | Some (Some (JObj data)) =>
      Ok (fold_left (fun d kv => attr_set (fst kv) (snd kv) d) data s)
  | Some (Some _) => Raise AttributeError
  end.

Definition Settings_init (books_path : string) (settings_file : option (option json))
  : result attrs :=
  Settings_load settings_file (Settings_defaults books_path).

(** What [Settings.save] writes. *)
Definition Settings_save (s : attrs) : json :=
  JObj (filter (fun kv => negb (String.prefix "__" (fst kv))) s).

(** [settings.name] for a name that the class [Settings] defines as a
    plain attribute: a key of the instance's [__dict__], which
    [Settings.load] fills from the settings file, comes first.  A
    method is hidden in the same way by a key of its name, and the
    JSON value found in its place cannot be called ([TypeError]). *)
Definition instance_attr (s : attrs) (name : string) (class_value : json) : json :=
  match attr_get name s with
  | Some v => v
  | None => class_value
  end.

(** The class attribute [SETTINGS_FILE], a path. *)
Definition SETTINGS_FILE : json := JStr ".vebot.json".

(** A byte that continues a character in UTF-8. *)
Definition is_continuation (c : ascii) : bool :=
  let n := nat_of_ascii c in ((128 <=? n) && (n <? 192))%nat.

(** The characters of a text, each with the bytes of its encoding. *)
Fixpoint chars (s : string) : list string :=
  match s with
  | EmptyString => []
  | String c s' =>
      let rest := chars s' in
      if match s' with
         | String d _ => is_continuation d
         | EmptyString => false
         end
      then match rest with
           | x :: rest' => String c x :: rest'
           | [] => [String c EmptyString]
           end
      else String c EmptyString :: rest
  end.

(** The keys of the dict that [json.load] makes of an object. *)
Definition dict_keys (o : list (string * json)) : list string :=
  map fst (fold_left (fun d kv => attr_set (fst kv) (snd kv) d) o []).

(** [for key in v]: the elements of a list, the characters of a
    string, the keys of a dict. *)
Definition iter (v : json) : result (list json) :=
  match v with
  | JArr l => Ok l
  | JStr s => Ok (map JStr (chars s))
  | JObj o => Ok (map JStr (dict_keys o))
  | JNull | JBool _ | JInt _ => Raise TypeError
  end.

(** [x in s] for two strings. *)
Fixpoint is_substring (x s : string) : bool :=
  String.prefix x s
  || match s with
     | EmptyString => false
     | String _ s' => is_substring x s'
     end.

(** [x in v] for a string [x]. *)
Definition contains (v : json) (x : string) : result bool :=
  match v with
  | JArr l => Ok (existsb (fun y => str_eqb y x) l)
  | JStr s => Ok (is_substring x s)
  | JObj o => Ok (existsb (String.eqb x) (dict_keys o))
  | JNull | JBool _ | JInt _ => Raise TypeError
  end.

(** The strings of a list of strings. *)
Fixpoint strs (l : list json) : result (list string) :=
  match l with
  | [] => Ok []
  | JStr x :: l' => rest <- strs l' ;; Ok (x :: rest)
  | _ :: _ => Raise TypeError
  end.

(** [sep.join(v)] *)
Definition join (sep : string) (v : json) : result string :=
  items <- iter v ;;
  texts <- strs items ;;
  Ok (String.concat sep texts).

(** The value of [valid_values] after the [if] chain of
    [Settings.get_valid_values]. *)
Definition valid_values_for (setting : string) : list string :=
  if String.eqb setting "opengame" then ["yes"; "no"]
  else if String.eqb setting "system" then ["ve"; "ose"]
  else if String.eqb setting "attributes" then ["inorder"; "inorder+"; "ve"; "heroic"]
  else [].

(** The body of [Settings.get_valid_values]. *)
Definition get_valid_values (s : attrs) (setting : string)
  : result (option (list string)) :=
  known <- contains (instance_attr s "USER_FACING_SETTINGS"
                                   (JArr (map JStr USER_FACING_SETTINGS)))
                    setting ;;
  Ok (if known then Some (valid_values_for setting) else None).

(** [open(file, 'w')]: a string is a path and an integer a
    descriptor, and both are taken to be writable; a negative
    descriptor is refused. *)
Definition open_for_writing (file : json) : result unit :=
  match file with
  | JStr _ | JBool _ => Ok tt
  | JInt z => if z <? 0 then Raise ValueError else Ok tt
  | JNull | JArr _ | JObj _ => Raise TypeError
  end.

(** The body of [Settings.save]: what it has written. *)
Definition Settings_save_file (s : attrs) : result json :=
  _ <- open_for_writing (instance_attr s "SETTINGS_FILE" SETTINGS_FILE) ;;
  Ok (Settings_save s).

(** The body of [Settings.set] for a string value, as the [set]
    command calls it: the settings it leaves, and the value returned
    or the exception of [self.save()], which is raised after the value
    has been stored. *)
Definition Settings_set (s : attrs) (key value : string)
    (valid_values : option (list string)) : attrs * result bool :=
  let stored :=
    let s' := attr_set key (JStr value) s in
    (s', if hasattr s' "save" then Raise TypeError
         else _ <- Settings_save_file s' ;; Ok true) in
  match valid_values with
  | Some (v :: vs) =>
      if negb (existsb (String.eqb value) (v :: vs)) then (s, Ok false) else stored
  | Some [] | None => stored
  end.

(** What the [set] command answers before it reloads anything, or the
    exception it raises. *)
Inductive set_reply : Type :=
| Invalid_setting (message : string)
| Invalid_value (message : option string)
| Accepted (setting : string)
| Raised (e : exn).

(** The [set] command up to the reloads: the settings it leaves and its
    answer.  A key that has passed [startswith] is a string, so that
    the one key found is one.  After [Accepted setting] the library is
    reloaded for [language], [system] and [mode], the cogs for [system]
    and [mode], and the change is announced. *)
Definition command_set (s : attrs) (setting value : string) : attrs * set_reply :=
  let valid_settings :=
    instance_attr s "USER_FACING_SETTINGS" (JArr (map JStr USER_FACING_SETTINGS)) in
  match (keys <- iter valid_settings ;; keys_startswith (JStr setting) keys) with
  | Raise e => (s, Raised e)
  | Ok [JStr setting'] =>
      if hasattr s "get_valid_values" then (s, Raised TypeError)
      else
        match get_valid_values s setting' with
        | Raise e => (s, Raised e)
        | Ok valid_values =>
            if hasattr s "set" then (s, Raised TypeError)
            else
              match Settings_set s setting' value valid_values with
              | (s', Ok true) => (s', Accepted setting')
              | (s', Ok false) =>
                  (s', Invalid_value
                         (match valid_values with
                          | Some (v :: vs) =>
                              Some ("invalid value, use ["
                                      +++ String.concat ", " (v :: vs) +++ "]")
                          | _ => None
                          end))
              | (s', Raise e) => (s', Raised e)
              end
        end
  | Ok _ =>
      match join ", " valid_settings with
      | Ok names =>
          (s, Invalid_setting
                ("Invalid setting " +++ String "034"%char setting
                   +++ String "034"%char ". Valid choices are: [" +++ names +++ "]"))
      | Raise e => (s, Raised e)
      end
  end.

(** The settings after a sequence of [set] commands. *)
Definition commands_set (s : attrs) (commands : list (string * string)) : attrs :=
  fold_left (fun s c => fst (command_set s (fst c) (snd c))) commands s.

(** Each constrained setting holds one of its valid values. *)
Definition constrained (s : attrs) : Prop :=
  forall (setting : string) (v : string) (vs : list string),
    valid_values_for setting = v :: vs ->
    exists value, attr_get setting s = Some (JStr value) /\ In value (v :: vs).

(** The text is one character. *)
Definition one_char (x : string) : bool :=
  match x with
  | EmptyString => false
  | String _ rest => forallb is_continuation (list_ascii_of_string rest)
  end.

(* ================================================================== *)
(** ** The commands of [src/cogs/books.py] *)

(** The double quote. *)
Definition dq : string := String "034"%char EmptyString.

(** A [discord.Embed] as the commands build it: the title given, the
    name, value and [inline] flag of each field added, and the text and
    icon of the footer, when one is set. *)
Record embed : Type :=
  Embed { embed_title : json;
          embed_fields : list (string * json * bool);
          embed_footer : option (string * string) }.

(** What a command sends. *)
Inductive reply : Type :=
| Say (text : string)
| Send (e : embed).

(** [book.search(pid)] on a book of the library; the pages of a table
    are seen through their [__dict__], which holds every attribute the
    [monster] command reads. *)
Definition book_search (b : book) (pid : json) : result (option (slot attrs)) :=
  match b with
  | MonsterBook _ _ pages => Book_search pages pid
  | TableBook t =>
      found <- Book_search (pages t) pid ;;
      Ok (match found with
          | Some (Single e) => Some (Single (fields e))
          | Some (Group gid es) => Some (Group gid (map fields es))
          | None => None
          end)
  end.

(** [monster.name] on what [search] returned: a [GroupOfPages] has the
    attribute [Id] and none of the fields of a page. *)
Definition found_getattr (m : slot attrs) (name : string) : result json :=
  match m with
  | Single page => getattr page name
  | Group gid _ => if String.eqb name "Id" then Ok gid else Raise AttributeError
  end.

Section BookCommands.
Context {R : Type}.
Variable roll_dice : json -> R -> result (Z * R).
Variable repr : json -> string.

(** The [monster] command. *)
Definition monster (settings : attrs) (books : dict book) (mid : string) : result reply :=
  monster_book <- getattr settings "monster_book" ;;
  monsters <- Library_search books monster_book ;;
  match monsters with
  | None =>
      Ok (Say ("monster manual " +++ dq +++ str repr monster_book +++ dq +++ " not found"))
  | Some b =>
      found <- book_search b (JStr mid) ;;
      match found with
      | None => Ok (Say (dq +++ mid +++ dq +++ " not found"))
      | Some m =>
          Name <- found_getattr m "Name" ;;
          Id <- found_getattr m "Id" ;;
          AC <- found_getattr m "AC" ;;
          HD <- found_getattr m "HD" ;;
          Move <- found_getattr m "Move" ;;
          Attacks <- found_getattr m "Attacks" ;;
          Damage <- found_getattr m "Damage" ;;
          Number <- found_getattr m "Number" ;;
          Save <- found_getattr m "Save" ;;
          Morale <- found_getattr m "Morale" ;;
          Treasure <- found_getattr m "Treasure" ;;
          Alignment <- found_getattr m "Alignment" ;;
          XP <- found_getattr m "XP" ;;
          Notes <- found_getattr m "Notes" ;;
          Ok (Send
                (Embed (JStr (str repr Name +++ " [**" +++ str repr Id +++ "**]"))
                   ([("AC", AC, true); ("HD", HD, true); ("Move", Move, true);
                     ("Attacks", Attacks, true); ("Damage", Damage, true);
                     ("# Appearing (In Lair)", Number, true); ("Save As", Save, true);
                     ("Morale", Morale, true); ("Treasure", Treasure, true);
                     ("Alignment", Alignment, true); ("XP", XP, true)]
                      ++ (if truthy Notes then [("Notes", Notes, false)] else []))
                   None))
      end
  end.

(** The [rollt] command; a [MonsterBook] has no method [roll]. *)
Definition rollt (books : dict book) (table_book : string) : M reply :=
  mbind (lift (Library_search books (JStr table_book))) (fun found =>
  match found with
  | None => ret (Say ("table " +++ dq +++ table_book +++ dq +++ " not found"))
  | Some (MonsterBook _ _ _) => lift (Raise AttributeError)
  | Some (TableBook t) =>
      mbind (Table_roll roll_dice repr t) (fun rolled =>
      let '(result, explanation) := rolled in
      if String.eqb result "" then ret (Say "something went wrong")
      else ret (Send (Embed (title t)
                        [("Result", JStr result, false);
                         ("Explanation", JStr (String.concat nl explanation), false)]
                        None)))
  end).
End BookCommands.

(* ================================================================== *)
(** ** The dice commands of [src/cogs/dice.py] *)

(** A space and the character U+25BE, in UTF-8. *)
Definition dropped_mark : string :=
  String " " (String "226" (String "150" (String "190" EmptyString))).

(** A row [{"score": ..., "details": ...}] of [roll_attributes]. *)
Record row : Type := MkRow { score : Z; details : string }.

(** [sorted(output, key=lambda k: int(k['score']), reverse=True)]: the
    rows by descending score, rows of one score in the order they had,
    which is what a stable sort gives. *)
Fixpoint insert_row (x : row) (l : list row) : list row :=
  match l with
  | [] => [x]
  | y :: l' => if score y <=? score x then x :: l else y :: insert_row x l'
  end.

Definition sorted_rows (l : list row) : list row := fold_right insert_row [] l.

(** [sum(scores)] *)
Definition sum (l : list Z) : Z := fold_left Z.add l 0.

(** [output[-1]] *)
Definition last_row (output : list row) : result row :=
  match rev output with
  | x :: _ => Ok x
  | [] => Raise IndexError
  end.

(** The die and the number of scores of a method. *)
Definition method_die (method : json) : string * nat :=
  if str_eqb method "inorder+" then ("4d6K3", 6%nat)
  else if str_eqb method "ve" then ("3d6", 7%nat)
  else if str_eqb method "heroic" then ("4d6K3", 7%nat)
  else ("3d6", 6%nat).

(** [modifier_ve] *)
Definition modifier_ve (score : Z) : string :=
  let result :=
    if 17 <? score then "+2"
    else if 14 <? score then "+1"
    else if 6 <? score then ""
    else if 3 <? score then "-1"
    else if 0 <? score then "-2"
    else "" in
  if String.eqb result "" then "" else " (" +++ result +++ ")".

(** [modifier_ose] *)
Definition modifier_ose (score : Z) : string :=
  let result :=
    if 17 <? score then "+3"
    else if 15 <? score then "+2"
    else if 12 <? score then "+1"
    else if 8 <? score then ""
    else if 5 <? score then "-1"
    else if 3 <? score then "-2"
    else if 0 <? score then "-3"
    else "" in
  if String.eqb result "" then "" else " (" +++ result +++ ")".

(** [modifier]: [systems[system](score, attr)]. *)
Definition modifier (system : json) (score : Z) : result string :=
  if negb (hashable system) then Raise TypeError
  else if str_eqb system "ve" then Ok (modifier_ve score)
  else if str_eqb system "ose" then Ok (modifier_ose score)
  else Raise KeyError.

(** [format_attribute] *)
Definition format_attribute (system : json) (die : string) (score : Z)
    (details attr : string) : result string :=
  let prefix := if String.eqb attr "" then "" else attr +++ ":    " in
  modif <- modifier system score ;;
  Ok (die +++ " -> **" +++ prefix +++ str_of_Z score +++ modif +++ "** <- " +++ details).

(** [check_for_notes] *)
Definition check_for_notes (attr : string) (score : Z) : list string := [].

Definition ATTR_PREFIXES : list string := ["STR"; "DEX"; "CON"; "INT"; "WIS"; "CHA"].

(** [score < threshold] for an [int] on the left. *)
Definition int_lt (score : Z) (threshold : json) : result bool :=
  match threshold with
  | JInt z => Ok (score <? z)
  | JBool b => Ok (score <? bool_to_Z b)
  | JNull | JStr _ | JArr _ | JObj _ => Raise TypeError
  end.

(** A channel of [get_all_channels()]: whether its type is
    [ChannelType.text], and its name. *)
Record channel : Type := Channel { is_text : bool; channel_name : string }.

(** Where a command sends an embed. *)
Inductive destination : Type :=
| To_context
| To_channel (c : channel)
| To_author.

Section Dice.
Context {R : Type}.
(** [rolldice.roll_dice]: the result, an integer, and the explanation. *)
Variable roll_dice : string -> R -> result (Z * string * R).

(** The loop of [roll_attributes]. *)
Definition roll_rows (die : string) : nat -> list row -> M (list row) :=
  fix loop n output :=
    match n with
    | O => ret output
    | S n' =>
        mbind (roll_dice die) (fun rolled =>
        loop n' (output ++ [MkRow (fst rolled) (replace "~~" dropped_mark (snd rolled))]))
    end.

(** [roll_attributes] *)
Definition roll_attributes (method : json) : M (list row * Z * string) :=
  let '(die, nscores) := method_die method in
  mbind (roll_rows die nscores []) (fun output =>
  let scores := map score output in
  let count := List.length (filter (fun x => x <? 9) scores) in
  let total := if (count <? 2)%nat then sum scores else 0 in
  if (6 <? List.length output)%nat then
    let output' := sorted_rows output in
    mbind (lift (last_row output')) (fun lowest =>
    ret (output', total - score lowest, die))
  else ret (output, total, die)).

(** The loop [while score < self.bot.app_settings.score_threshold] of
    [rollcharacter], for at most [fuel] turns: [None] when the loop
    would go on after them. *)
Definition roll_until (settings : attrs) (method : json)
  : nat -> list row * Z * string -> M (option (list row * Z * string)) :=
  fix loop fuel rolled :=
    mbind (lift (getattr settings "score_threshold")) (fun threshold =>
    mbind (lift (int_lt (snd (fst rolled)) threshold)) (fun again =>
    if again then
      match fuel with
      | O => ret None
      | S fuel' => mbind (roll_attributes method) (loop fuel')
      end
    else ret (Some rolled))).

(** The lines of [rollcharacter] from the rows; [output] is the empty
    list the command has just made. *)
Definition character_lines (system : json) (die : string) (attributes : list row)
  : result (list string * list string) :=
  let output : list string := [] in
  let notes := ["Assign the attribute values as you wish."] in
  let format_all :=
    fix loop (rows : list (string * row)) : result (list string) :=
      match rows with
      | [] => Ok []
      | (attr, row) :: rest =>
          line <- format_attribute system die (score row) (details row) attr ;;
          lines <- loop rest ;;
          Ok (line :: lines)
      end in
  if (List.length output =? 6)%nat then
    output <- format_all (List.combine ATTR_PREFIXES attributes) ;;
    Ok (output,
        notes ++ flat_map (fun ar => check_for_notes (fst ar) (score (snd ar)))
                          (List.combine ATTR_PREFIXES attributes))
  else
    output <- format_all (map (fun row => ("", row)) attributes) ;;
    Ok (output, notes).

(** [rollcharacter]: the embeds sent and where, for an author with the
    display name [iam] and the avatar [icon]; the [name] given to the
    command is read nowhere after it is set. *)
Definition rollcharacter (settings : attrs) (iam icon : string)
    (channels : list channel) (fuel : nat)
  : M (option (list (destination * embed))) :=
  mbind (lift (getattr settings "attributes")) (fun method =>
  mbind (roll_until settings method fuel ([], 0, "")) (fun rolled =>
  match rolled with
  | None => ret None
  | Some (attributes, _, die) =>
      mbind (lift (getattr settings "system")) (fun system =>
      mbind (lift (character_lines system die attributes)) (fun lines =>
      let '(output, notes) := lines in
      let notes :=
        match notes with
        | [] => ["Assign the attribute values as you wish."]
        | _ :: _ => notes
        end in
      let e :=
        Embed (JStr "Character")
          [("Ability Scores:", JStr (String.concat nl output), false);
           ("Notes:", JStr (String.concat nl notes), true)]
          (Some (iam, icon)) in
      mbind (lift (getattr settings "opengame")) (fun opengame =>
      if str_eqb opengame "yes" then ret (Some [(To_context, e)])
      else
        ret (Some
               (map (fun c => (To_channel c, e))
                    (filter (fun c => is_text c && String.prefix "dm" (channel_name c))
                            channels)
                  ++ [(To_author, e)])))))
  end)).
End Dice.

(* ================================================================== *)
(** ** Evaluators that draw from a tape *)

Module Draw.
Import Demo.

(** Answers any expression with the next number of the tape. *)
Definition roll_dice (die : json) (r : tape) : Py.result (Z * tape) :=
  match r with
  | x :: r' => Ok (x, r')
  | [] => Raise DiceError
  end.

(** The same, with an explanation that strikes one die out. *)
Definition roll_dice_explained (die : string) (r : tape)
  : Py.result (Z * string * tape) :=
  match r with
  | x :: r' => Ok (x, "[~~1~~, " +++ str_of_Z x +++ "]", r')
  | [] => Raise DiceError
  end.
End Draw.

(** The attributes of a page that the [monster] command reads. *)
Definition card_attributes : list string :=
  ["Name"; "Id"; "AC"; "HD"; "Move"; "Attacks"; "Damage"; "Number"; "Save";
   "Morale"; "Treasure"; "Alignment"; "XP"; "Notes"].

(** Every group of the mapping holds two pages. *)
Definition groups_are_pairs {P} (d : dict (slot P)) : Prop :=
  Forall (fun ks => match snd ks with
                    | Single _ => True
                    | Group _ ps => List.length ps = 2%nat
                    end) d.

(** [constrained], as a check. *)
Definition constrainedb (s : attrs) : bool :=
  forallb (fun setting =>
             match valid_values_for setting with
             | v :: vs =>
                 match attr_get setting s with
                 | Some (JStr value) => existsb (String.eqb value) (v :: vs)
                 | _ => false
                 end
             | [] => true
             end)
          ["opengame"; "system"; "attributes"].

(* ================================================================== *)
(** ** A small library to run the commands on *)

Module Shelf.
Import Demo.

Definition monster_page (Id Name HP : string) (Notes : json) : json :=
  JObj [("Id", JStr Id); ("Name", JStr Name); ("AC", JInt 6); ("HD", JStr HP);
        ("HP", JStr HP); ("Move", JStr "9"); ("Attacks", JStr "1");
        ("Damage", JStr "1d6"); ("Number", JStr "2d4"); ("Save", JStr "F1");
        ("Morale", JInt 8); ("Treasure", JStr "D"); ("Alignment", JStr "C");
        ("XP", JInt 10); ("Notes", Notes)].

Definition manual (Id : json) (Pages : list json) : file :=
  File "manual.json"
       (Some (JObj [("Id", Id); ("Title", JStr "Monsters"); ("Type", JInt 1);
                    ("Pages", JArr Pages)])).

(** Two orcs under one [Id], and an ogre. *)
Definition monsters_doc : list json :=
  [monster_page "orc" "Orc" "1" JNull; monster_page "ogre" "Ogre" "4+1" (JStr "Big");
   monster_page "orc" "Orc chief" "2" JNull].

Definition files : list file :=
  [manual (JStr "mm") []; manual (JStr "mmbecmi") monsters_doc; Cases.good_file].

Definition library_of (library_paths : list (list file)) : dict book :=
  match Library_load library_paths with
  | Ok books => books
  | Raise _ => []
  end.

Definition books : dict book := Eval vm_compute in library_of [files].

(** A library with a book whose [Id] is a number. *)
Definition numbered : dict book :=
  Eval vm_compute in library_of [[manual (JInt 7) []; Cases.good_file]].

Definition book_of (bid : string) : book :=
  match dict_get (JStr bid) books with
  | Some b => b
  | None => TableBook Cases.no_table
  end.

Definition mm : book := Eval vm_compute in book_of "mm".
Definition mmbecmi : book := Eval vm_compute in book_of "mmbecmi".

Definition table_t : table :=
  Eval vm_compute in
    match book_of "t" with
    | TableBook t => t
    | MonsterBook _ _ _ => Cases.no_table
    end.

Definition monster_pages : list attrs :=
  Eval vm_compute in
    match make_pages Page_init monsters_doc with
    | Ok L => L
    | Raise _ => []
    end.

Definition ogre : attrs := Eval vm_compute in nth 1 monster_pages [].
Definition orc : attrs := Eval vm_compute in nth 0 monster_pages [].

(** The default settings, and settings whose file names the monster
    book. *)
Definition defaults : attrs := Eval vm_compute in Settings_defaults "books".
Definition with_monster_book : attrs :=
  Eval vm_compute in attr_set "monster_book" (JStr "mmb") defaults.
Definition without_threshold : attrs :=
  Eval vm_compute in attr_set "score_threshold" (JInt 0) defaults.

(** Seven poor scores, then seven good ones. *)
Definition scores : tape := [3; 3; 3; 3; 3; 3; 3; 12; 13; 14; 15; 16; 10; 9].

Definition good_roll : list row * Z * string :=
  Eval vm_compute in
    match roll_attributes Draw.roll_dice_explained (JStr "ve")
                          [12; 13; 14; 15; 16; 10; 9] with
    | Ok (x, _) => x
    | Raise _ => ([], 0, "")
    end.

Definition channels : list channel :=
  [Channel true "dm-room"; Channel false "dm-voice"; Channel true "general"].

Definition sent : list (destination * embed) :=
  Eval vm_compute in
    match rollcharacter Draw.roll_dice_explained defaults "ann" "ann.png"
                        channels 2 scores with
    | Ok (Some x, _) => x
    | _ => []
    end.
End Shelf.

(** The string holds ASCII characters only. *)
Definition ascii_only (s : string) : bool :=
  forallb (fun c => (nat_of_ascii c <? 128)%nat) (list_ascii_of_string s).

(* ================================================================== *)
(** ** Running the definitions *)

Example replace_overlap : replace "aa" "b" "aaa" = "ba".
Proof. reflexivity. Qed.
Example replace_spaces : replace "  " " " "a   b" = "a  b".
Proof. reflexivity. Qed.
Example split_range : split "-" "5-7" = ["5"; "7"].
Proof. reflexivity. Qed.
Example split_leading : split "-" "-5" = [""; "5"].
Proof. reflexivity. Qed.
Example split_empty : split "-" "" = [""].
Proof. reflexivity. Qed.
Example int_spaces : int " 12 " = Ok 12.
Proof. reflexivity. Qed.
Example int_underscore : int "1_000" = Ok 1000.
Proof. reflexivity. Qed.
Example int_bad_underscore : int "1__0" = Raise ValueError.
Proof. reflexivity. Qed.
Example int_neg : int "-5" = Ok (-5).
Proof. reflexivity. Qed.
Example int_empty : int "" = Raise ValueError.
Proof. reflexivity. Qed.
Example str_neg : str_of_Z (-30) = "-30".
Proof. reflexivity. Qed.
Example str_zero : str_of_Z 0 = "0".
Proof. reflexivity. Qed.

(* ================================================================== *)
(** ** The recursive definitions, read as the source is written *)

Lemma bind_Ok {A B} (r : result A) (k : A -> result B) (b : B) :
  bind r k = Ok b -> exists a, r = Ok a /\ k a = Ok b.
Proof.
  destruct r as [a|e]; simpl; intros H; [eauto | discriminate].
Qed.

Lemma item_with_get {A} (f : json -> A) (k : string) (o : list (string * json)) :
  item_with f k o = option_map f (attr_get k o).
Proof.
  induction o as [|[k' v] o IH]; simpl; [reflexivity|].
  destruct (String.eqb k' k); [reflexivity | exact IH].
Qed.

(** [Table.load]: the header, the pages, then [Die], [forced_roll] and
    [rop]. *)
Lemma Table_init_eq (book : json) :
  Table_init book =
    (hdr <- Book_header book ;;
     let '(bid, title, ty) := hdr in
     pages <- (pv <- getitem book "Pages" ;;
               Book_pages (TableEntry_init Table_init) entry_Id pv) ;;
     die <- getitem book "Die" ;;
     Ok (MkTable bid title ty pages die
           (match book with JObj o => attr_get "forced_roll" o | _ => None end)
           (match book with
            | JObj o => match attr_get "rop" o with Some v => v | None => JStr "replace" end
            | _ => JStr "replace"
            end))).
Proof.
  destruct book; try reflexivity.
  cbn [Table_init]. rewrite item_with_get.
  destruct (Book_header (JObj o)) as [[[b t] ty]|e]; [|reflexivity].
  cbn [bind getitem]. destruct (attr_get "Pages" o); reflexivity.
Qed.

Lemma find_with_map {A} (f : entry -> A) (rid : json) (d : dict (slot entry)) :
  find_with f rid d = (es <- find_with (fun e => e) rid d ;; Ok (map f es)).
Proof.
  induction d as [|[k s] d IH]; [reflexivity|].
  cbn [find_with]. fold (find_with f rid d). fold (find_with (fun e => e) rid d).
  rewrite IH.
  destruct (slot_id_as_range s) as [rg|e]; [|reflexivity]. cbn [bind].
  destruct (find_with (fun e => e) rid d) as [es|e]; [|reflexivity]. cbn [bind].
  f_equal. rewrite map_app. f_equal.
  destruct (range_contains rid rg); [|reflexivity].
  destruct s; cbn; [reflexivity | now rewrite map_id].
Qed.

Lemma find_slot_pages (rid : json) (d : dict (slot entry)) :
  find_with (fun e => e) rid d =
    match d with
    | [] => Ok []
    | (_, s) :: d' =>
        r <- slot_id_as_range s ;;
        rest <- find_with (fun e => e) rid d' ;;
        Ok ((if range_contains rid r then slot_pages s else []) ++ rest)
    end.
Proof.
  destruct d as [|[k s] d]; [reflexivity|].
  cbn [find_with]. fold (find_with (fun e : entry => e) rid d).
  destruct (slot_id_as_range s) as [rg|e]; [|reflexivity]. cbn [bind].
  destruct (find_with (fun e => e) rid d) as [es|e]; [|reflexivity]. cbn [bind].
  destruct (range_contains rid rg); [|reflexivity].
  destruct s; cbn; [reflexivity | now rewrite map_id].
Qed.

Section RollEquation.
Context {R : Type}.
Variable roll_dice : json -> R -> result (Z * R).
Variable repr : json -> string.

(** [Table.roll]: the die, the forced value, [find], then the loop
    over the entries with the recursive calls. *)
Lemma Table_roll_eq (t : table) (r : R) :
  Table_roll roll_dice repr t r =
    match roll_dice (Die t) r with
    | Ok (rolled, r1) =>
        let rid := rolled_id t rolled in
        match Table_find t rid with
        | Ok entries =>
            roll_entries roll_dice (Table_roll roll_dice repr) entries ""
                         [headline repr t rid] r1
        | Raise e => Raise e
        end
    | Raise e => Raise e
    end.
Proof.
  destruct t as [b ti ty pg d f ro].
  cbn [Table_roll]. unfold mbind at 1.
  destruct (roll_dice _ r) as [[rolled r1]|e]; [|reflexivity].
  cbn [Die pages]. unfold mbind at 1, lift, Table_find. cbn [pages].
  rewrite find_with_map.
  destruct (find_with (fun e => e) _ pg) as [es|e]; reflexivity.
Qed.
End RollEquation.

(* ================================================================== *)
(** ** Template resolution *)

Lemma occurs_append (c : ascii) (s1 s2 : string) :
  occurs c (s1 +++ s2) = occurs c s1 || occurs c s2.
Proof.
  induction s1 as [|c' s1 IH]; simpl; [reflexivity|].
  now rewrite IH, orb_assoc.
Qed.

(** A replacement brings in no character that is not in the
    replacement text. *)
Lemma occurs_replace_from (c : ascii) (old new : string) (s : string) :
  forall skip, occurs c (replace_from old new skip s) = true ->
               occurs c s = true \/ occurs c new = true.
Proof.
  induction s as [|c' s IH]; intros skip H; [discriminate|].
  cbn [replace_from] in H. cbn [occurs].
  destruct skip as [|k].
  - destruct (prefix old (String c' s)).
    + rewrite occurs_append in H. apply orb_true_iff in H as [H|H]; [now right|].
      apply IH in H as [H|H]; [left | now right].
      rewrite H. apply orb_true_r.
    + simpl in H. apply orb_true_iff in H as [H|H].
      * left. now rewrite H.
      * apply IH in H as [H|H]; [left | now right].
        rewrite H. apply orb_true_r.
  - apply IH in H as [H|H]; [left | now right].
    rewrite H. apply orb_true_r.
Qed.

Lemma occurs_replace (c : ascii) (old new s : string) :
  occurs c s = false -> occurs c new = false ->
  occurs c (replace old new s) = false.
Proof.
  intros Hs Hn. destruct (occurs c (replace old new s)) eqn:E; [|reflexivity].
  apply occurs_replace_from in E as [E|E]; congruence.
Qed.

(** Deleting a one-character marker leaves none of it. *)
Lemma replace_char_gone (c : ascii) (s : string) :
  occurs c (replace (String c EmptyString) "" s) = false.
Proof.
  unfold replace. induction s as [|c' s IH]; [reflexivity|].
  cbn [replace_from String.length Nat.pred prefix].
  destruct (ascii_dec c c') as [->|Hne].
  - replace (prefix "" s) with true by (now destruct s). exact IH.
  - cbn [occurs]. rewrite IH, orb_false_r.
    apply Ascii.eqb_neq. congruence.
Qed.

Lemma strip_markers_clean (d : string) :
  occurs "#" (strip_markers d) = false /\ occurs "$" (strip_markers d) = false.
Proof.
  unfold strip_markers. split.
  - apply occurs_replace; [|reflexivity].
    apply occurs_replace; [|reflexivity].
    apply (replace_char_gone "#").
  - apply occurs_replace; [|reflexivity].
    apply (replace_char_gone "$").
Qed.

Lemma attr_get_without (k k0 : string) (d : attrs) :
  attr_get k (filter (fun kv => negb (String.eqb (fst kv) k0)) d) =
    if String.eqb k0 k then None else attr_get k d.
Proof.
  unfold attr_get. induction d as [|[k' v] d IH]; simpl.
  - now destruct (String.eqb k0 k).
  - destruct (String.eqb k' k0) eqn:E0; simpl.
    + apply String.eqb_eq in E0. subst k'. rewrite IH.
      now destruct (String.eqb k0 k).
    + destruct (String.eqb k' k) eqn:E1.
      * apply String.eqb_eq in E1. subst k'.
        rewrite String.eqb_sym in E0. now rewrite E0.
      * exact IH.
Qed.

Section Template.
Context {R : Type}.
Variable roll_dice : json -> R -> result (Z * R).

Lemma result_of_count (e : entry) (d : string) (count : Z) (r r' : R) :
  getattr (fields e) "Details" = Ok (JStr d) ->
  entry_count roll_dice e r = Ok (count, r') ->
  TableEntry_result roll_dice e r = Ok (strip_markers (apply_count count d), r').
Proof.
  intros Hd Hc. unfold TableEntry_result, mbind, lift, ret.
  now rewrite Hd, Hc.
Qed.

Lemma count_of_Number (e : entry) (number : json) (r : R) :
  attr_get "Number" (fields e) = Some number -> truthy number = true ->
  entry_count roll_dice e r = roll_dice number r.
Proof.
  intros Hn Ht. unfold entry_count. now rewrite Hn, Ht.
Qed.

(** C5. When the [Number] expression of an entry evaluates to a count
    above 1, the text is made by replacing ['#a'] by the count, then
    ['#'] by the count, then ['a$(-es)'] and ['$(es)'] by ["es"], then
    ['$'] by ["s"], and then stripping the markers and the double
    spaces; ["bruix$(es)"] with count 2 gives ["bruixes"]. *)
Theorem plural_substitution_order :
  (forall (e : entry) (d : string) (number : json) (count : Z) (r r' : R),
      getattr (fields e) "Details" = Ok (JStr d) ->
      attr_get "Number" (fields e) = Some number ->
      truthy number = true ->
      roll_dice number r = Ok (count, r') ->
      count > 1 ->
      TableEntry_result roll_dice e r =
        Ok (replace "  " " "
              (replace "$" ""
                 (replace "#" ""
                    (replace "#a" ""
                       (replace "$" "s"
                          (replace "$(es)" "es"
                             (replace "a$(-es)" "es"
                                (replace "#" (str_of_Z count)
                                   (replace "#a" (str_of_Z count) d)))))))),
            r'))
  /\
  (forall (e : entry) (number : json) (r r' : R),
      getattr (fields e) "Details" = Ok (JStr "bruix$(es)") ->
      attr_get "Number" (fields e) = Some number ->
      truthy number = true ->
      roll_dice number r = Ok (2, r') ->
      TableEntry_result roll_dice e r = Ok ("bruixes", r')).
Proof.
  split.
  - intros e d number count r r' Hd Hn Ht Hroll Hgt.
    rewrite (result_of_count e d count r r' Hd)
      by (now rewrite (count_of_Number e number r Hn Ht)).
    unfold apply_count, strip_markers.
    replace (count =? 1) with false by (symmetry; apply Z.eqb_neq; lia).
    replace (count >? 1) with true by (symmetry; apply Z.gtb_lt; lia).
    reflexivity.
  - intros e number r r' Hd Hn Ht Hroll.
    rewrite (result_of_count e _ 2 r r' Hd)
      by (now rewrite (count_of_Number e number r Hn Ht)).
    reflexivity.
Qed.

(** C6, as the code has it.  When the [Number] expression evaluates to
    exactly 1, every ['#'] of the template is replaced by the word
    ["un"] (so that ['#a'] reads ["una"]) before the markers and the
    double spaces are stripped. *)
Theorem singular_substitution
    (e : entry) (d : string) (number : json) (r r' : R) :
  getattr (fields e) "Details" = Ok (JStr d) ->
  attr_get "Number" (fields e) = Some number ->
  truthy number = true ->
  roll_dice number r = Ok (1, r') ->
  TableEntry_result roll_dice e r =
    Ok (replace "  " " "
          (replace "$" "" (replace "#" "" (replace "#a" "" (replace "#" "un" d)))),
        r').
Proof.
  intros Hd Hn Ht Hroll.
  rewrite (result_of_count e d 1 r r' Hd)
    by (now rewrite (count_of_Number e number r Hn Ht)).
  reflexivity.
Qed.

(** C10. When [Number] is present but falsy, resolving the template
    leaves the dice evaluator alone (the outcome is the same with an
    evaluator that always fails, and the random state is untouched)
    and gives what the entry gives without [Number]: the template with
    the count markers stripped, in which no ['#'] and no ['$'] is
    left. *)
Theorem falsy_Number_is_absent_Number (e : entry) (number : json) (r : R) :
  attr_get "Number" (fields e) = Some number ->
  truthy number = false ->
  TableEntry_result roll_dice e r =
    TableEntry_result (fun _ _ => Raise DiceError) e r
  /\ TableEntry_result roll_dice e r =
       TableEntry_result roll_dice (without_Number e) r
  /\ (forall d : string,
         getattr (fields e) "Details" = Ok (JStr d) ->
         TableEntry_result roll_dice e r = Ok (strip_markers d, r)
         /\ occurs "#" (strip_markers d) = false
         /\ occurs "$" (strip_markers d) = false).
Proof.
  intros Hn Hf.
  assert (Hc : forall dice : json -> R -> result (Z * R),
             entry_count dice e r = Ok (0, r)).
  { intros dice. unfold entry_count. now rewrite Hn, Hf. }
  assert (Hc' : entry_count roll_dice (without_Number e) r = Ok (0, r)).
  { unfold entry_count, without_Number. cbn [fields].
    now rewrite attr_get_without. }
  assert (Hd' : getattr (fields (without_Number e)) "Details"
                = getattr (fields e) "Details").
  { unfold getattr, without_Number. cbn [fields].
    now rewrite attr_get_without. }
  repeat split.
  - unfold TableEntry_result, mbind, lift.
    destruct (getattr (fields e) "Details"); [|reflexivity].
    now rewrite !Hc.
  - unfold TableEntry_result, mbind, lift. rewrite Hd'.
    destruct (getattr (fields e) "Details"); [|reflexivity].
    now rewrite Hc, Hc'.
  - now rewrite (result_of_count e d 0 r r H (Hc roll_dice)).
  - apply strip_markers_clean.
  - apply strip_markers_clean.
Qed.
End Template.

(* ================================================================== *)
(** ** The loop of [Table.roll] *)

Lemma append_assoc (a b c : string) : (a +++ b) +++ c = a +++ b +++ c.
Proof.
  induction a as [|x a IH]; simpl; [reflexivity | now rewrite IH].
Qed.

Lemma append_empty_r (a : string) : a +++ "" = a.
Proof.
  induction a as [|x a IH]; simpl; [reflexivity | now rewrite IH].
Qed.

Section RollFacts.
Context {R : Type}.
Variable roll_dice : json -> R -> result (Z * R).
Variable repr : json -> string.

Lemma run_steps_cons (s : @step R) (steps : list step)
    (res : string) (expl : list string) (r : R) :
  run_steps (s :: steps) res expl r =
    match run_step s expl r with
    | Ok (ce, r') => run_steps steps ((res +++ nl) +++ fst ce) (snd ce) r'
    | Raise x => Raise x
    end.
Proof. reflexivity. Qed.

Lemma collect_steps_cons (s : @step R) (steps : list step)
    (expl : list string) (r : R) :
  collect_steps (s :: steps) expl r =
    match run_step s expl r with
    | Ok (ce, r') =>
        match collect_steps steps (snd ce) r' with
        | Ok (x, r'') => Ok (fst ce :: fst x, snd x, r'')
        | Raise x => Raise x
        end
    | Raise x => Raise x
    end.
Proof.
  cbn [collect_steps]. unfold mbind at 1.
  destruct (run_step s expl r) as [[ce r1]|x]; [|reflexivity].
  unfold mbind, ret.
  destruct (collect_steps steps (snd ce) r1) as [[y r2]|x]; reflexivity.
Qed.

Lemma roll_entries_cons (f : table -> M (string * list string))
    (e : entry) (rest : list entry)
    (res : string) (expl : list string) (r : R) :
  roll_entries roll_dice f (e :: rest) res expl r =
    match run_step (entry_step roll_dice f e) expl r with
    | Ok (ce, r') => roll_entries roll_dice f rest ((res +++ nl) +++ fst ce) (snd ce) r'
    | Raise x => Raise x
    end.
Proof. reflexivity. Qed.

(** The turn of the loop for an entry with a sub-table. *)
Lemma run_step_sub (f : table -> M (string * list string))
    (e : entry) (sub : table) (expl : list string)
    (r r1 r2 : R) (c sres : string) (sexpl : list string) :
  Table e = Some sub ->
  TableEntry_result roll_dice e r = Ok (c, r1) ->
  f sub r1 = Ok (sres, sexpl, r2) ->
  run_step (entry_step roll_dice f e) expl r =
    Ok (combine (rop sub) c expl sres sexpl, r2).
Proof.
  intros Ht Hc Hs. unfold run_step, entry_step, mbind, ret. cbn [fst snd].
  now rewrite Hc, Ht, Hs.
Qed.

(** The turn of the loop for an entry without one. *)
Lemma run_step_plain (f : table -> M (string * list string))
    (e : entry) (expl : list string) (r : R) :
  Table e = None ->
  run_step (entry_step roll_dice f e) expl r =
    match TableEntry_result roll_dice e r with
    | Ok (c, r1) => Ok (c, expl, r1)
    | Raise x => Raise x
    end.
Proof.
  intros Ht. unfold run_step, entry_step, mbind, ret. cbn [fst snd].
  rewrite Ht. destruct (TableEntry_result roll_dice e r) as [[c r1]|x]; reflexivity.
Qed.

(** C2, as the code has it.  For a matching entry with a nested table,
    the sub-table is rolled after the entry's own text [c] is
    resolved.  When the sub-result [sres] is not empty, the entry's
    text becomes [sres] under ["replace"], [c + "\n" + sres] under
    ["append"], [c + sres] under ["concat"] (and stays [c] under any
    other [rop]), and the sub-explanation is appended to the
    explanation.  When [sres] is empty the text stays [c] and the
    sub-explanation is dropped. *)
Theorem sub_table_merge
    (e : entry) (sub : table) (rest : list entry)
    (res : string) (expl : list string)
    (r r1 r2 : R) (c sres : string) (sexpl : list string) :
  Table e = Some sub ->
  TableEntry_result roll_dice e r = Ok (c, r1) ->
  Table_roll roll_dice repr sub r1 = Ok (sres, sexpl, r2) ->
  exists (cresult : string) (expl' : list string),
    roll_entries roll_dice (Table_roll roll_dice repr) (e :: rest) res expl r =
      roll_entries roll_dice (Table_roll roll_dice repr) rest ((res +++ nl) +++ cresult) expl' r2
    /\ (sres <> "" ->
        expl' = expl ++ sexpl
        /\ (rop sub = JStr "replace" -> cresult = sres)
        /\ (rop sub = JStr "append" -> cresult = (c +++ nl) +++ sres)
        /\ (rop sub = JStr "concat" -> cresult = c +++ sres)
        /\ (str_eqb (rop sub) "replace" = false ->
            str_eqb (rop sub) "append" = false ->
            str_eqb (rop sub) "concat" = false -> cresult = c))
    /\ (sres = "" -> cresult = c /\ expl' = expl).
Proof.
  intros Ht Hc Hs.
  exists (fst (combine (rop sub) c expl sres sexpl)),
         (snd (combine (rop sub) c expl sres sexpl)).
  split; [|split].
  - rewrite roll_entries_cons.
    now rewrite (run_step_sub (Table_roll roll_dice repr) e sub expl r r1 r2 c sres sexpl Ht Hc Hs).
  - intros Hne. unfold combine.
    destruct (String.eqb sres "") eqn:E;
      [apply String.eqb_eq in E; contradiction|].
    cbn [fst snd]. repeat split.
    + now intros ->.
    + now intros ->.
    + now intros ->.
    + now intros -> -> ->.
  - intros ->. now unfold combine.
Qed.

(** What the loop returns: the accumulated result followed by each
    text of [collect_steps], a newline before each. *)
Lemma run_steps_collect (steps : list (@step R)) :
  forall (res : string) (expl : list string) (r : R),
    run_steps steps res expl r =
      match collect_steps steps expl r with
      | Ok (x, r') => Ok (res +++ newline_before_each (fst x), snd x, r')
      | Raise x => Raise x
      end.
Proof.
  induction steps as [|s steps IH]; intros res expl r.
  - cbn. unfold ret. now rewrite append_empty_r.
  - rewrite run_steps_cons, collect_steps_cons.
    destruct (run_step s expl r) as [[ce r1]|x]; [|reflexivity].
    rewrite IH.
    destruct (collect_steps steps (snd ce) r1) as [[x r2]|x]; [|reflexivity].
    cbn [fst snd]. do 2 f_equal. f_equal.
    unfold newline_before_each. cbn [map String.concat].
    destruct (map (fun c => nl +++ c) (fst x)) eqn:E.
    + now rewrite !append_empty_r, append_assoc.
    + cbn [String.append]. now rewrite !append_assoc.
Qed.

Lemma collect_steps_length (steps : list (@step R)) :
  forall (expl : list string) (r : R) x r',
    collect_steps steps expl r = Ok (x, r') ->
    List.length (fst x) = List.length steps.
Proof.
  induction steps as [|s steps IH]; intros expl r x r' H.
  - cbn in H. injection H as <- _. reflexivity.
  - rewrite collect_steps_cons in H.
    destruct (run_step s expl r) as [[ce r1]|?]; [|discriminate].
    destruct (collect_steps steps (snd ce) r1) as [[y r2]|?] eqn:E; [|discriminate].
    injection H as <- _. cbn. f_equal. eapply IH, E.
Qed.
End RollFacts.

(* ================================================================== *)
(** ** The result of a roll *)

Section RollResult.
Context {R : Type}.
Variable roll_dice : json -> R -> result (Z * R).
Variable repr : json -> string.

(** C8, as the code has it.  The result of a roll is made of the
    texts of the matching entries, one for each entry that [find]
    returns, with a newline before each of them; when no entry matches
    the rolled id, the roll returns normally, with the empty string
    and the headline as its only explanation. *)
Theorem roll_result_texts (t : table) (r : R) :
  (forall (res : string) (expl : list string) (r' : R),
      Table_roll roll_dice repr t r = Ok (res, expl, r') ->
      exists (rolled : Z) (r1 : R) (entries : list entry) (texts : list string),
        roll_dice (Die t) r = Ok (rolled, r1)
        /\ Table_find t (rolled_id t rolled) = Ok entries
        /\ collect_steps
             (map (entry_step roll_dice (Table_roll roll_dice repr)) entries)
             [headline repr t (rolled_id t rolled)] r1 = Ok (texts, expl, r')
        /\ List.length texts = List.length entries
        /\ res = newline_before_each texts)
  /\
  (forall (rolled : Z) (r1 : R),
      roll_dice (Die t) r = Ok (rolled, r1) ->
      Table_find t (rolled_id t rolled) = Ok [] ->
      Table_roll roll_dice repr t r =
        Ok ("", [headline repr t (rolled_id t rolled)], r1)).
Proof.
  split.
  - intros res expl r' H. rewrite Table_roll_eq in H.
    destruct (roll_dice (Die t) r) as [[rolled r1]|x] eqn:Hd; [|discriminate].
    cbv zeta in H.
    destruct (Table_find t (rolled_id t rolled)) as [entries|x] eqn:Hf;
      [|discriminate].
    unfold roll_entries in H. rewrite run_steps_collect in H.
    destruct (collect_steps _ _ r1) as [[[texts expl'] r2]|x] eqn:E; [|discriminate].
    cbn [fst snd] in H. injection H as <- <- <-.
    exists rolled, r1, entries, texts. repeat split; try assumption.
    apply collect_steps_length in E. cbn [fst] in E.
    now rewrite E, length_map.
  - intros rolled r1 Hd Hf. rewrite Table_roll_eq, Hd. cbv zeta.
    now rewrite Hf.
Qed.
End RollResult.

(* ================================================================== *)
(** ** Rolls on a table with a forced value *)

Lemma find_In (rid : json) (e : entry) (d : dict (slot entry)) :
  forall es, find_with (fun x => x) rid d = Ok es -> In e es ->
             exists k s, In (k, s) d /\ In e (slot_pages s).
Proof.
  induction d as [|[k s] d IH]; intros es H Hin; rewrite find_slot_pages in H.
  - injection H as <-. destruct Hin.
  - apply bind_Ok in H as (rg & _ & H). apply bind_Ok in H as (rest & Hrest & H).
    injection H as <-. apply in_app_or in Hin as [Hin|Hin].
    + exists k, s. split; [now left|].
      destruct (range_contains rid rg); [exact Hin | destruct Hin].
    + destruct (IH rest Hrest Hin) as (k' & s' & H1 & H2).
      exists k', s'. split; [now right | exact H2].
Qed.

Lemma height_eq (t : table) :
  height t =
    S (list_max (map (fun ks : json * slot entry =>
                        list_max (map entry_height (slot_pages (snd ks))))
                     (pages t))).
Proof.
  destruct t as [b ti ty pg d f ro]. cbn [height pages]. f_equal. f_equal.
  apply map_ext. intros [k [p|g ps]]; cbn [snd slot_pages map list_max].
  - unfold entry_height, list_max. cbn [fold_right]. now rewrite Nat.max_0_r.
  - reflexivity.
Qed.

Lemma list_max_In {A} (f : A -> nat) (x : A) (l : list A) :
  In x l -> (f x <= list_max (map f l))%nat.
Proof.
  intros H.
  assert (Hall : Forall (fun k => (k <= list_max (map f l))%nat) (map f l))
    by (apply list_max_le; lia).
  rewrite Forall_forall in Hall. apply Hall, in_map, H.
Qed.

Lemma height_sub (t : table) (rid : json) (es : list entry) (e : entry) (sub : table) :
  Table_find t rid = Ok es -> In e es -> Table e = Some sub ->
  (height sub < height t)%nat.
Proof.
  intros Hf Hin Ht. destruct (find_In rid e (pages t) es Hf Hin) as (k & s & H1 & H2).
  rewrite (height_eq t).
  pose proof (list_max_In
                (fun ks : json * slot entry =>
                   list_max (map entry_height (slot_pages (snd ks))))
                (k, s) (pages t) H1) as Hs.
  pose proof (list_max_In entry_height e (slot_pages s) H2) as He.
  cbn [snd] in Hs. unfold entry_height at 1 in He. rewrite Ht in He. lia.
Qed.

Lemma replayable_eq (t : table) :
  replayable t =
    match forced_roll t with
    | Some forced =>
        truthy forced &&
        match Table_find t forced with
        | Ok es =>
            forallb (fun e => number_free e &&
                              match Table e with
                              | Some sub => replayable sub
                              | None => true
                              end) es
        | Raise _ => true
        end
    | None => false
    end.
Proof.
  destruct t as [b ti ty pg d f ro]. cbn [replayable forced_roll pages].
  destruct f as [forced|]; [|reflexivity]. f_equal.
  unfold Table_find. cbn [pages]. rewrite find_with_map.
  destruct (find_with (fun e => e) forced pg) as [es|x]; [|reflexivity].
  cbn [bind]. induction es as [|e es IH]; [reflexivity|].
  cbn [map forallb]. now rewrite IH.
Qed.

Section Forced.
Context {R : Type}.
Variable roll_dice : json -> R -> result (Z * R).
Variable repr : json -> string.

(** An entry that rolls no [Number] gives its text without the dice. *)
Lemma number_free_result (e : entry) (r1 r2 r1' r2' : R) (c1 c2 : string) :
  number_free e = true ->
  TableEntry_result roll_dice e r1 = Ok (c1, r1') ->
  TableEntry_result roll_dice e r2 = Ok (c2, r2') ->
  c1 = c2.
Proof.
  intros Hn. unfold TableEntry_result, mbind, lift, ret.
  assert (Hc : forall r, entry_count roll_dice e r = Ok (0, r)).
  { intros r. unfold entry_count, number_free in *.
    destruct (attr_get "Number" (fields e)) as [n|]; [|reflexivity].
    now destruct (truthy n). }
  destruct (getattr (fields e) "Details") as [[| | |d| |]|x];
    rewrite ?Hc; try discriminate.
  intros H1 H2. congruence.
Qed.

(** The explanation only grows, at its end. *)
Lemma run_step_explanation (s : @step R) (expl : list string) (r r' : R) ce :
  run_step s expl r = Ok (ce, r') -> exists more, snd ce = expl ++ more.
Proof.
  unfold run_step, mbind, ret.
  destruct (fst s r) as [[c r1]|x]; [|discriminate].
  destruct (snd s) as [[roll_sub ro]|].
  - destruct (roll_sub r1) as [[[sres sexpl] r2]|x]; [|discriminate].
    intros H. injection H as <- _. cbn [fst snd]. unfold combine.
    destruct (String.eqb sres ""); cbn [snd].
    + exists []. now rewrite app_nil_r.
    + now exists sexpl.
  - intros H. injection H as <- _. exists []. cbn. now rewrite app_nil_r.
Qed.

Lemma collect_steps_explanation (steps : list (@step R)) :
  forall (expl : list string) (r r' : R) x,
    collect_steps steps expl r = Ok (x, r') -> exists more, snd x = expl ++ more.
Proof.
  induction steps as [|s steps IH]; intros expl r r' x H.
  - injection H as <- _. exists []. cbn. now rewrite app_nil_r.
  - rewrite collect_steps_cons in H.
    destruct (run_step s expl r) as [[ce r1]|?] eqn:E1; [|discriminate].
    destruct (collect_steps steps (snd ce) r1) as [[y r2]|?] eqn:E2; [|discriminate].
    injection H as <- _. cbn [snd].
    destruct (run_step_explanation _ _ _ _ _ E1) as [m1 H1].
    destruct (IH _ _ _ _ E2) as [m2 H2].
    exists (m1 ++ m2). now rewrite H2, H1, app_assoc.
Qed.

(** Two runs of the loop over entries that draw no dice. *)
Lemma roll_entries_replay (f : table -> M (string * list string)) (es : list entry) :
  (forall e, In e es -> number_free e = true) ->
  (forall e sub, In e es -> Table e = Some sub ->
                 forall r1 r2 x1 x2 r1' r2',
                   f sub r1 = Ok (x1, r1') -> f sub r2 = Ok (x2, r2') -> x1 = x2) ->
  forall (res : string) (expl : list string) r1 r2 x1 x2 r1' r2',
    roll_entries roll_dice f es res expl r1 = Ok (x1, r1') ->
    roll_entries roll_dice f es res expl r2 = Ok (x2, r2') ->
    x1 = x2.
Proof.
  induction es as [|e es IH]; intros Hn Hs res expl r1 r2 x1 x2 r1' r2' H1 H2.
  - cbn in H1, H2. unfold ret in *. congruence.
  - rewrite roll_entries_cons in H1, H2.
    destruct (run_step _ expl r1) as [[ce1 s1]|?] eqn:E1; [|discriminate].
    destruct (run_step _ expl r2) as [[ce2 s2]|?] eqn:E2; [|discriminate].
    assert (ce1 = ce2) as <-.
    { clear H1 H2 IH. unfold run_step, entry_step, mbind, ret in E1, E2.
      cbn [fst snd] in E1, E2.
      destruct (TableEntry_result roll_dice e r1) as [[c1 t1]|?] eqn:C1; [|discriminate].
      destruct (TableEntry_result roll_dice e r2) as [[c2 t2]|?] eqn:C2; [|discriminate].
      assert (c1 = c2) as <-
          by (eapply number_free_result; eauto; apply Hn; now left).
      destruct (Table e) as [sub|] eqn:Ht; [|congruence].
      destruct (f sub t1) as [[y1 u1]|?] eqn:F1; [|discriminate].
      destruct (f sub t2) as [[y2 u2]|?] eqn:F2; [|discriminate].
      assert (y1 = y2) as <- by (eapply (Hs e sub); eauto; now left).
      congruence. }
    eapply (IH (fun e' H => Hn e' (or_intror H))
               (fun e' sub' H => Hs e' sub' (or_intror H))); eauto.
Qed.

Lemma replay_by_height (n : nat) :
  forall t : table,
    (height t <= n)%nat -> replayable t = true ->
    forall r1 r2 x1 x2 r1' r2',
      Table_roll roll_dice repr t r1 = Ok (x1, r1') ->
      Table_roll roll_dice repr t r2 = Ok (x2, r2') ->
      x1 = x2.
Proof.
  induction n as [|n IH]; intros t Hh Hr r1 r2 x1 x2 r1' r2' H1 H2.
  - rewrite height_eq in Hh. lia.
  - rewrite Table_roll_eq in H1, H2. rewrite replayable_eq in Hr.
    unfold rolled_id in H1, H2.
    destruct (forced_roll t) as [forced|]; [|discriminate].
    apply andb_true_iff in Hr as [Hf Hr]. rewrite Hf in H1, H2.
    destruct (roll_dice (Die t) r1) as [[z1 s1]|?]; [|discriminate].
    destruct (roll_dice (Die t) r2) as [[z2 s2]|?]; [|discriminate].
    cbv zeta in H1, H2.
    destruct (Table_find t forced) as [es|?] eqn:Hfind; [|discriminate].
    rewrite forallb_forall in Hr.
    eapply (roll_entries_replay (Table_roll roll_dice repr) es); eauto.
    + intros e Hin. apply Hr in Hin. now apply andb_true_iff in Hin.
    + intros e sub Hin Ht. apply IH.
      * pose proof (height_sub t forced es e sub Hfind Hin Ht). lia.
      * apply Hr in Hin. apply andb_true_iff in Hin as [_ Hin].
        now rewrite Ht in Hin.
Qed.

(** C7, as the code has it.  On a table whose [forced_roll] is truthy,
    every roll that returns uses the forced value as rolled id: the
    entries are those [find] gives for it and the explanation starts
    with the [Die] expression and the forced value.  Two rolls return
    the same result and explanation when, moreover, the matched
    entries roll no [Number] and their sub-tables are, in turn, forced
    in this way; the dice of a [Number] and of a sub-table without
    [forced_roll] are rolled afresh by each call. *)
Theorem forced_roll_replay (t : table) (forced : json) :
  forced_roll t = Some forced ->
  truthy forced = true ->
  (forall (r r' : R) (res : string) (expl : list string),
      Table_roll roll_dice repr t r = Ok (res, expl, r') ->
      exists (entries : list entry) (r1 : R) (more : list string),
        Table_find t forced = Ok entries
        /\ roll_entries roll_dice (Table_roll roll_dice repr) entries ""
             [headline repr t forced] r1 = Ok (res, expl, r')
        /\ expl = (str repr (Die t) +++ " -> **" +++ str repr forced +++ "**") :: more)
  /\
  (replayable t = true ->
   forall (r1 r2 r1' r2' : R) (x1 x2 : string * list string),
     Table_roll roll_dice repr t r1 = Ok (x1, r1') ->
     Table_roll roll_dice repr t r2 = Ok (x2, r2') ->
     x1 = x2).
Proof.
  intros Hforced Htruthy. split.
  - intros r r' res expl H. rewrite Table_roll_eq in H.
    unfold rolled_id in H. rewrite Hforced, Htruthy in H.
    destruct (roll_dice (Die t) r) as [[z r1]|?]; [|discriminate].
    cbv zeta in H.
    destruct (Table_find t forced) as [es|?]; [|discriminate].
    pose proof H as H'. unfold roll_entries in H'.
    rewrite run_steps_collect in H'.
    destruct (collect_steps _ _ r1) as [[y r2]|?] eqn:E; [|discriminate].
    injection H' as _ He _.
    apply collect_steps_explanation in E as [more E].
    exists es, r1, more. repeat split; [exact H|].
    rewrite <- He, E. reflexivity.
  - intros Hr r1 r2 r1' r2' x1 x2 H1 H2.
    eapply (replay_by_height (height t)); eauto.
Qed.
End Forced.

(* ================================================================== *)
(** ** Loading the pages of a book *)

Lemma key_eqb_refl (a : json) : hashable a = true -> key_eqb a a = true.
Proof.
  destruct a; cbn; try discriminate; intros _.
  - reflexivity.
  - apply Bool.eqb_reflx.
  - apply Z.eqb_refl.
  - apply String.eqb_refl.
Qed.

Lemma key_eqb_sym (a b : json) : key_eqb a b = key_eqb b a.
Proof.
  destruct a, b; cbn; try reflexivity.
  - now destruct b, b0.
  - apply Z.eqb_sym.
  - apply Z.eqb_sym.
  - apply Z.eqb_sym.
  - apply String.eqb_sym.
Qed.

Lemma key_eqb_trans (a b c : json) :
  key_eqb a b = true -> key_eqb b c = true -> key_eqb a c = true.
Proof.
  destruct a, b; cbn; try discriminate; destruct c; cbn; try discriminate;
    rewrite ?Z.eqb_eq, ?String.eqb_eq, ?Bool.eqb_true_iff;
    try congruence;
    repeat match goal with b : bool |- _ => destruct b end;
    cbn; intros; subst; try reflexivity; try discriminate; try lia.
Qed.

Lemma key_eqb_hashable (a b : json) : key_eqb a b = true -> hashable a = true.
Proof. destruct a, b; cbn; congruence. Qed.

(** Equal keys are the same string, or are not strings. *)
Lemma key_eqb_id_as_range (a b : json) :
  key_eqb a b = true -> id_as_range a = id_as_range b.
Proof.
  destruct a, b; cbn; try discriminate; try reflexivity.
  intros H. apply String.eqb_eq in H. now subst.
Qed.

Section AssocFacts.
Context {V : Type}.

Lemma dict_get_None (k : json) (d : dict V) :
  dict_get k d = None <-> Forall (fun kv => key_eqb (fst kv) k = false) d.
Proof.
  unfold dict_get. induction d as [|[k' v] d IH]; cbn.
  - split; [constructor | reflexivity].
  - destruct (key_eqb k' k) eqn:E.
    + split; [discriminate|]. intros H. inversion H; subst. cbn in *. congruence.
    + rewrite IH. split; intros H.
      * constructor; [exact E | exact H].
      * now inversion H.
Qed.

Lemma dict_get_Some (k : json) (d : dict V) (v : V) :
  dict_get k d = Some v ->
  exists d1 k0 d2,
    d = d1 ++ (k0, v) :: d2 /\ key_eqb k0 k = true
    /\ Forall (fun kv => key_eqb (fst kv) k = false) d1.
Proof.
  unfold dict_get. induction d as [|[k' v'] d IH]; cbn; [discriminate|].
  destruct (key_eqb k' k) eqn:E.
  - intros H. injection H as ->. exists [], k', d. repeat split; [exact E | constructor].
  - intros H. destruct (IH H) as (d1 & k0 & d2 & -> & H1 & H2).
    exists ((k', v') :: d1), k0, d2. repeat split; [exact H1|].
    constructor; [exact E | exact H2].
Qed.

Lemma dict_set_new (k : json) (v : V) (d : dict V) :
  Forall (fun kv => key_eqb (fst kv) k = false) d ->
  dict_set k v d = d ++ [(k, v)].
Proof.
  unfold dict_set. induction d as [|[k' v'] d IH]; cbn; intros H; [reflexivity|].
  inversion H as [|? ? H1 H2]; subst. cbn in H1. rewrite H1. now rewrite IH.
Qed.

Lemma dict_set_old (k k0 : json) (v v0 : V) (d1 d2 : dict V) :
  Forall (fun kv => key_eqb (fst kv) k = false) d1 ->
  key_eqb k0 k = true ->
  dict_set k v (d1 ++ (k0, v0) :: d2) = d1 ++ (k0, v) :: d2.
Proof.
  unfold dict_set. induction d1 as [|[k' v'] d1 IH]; cbn; intros H Hk.
  - now rewrite Hk.
  - inversion H as [|? ? H1 H2]; subst. cbn in H1. rewrite H1. now rewrite IH.
Qed.
End AssocFacts.

Lemma Permutation_filter {A} (f : A -> bool) (l l' : list A) :
  Permutation l l' -> Permutation (filter f l) (filter f l').
Proof.
  induction 1 as [|x l l' _ IH|x y l|l l' l'' _ IH1 _ IH2]; cbn.
  - constructor.
  - destruct (f x); [now constructor | exact IH].
  - destruct (f x), (f y); try apply Permutation_refl. constructor.
  - now transitivity (filter f l').
Qed.

Section LoadOrder.
Context {P : Type}.
Variable make_page : json -> result P.
Variable page_Id : P -> result json.

Lemma same_Id_refl (p : P) : keyed page_Id p -> same_Id page_Id p p = true.
Proof.
  intros (i & Hi & Hh). unfold same_Id. rewrite Hi. now apply key_eqb_refl.
Qed.

Lemma same_Id_sym (a b : P) : same_Id page_Id a b = same_Id page_Id b a.
Proof.
  unfold same_Id. destruct (page_Id a), (page_Id b); try reflexivity.
  apply key_eqb_sym.
Qed.

Lemma same_Id_trans (a b c : P) :
  same_Id page_Id a b = true -> same_Id page_Id b c = true ->
  same_Id page_Id a c = true.
Proof.
  unfold same_Id.
  destruct (page_Id a), (page_Id b), (page_Id c); try discriminate.
  apply key_eqb_trans.
Qed.

Lemma same_Id_key (a b : P) (k : json) :
  page_Id a = Ok k ->
  same_Id page_Id a b =
    match page_Id b with Ok i => key_eqb k i | Raise _ => false end.
Proof. intros H. unfold same_Id. now rewrite H. Qed.

Lemma distinct_filter (f : P -> bool) (F : list P) :
  distinct page_Id F -> distinct page_Id (filter f F).
Proof.
  induction F as [|p F IH]; cbn; [trivial|]. intros [H1 H2].
  destruct (f p); cbn; [split|]; auto.
  rewrite Forall_forall in *. intros q Hq. apply filter_In in Hq as [Hq _]. auto.
Qed.

Lemma first_of_Id_incl (l : list P) : incl (first_of_Id page_Id l) l.
Proof.
  induction l as [|p l IH]; cbn; intros q Hq; [exact Hq|].
  destruct Hq as [->|Hq]; [now left|].
  apply filter_In in Hq as [Hq _]. right. now apply IH.
Qed.

Lemma first_of_Id_distinct (l : list P) : distinct page_Id (first_of_Id page_Id l).
Proof.
  induction l as [|p l IH]; cbn; [trivial|]. split.
  - rewrite Forall_forall. intros q Hq. apply filter_In in Hq as [_ Hq].
    now apply negb_true_iff in Hq.
  - now apply distinct_filter.
Qed.

Lemma first_of_Id_cover (l : list P) (p : P) :
  In p l -> keyed page_Id p ->
  exists p0, In p0 (first_of_Id page_Id l) /\ same_Id page_Id p0 p = true.
Proof.
  induction l as [|e l IH]; cbn; intros Hin Hk; [destruct Hin|].
  destruct Hin as [->|Hin].
  - exists p. split; [now left | now apply same_Id_refl].
  - destruct (IH Hin Hk) as (p0 & H0 & Hs).
    destruct (same_Id page_Id e p0) eqn:E.
    + exists e. split; [now left | eapply same_Id_trans; eauto].
    + exists p0. split; [|exact Hs]. right. apply filter_In. now rewrite E.
Qed.

Lemma first_of_Id_snoc (l : list P) (p : P) :
  first_of_Id page_Id (l ++ [p]) =
    first_of_Id page_Id l ++
      (if existsb (fun q => same_Id page_Id q p) l then [] else [p]).
Proof.
  induction l as [|e l IH]; cbn; [reflexivity|].
  rewrite IH, filter_app. f_equal. f_equal.
  destruct (existsb (fun q => same_Id page_Id q p) l).
  - now rewrite orb_true_r.
  - rewrite orb_false_r. cbn. now destruct (same_Id page_Id e p).
Qed.

Lemma loaded_inv_nil : loaded_inv page_Id [] [].
Proof. repeat split; constructor. Qed.

Lemma loaded_inv_order (d : dict (slot P)) (L : list P) :
  loaded_inv page_Id d L -> flat_map slot_pages (values d) = mapping_order page_Id L.
Proof.
  intros (H & _ & _). unfold mapping_order, values.
  induction H as [|ks p0 d F (_ & Hs & _) _ IH]; cbn; [reflexivity|].
  now rewrite Hs, IH.
Qed.

(** The other slots are not touched by a page of another [Id]. *)
Lemma slot_for_other (L : list P) (p : P) (ks : json * slot P) (p0 : P) :
  same_Id page_Id p0 p = false ->
  slot_for page_Id L ks p0 -> slot_for page_Id (L ++ [p]) ks p0.
Proof.
  intros Hne (H1 & H2 & H3). repeat split; auto.
  rewrite filter_app, H2. cbn. rewrite Hne. now rewrite app_nil_r.
Qed.

Lemma slots_for_others (L : list P) (p : P) (d : dict (slot P)) (F : list P) :
  Forall2 (slot_for page_Id L) d F ->
  Forall (fun p0 => same_Id page_Id p0 p = false) F ->
  Forall2 (slot_for page_Id (L ++ [p])) d F.
Proof.
  induction 1 as [|ks p0 d F Hs _ IH]; intros HF; constructor;
    inversion HF; subst; auto using slot_for_other.
Qed.

Lemma other_keys_other_Ids (L : list P) (p : P) (pid : json)
    (d : dict (slot P)) (F : list P) :
  page_Id p = Ok pid ->
  Forall2 (slot_for page_Id L) d F ->
  Forall (fun kv => key_eqb (fst kv) pid = false) d ->
  Forall (fun p0 => same_Id page_Id p0 p = false) F.
Proof.
  intros Hp. induction 1 as [|ks p0 d F (H1 & _) _ IH]; intros Hd; constructor;
    inversion Hd; subst; auto.
  rewrite (same_Id_key p0 p _ H1), Hp. assumption.
Qed.

Lemma distinct_after (F1 F2 : list P) (p0 : P) :
  distinct page_Id (F1 ++ p0 :: F2) ->
  Forall (fun q => same_Id page_Id p0 q = false) F2.
Proof.
  induction F1 as [|e F1 IH]; cbn; intros [H1 H2]; [exact H1 | auto].
Qed.

Lemma filter_none {A} (f : A -> bool) (l : list A) :
  (forall x, In x l -> f x = false) -> filter f l = [].
Proof.
  induction l as [|a l IH]; cbn; intros H; [reflexivity|].
  rewrite (H a (or_introl eq_refl)). auto.
Qed.

(** One turn of the loop of [Book.load] keeps the mapping as
    [loaded_inv page_Id] describes it. *)
Lemma add_page_inv (d d' : dict (slot P)) (L : list P) (p : P) :
  loaded_inv page_Id d L ->
  add_page page_Id d p = Ok d' ->
  loaded_inv page_Id d' (L ++ [p]).
Proof.
  intros (HF & HK & HP) H. unfold add_page in H.
  destruct (page_Id p) as [pid|] eqn:Hp; [|discriminate]. cbn [bind] in H.
  destruct (hashable pid) eqn:Hh; [|discriminate]. cbn [negb] in H.
  assert (Hkp : keyed page_Id p) by (exists pid; auto).
  destruct (dict_get pid d) as [[page0|gid ps]|] eqn:Hg; [| discriminate |].
  - (* the Id is that of a single page: the slot becomes a group *)
    destruct (page_Id page0) as [gid|] eqn:H0; [|discriminate].
    cbn [bind] in H. injection H as <-.
    apply dict_get_Some in Hg as (d1 & k0 & d2 & -> & Hk0 & Hd1).
    apply Forall2_app_inv_l in HF as (F1 & F' & HF1 & HF2 & HFeq).
    inversion HF2 as [|? p0 ? F2 Hs HF2' E1 E2]; subst F'. clear HF2.
    destruct Hs as (Hp0 & Hpages & _). cbn [fst snd slot_pages] in *.
    assert (Hs0 : same_Id page_Id p0 page0 = true).
    { assert (Hin : In page0 (filter (same_Id page_Id p0) L))
        by (rewrite <- Hpages; now left).
      now apply filter_In in Hin. }
    assert (Hkg : key_eqb k0 gid = true).
    { now rewrite (same_Id_key p0 page0 _ Hp0), H0 in Hs0. }
    assert (Hsp : same_Id page_Id p0 p = true).
    { now rewrite (same_Id_key p0 p _ Hp0), Hp. }
    assert (Hd1' : Forall (fun kv => key_eqb (fst kv) gid = false) d1).
    { rewrite Forall_forall in *. intros kv Hkv.
      destruct (key_eqb (fst kv) gid) eqn:E; [|reflexivity].
      rewrite <- (Hd1 kv Hkv). symmetry.
      apply (key_eqb_trans _ gid); [exact E|].
      apply (key_eqb_trans _ k0); [now rewrite key_eqb_sym | exact Hk0]. }
    rewrite (dict_set_old gid k0 _ _ d1 d2 Hd1' Hkg).
    assert (Hin0 : In p0 L).
    { apply (first_of_Id_incl L). rewrite HFeq. apply in_elt. }
    assert (Hex : existsb (fun q => same_Id page_Id q p) L = true).
    { apply existsb_exists. now exists p0. }
    repeat split.
    + rewrite first_of_Id_snoc, Hex, app_nil_r, HFeq.
      apply Forall2_app.
      * apply slots_for_others; [exact HF1|].
        eapply other_keys_other_Ids; eauto.
      * constructor.
        -- repeat split; cbn [fst snd slot_pages]; auto.
           rewrite filter_app, <- Hpages. cbn. now rewrite Hsp.
        -- apply slots_for_others; [exact HF2'|].
           pose proof (first_of_Id_distinct L) as HD. rewrite HFeq in HD.
           apply distinct_after in HD. rewrite Forall_forall in *.
           intros q Hq. destruct (same_Id page_Id q p) eqn:E; [|reflexivity].
           rewrite <- (HD q Hq). symmetry. eapply same_Id_trans; [exact Hsp|].
           now rewrite same_Id_sym.
    + apply Forall_app. split; [exact HK | now constructor].
    + unfold values in *. rewrite map_app, flat_map_app in *.
      cbn [map flat_map snd slot_pages app] in *.
      rewrite <- Permutation_cons_append.
      etransitivity; [|apply perm_skip, HP].
      etransitivity.
      { apply Permutation_app_head. apply perm_swap. }
      symmetry. apply Permutation_middle.
  - (* a new Id: a new slot at the end *)
    injection H as <-.
    apply dict_get_None in Hg. rewrite (dict_set_new pid _ d Hg).
    pose proof (other_keys_other_Ids L p pid d _ Hp HF Hg) as HFp.
    assert (HLp : forall q, In q L -> same_Id page_Id q p = false).
    { intros q Hq. destruct (same_Id page_Id q p) eqn:E; [|reflexivity].
      rewrite Forall_forall in HK, HFp.
      destruct (first_of_Id_cover L q Hq (HK q Hq)) as (p0 & Hin0 & Hs0).
      rewrite <- (HFp p0 Hin0). symmetry. eapply same_Id_trans; eauto. }
    assert (Hex : existsb (fun q => same_Id page_Id q p) L = false).
    { apply not_true_is_false. intros Hex.
      apply existsb_exists in Hex as (q & Hq & Hs).
      rewrite (HLp q Hq) in Hs. discriminate. }
    repeat split.
    + rewrite first_of_Id_snoc, Hex. apply Forall2_app.
      * now apply slots_for_others.
      * constructor; [|constructor]. repeat split; cbn [fst snd slot_pages]; auto.
        rewrite filter_app. cbn. rewrite (same_Id_refl p Hkp).
        rewrite filter_none; [reflexivity|].
        intros q Hq. rewrite same_Id_sym. now apply HLp.
    + apply Forall_app. split; [exact HK | now constructor].
    + unfold values in *. rewrite map_app, flat_map_app. cbn.
      now apply Permutation_app_tail.
Qed.

(** The whole loop: the pages are made in the order of the document,
    and the mapping that results is as [loaded_inv page_Id] describes. *)
Lemma load_pages_inv (l : list json) :
  forall (d d' : dict (slot P)) (L : list P),
    loaded_inv page_Id d L ->
    load_pages make_page page_Id l d = Ok d' ->
    exists L', make_pages make_page l = Ok L' /\ loaded_inv page_Id d' (L ++ L').
Proof.
  induction l as [|pd l IH]; intros d d' L Hinv H.
  - injection H as <-. exists []. now rewrite app_nil_r.
  - cbn [load_pages] in H.
    apply bind_Ok in H as (p & Hp & H). apply bind_Ok in H as (d1 & Hd1 & H).
    destruct (IH d1 d' (L ++ [p]) (add_page_inv d d1 L p Hinv Hd1) H)
      as (L' & HL' & Hinv').
    exists (p :: L'). cbn [make_pages]. rewrite Hp. cbn [bind].
    fold (make_pages make_page l). rewrite HL'. cbn [bind].
    split; [reflexivity|]. now rewrite <- app_assoc in Hinv'.
Qed.
End LoadOrder.

(* ================================================================== *)
(** ** The entries a roll resolves *)

Lemma Table_init_pages (book : json) (t : table) :
  Table_init book = Ok t ->
  exists pv, getitem book "Pages" = Ok pv
             /\ Book_pages (TableEntry_init Table_init) entry_Id pv = Ok (pages t).
Proof.
  rewrite Table_init_eq. intros H.
  apply bind_Ok in H as ([[b ti] ty] & _ & H).
  apply bind_Ok in H as (pg & Hpg & H).
  apply bind_Ok in H as (die & _ & H). injection H as <-.
  apply bind_Ok in Hpg as (pv & Hpv & Hpg). now exists pv.
Qed.

(** The mapping of a loaded table, from its entries in load order. *)
Lemma Table_init_loaded (book : json) (t : table) :
  Table_init book = Ok t ->
  exists loaded, loaded_entries book = Ok loaded
                 /\ loaded_inv entry_Id (pages t) loaded.
Proof.
  intros H. apply Table_init_pages in H as (pv & Hpv & Hpg).
  unfold loaded_entries. rewrite Hpv. cbn [bind].
  destruct pv as [| | |s|l|o]; cbn [Book_pages] in Hpg; try discriminate.
  - destruct (String.eqb s ""); [|discriminate]. injection Hpg as <-.
    exists []. split; [reflexivity | apply loaded_inv_nil].
  - destruct (load_pages_inv (TableEntry_init Table_init) entry_Id l
                [] (pages t) [] (loaded_inv_nil entry_Id) Hpg) as (L & HL & Hinv).
    now exists L.
  - destruct o; [|discriminate]. injection Hpg as <-.
    exists []. split; [reflexivity | apply loaded_inv_nil].
Qed.

Lemma filter_const {A} (f : A -> bool) (b : bool) (l : list A) :
  (forall x, In x l -> f x = b) -> filter f l = if b then l else [].
Proof.
  induction l as [|a l IH]; cbn; intros H; [now destruct b|].
  rewrite (H a (or_introl eq_refl)), IH by auto. now destruct b.
Qed.

(** The pages of a slot match as the slot does. *)
Lemma slot_matches (L : list entry) (ks : json * slot entry) (p0 : entry)
    (rid : json) (rg : range) :
  slot_for entry_Id L ks p0 ->
  slot_id_as_range (snd ks) = Ok rg ->
  filter (entry_matches rid) (slot_pages (snd ks)) =
    if range_contains rid rg then slot_pages (snd ks) else [].
Proof.
  destruct ks as [k s]. cbn [fst snd]. intros (Hp0 & Hpages & Hgid) Hrg.
  apply filter_const. intros p Hp. unfold entry_matches.
  destruct s as [q|gid ps]; cbn [slot_pages slot_id_as_range snd] in *.
  - destruct Hp as [<-|[]]. now rewrite Hrg.
  - rewrite Hpages in Hp. apply filter_In in Hp as [_ Hs].
    rewrite (same_Id_key entry_Id p0 p _ Hp0) in Hs.
    destruct (entry_Id p) as [i|]; [|discriminate]. cbn [bind].
    rewrite <- (key_eqb_id_as_range k i Hs), (key_eqb_id_as_range k gid Hgid).
    now rewrite Hrg.
Qed.

Lemma find_filter (L : list entry) (rid : json) (d : dict (slot entry)) (F : list entry) :
  Forall2 (slot_for entry_Id L) d F ->
  forall es, find_with (fun e => e) rid d = Ok es ->
             es = filter (entry_matches rid) (flat_map slot_pages (values d)).
Proof.
  induction 1 as [|ks p0 d F Hs _ IH]; intros es H; rewrite find_slot_pages in H.
  - now injection H as <-.
  - destruct ks as [k s].
    apply bind_Ok in H as (rg & Hrg & H). apply bind_Ok in H as (rest & Hrest & H).
    injection H as <-. unfold values. cbn [map flat_map snd].
    rewrite filter_app. fold (values d). rewrite <- (IH rest Hrest).
    pose proof (slot_matches L (k, s) p0 rid rg Hs Hrg) as Hm.
    cbn [snd] in Hm. now rewrite Hm.
Qed.

Lemma find_total (L : list entry) (rid : json) (d : dict (slot entry)) (F : list entry) :
  Forall2 (slot_for entry_Id L) d F ->
  (forall p0, In p0 F -> exists rg, (id <- entry_Id p0 ;; id_as_range id) = Ok rg) ->
  exists es, find_with (fun e => e) rid d = Ok es.
Proof.
  induction 1 as [|ks p0 d F Hs _ IH]; intros HF.
  - now exists [].
  - destruct IH as (rest & Hrest); [intros q Hq; apply HF; now right|].
    destruct (HF p0 (or_introl eq_refl)) as (rg & Hrg).
    destruct ks as [k s]. destruct Hs as (Hp0 & Hpages & Hgid). cbn [fst snd] in *.
    rewrite Hp0 in Hrg. cbn [bind] in Hrg.
    assert (Hsr : slot_id_as_range s = Ok rg).
    { destruct s as [q|gid ps]; cbn [slot_id_as_range slot_pages] in *.
      - assert (Hin : In q (filter (same_Id entry_Id p0) L))
          by (rewrite <- Hpages; now left).
        apply filter_In in Hin as [_ Hq].
        rewrite (same_Id_key entry_Id p0 q _ Hp0) in Hq.
        destruct (entry_Id q) as [i|]; [|discriminate]. cbn [bind].
        now rewrite <- (key_eqb_id_as_range k i Hq).
      - now rewrite <- (key_eqb_id_as_range k gid Hgid). }
    rewrite find_slot_pages, Hsr, Hrest. cbn [bind]. eauto.
Qed.

Section Resolved.
Context {R : Type}.
Variable roll_dice : json -> R -> result (Z * R).
Variable repr : json -> string.

(** What a roll resolves.  For a loaded table, the entries [find]
    returns for a rolled id are exactly the loaded entries whose own
    [id_as_range] contains that id, all of them, groups expanded, and
    a roll processes them in the order of the book: the slots of the
    mapping in the order they were first loaded, each group expanded
    in place.  [find] returns as soon as the [Id] of every loaded entry
    parses. *)
Theorem roll_resolves_matching_entries (book : json) (t : table) :
  Table_init book = Ok t ->
  exists loaded : list entry,
    loaded_entries book = Ok loaded
    /\ all_entries t = mapping_order entry_Id loaded
    /\ Permutation (mapping_order entry_Id loaded) loaded
    /\ (forall (rid : json) (es : list entry),
           Table_find t rid = Ok es ->
           es = filter (entry_matches rid) (mapping_order entry_Id loaded)
           /\ Permutation es (filter (entry_matches rid) loaded))
    /\ (forall (r r1 : R) (rolled : Z) (es : list entry),
           roll_dice (Die t) r = Ok (rolled, r1) ->
           Table_find t (rolled_id t rolled) = Ok es ->
           Table_roll roll_dice repr t r =
             roll_entries roll_dice (Table_roll roll_dice repr)
               (filter (entry_matches (rolled_id t rolled))
                       (mapping_order entry_Id loaded))
               "" [headline repr t (rolled_id t rolled)] r1)
    /\ (forall (s : string) (es : list entry),
           Table_find t (JStr s) = Ok es -> es = [])
    /\ ((forall e, In e loaded ->
                   exists rg, (id <- entry_Id e ;; id_as_range id) = Ok rg) ->
        forall rid : json, exists es, Table_find t rid = Ok es).
Proof.
  intros H. destruct (Table_init_loaded book t H) as (loaded & Hl & Hinv).
  pose proof (loaded_inv_order entry_Id _ _ Hinv) as Ho.
  destruct Hinv as (HF & HK & HP).
  assert (Hfind : forall rid es, Table_find t rid = Ok es ->
             es = filter (entry_matches rid) (mapping_order entry_Id loaded)).
  { intros rid es Hf. rewrite <- Ho. eapply find_filter; eauto. }
  exists loaded.
  refine (conj Hl (conj Ho (conj _ (conj _ (conj _ (conj _ _)))))).
  - now rewrite <- Ho.
  - intros rid es Hf. split; [now apply Hfind|].
    rewrite (Hfind rid es Hf). apply Permutation_filter. now rewrite <- Ho.
  - intros r r1 rolled es Hd Hf. rewrite Table_roll_eq, Hd. cbv zeta.
    rewrite Hf. now rewrite (Hfind _ _ Hf).
  - intros s es Hf. rewrite (Hfind _ _ Hf). apply filter_none.
    intros e _. unfold entry_matches.
    now destruct (id <- entry_Id e ;; id_as_range id).
  - intros Hparse rid. eapply find_total; eauto.
    intros p0 Hp0. apply Hparse. now apply (first_of_Id_incl entry_Id loaded).
Qed.
End Resolved.

(** No string is in a range. *)
Lemma find_text (s : string) (d : dict (slot entry)) (es : list entry) :
  find_with (fun e => e) (JStr s) d = Ok es -> es = [].
Proof.
  revert es. induction d as [|[k sl] d IH]; intros es H; rewrite find_slot_pages in H.
  - now injection H as <-.
  - apply bind_Ok in H as (rg & _ & H). apply bind_Ok in H as (rest & Hrest & H).
    injection H as <-. cbn [range_contains app]. now apply IH.
Qed.

(** C1, on the code.  [Table.find] tests [rid in entry.id_as_range],
    and a string is in no range of integers.  So when [forced_roll] is
    a non-empty string, a roll resolves no entry, whatever the ranges
    of the entries are: every roll that returns has the empty result
    and the headline as its explanation, and the roll returns so as
    soon as the dice and [find] return.  The table forced to ["1"]
    whose one entry has the [Id] ["1"], a range that contains 1,
    resolves nothing; the same entry is found for the integer 1. *)
Theorem forced_text_resolves_no_entry :
  (forall (R : Type) (roll_dice : json -> R -> result (Z * R)) (repr : json -> string)
          (t : table) (s : string) (r : R),
      forced_roll t = Some (JStr s) -> s <> "" ->
      (forall (res : string) (expl : list string) (r' : R),
          Table_roll roll_dice repr t r = Ok (res, expl, r') ->
          Table_find t (JStr s) = Ok []
          /\ res = "" /\ expl = [headline repr t (JStr s)])
      /\ (forall (rolled : Z) (r1 : R) (es : list entry),
             roll_dice (Die t) r = Ok (rolled, r1) ->
             Table_find t (JStr s) = Ok es ->
             Table_roll roll_dice repr t r
             = Ok ("", [headline repr t (JStr s)], r1)))
  /\ Table_init Cases.forced_text_doc = Ok Cases.forced_text
  /\ all_entries Cases.forced_text = [Cases.one_entry_x]
  /\ (entry_Id Cases.one_entry_x = Ok (JStr "1")
      /\ id_as_range (JStr "1") = Ok (Range 1 2)
      /\ range_contains (JInt 1) (Range 1 2) = true)
  /\ Table_find Cases.forced_text (JInt 1) = Ok [Cases.one_entry_x]
  /\ Table_find Cases.forced_text (JStr "1") = Ok []
  /\ Demo.roll Cases.forced_text [0] = Ok ("", ["1d1 -> **1**"], []).
Proof.
  split; [|repeat split; reflexivity].
  intros R roll_dice repr t s r Hf Hs.
  assert (Hid : forall rolled, rolled_id t rolled = JStr s).
  { intros rolled. unfold rolled_id. rewrite Hf. cbn.
    destruct s; [congruence | reflexivity]. }
  split.
  - intros res expl r' H. rewrite Table_roll_eq in H.
    destruct (roll_dice (Die t) r) as [[rolled r1]|]; [|discriminate].
    cbv zeta in H. rewrite Hid in H.
    destruct (Table_find t (JStr s)) as [es|] eqn:E; [|discriminate].
    pose proof (find_text s (pages t) es E) as ->.
    unfold roll_entries in H. cbn in H. unfold ret in H.
    injection H as <- <- _. auto.
  - intros rolled r1 es Hd E. rewrite Table_roll_eq, Hd. cbv zeta.
    rewrite Hid, E. now rewrite (find_text s (pages t) es E).
Qed.

(* ================================================================== *)
(** ** Ids written in decimal *)

Lemma digits_val_numeral (d : Decimal.uint) :
  forall acc : Z,
    digits_val acc true (list_ascii_of_string (NilEmpty.string_of_uint d))
    = Some (uint_val d acc).
Proof.
  induction d; intros acc; cbn [NilEmpty.string_of_uint list_ascii_of_string
                                digits_val uint_val]; try reflexivity;
    (replace (is_digit _) with true by reflexivity); rewrite IHd;
    do 2 f_equal;
    match goal with |- context [digit_val ?c] =>
      let v := eval vm_compute in (digit_val c) in
      change (digit_val c) with v
    end; lia.
Qed.

Lemma uint_val_of_uint_acc (d : Decimal.uint) :
  forall acc : positive, Z.pos (Pos.of_uint_acc d acc) = uint_val d (Z.pos acc).
Proof.
  induction d; intros acc; cbn [Pos.of_uint_acc uint_val]; try reflexivity;
    rewrite IHd; f_equal; lia.
Qed.

Lemma uint_val_of_uint (d : Decimal.uint) : Z.of_N (Pos.of_uint d) = uint_val d 0.
Proof.
  induction d; cbn [Pos.of_uint uint_val]; try reflexivity; try exact IHd;
    cbn [Z.of_N]; now rewrite uint_val_of_uint_acc.
Qed.

Lemma all_digits_numeral (d : Decimal.uint) :
  all_digits (NilEmpty.string_of_uint d) = true.
Proof.
  induction d; cbn [NilEmpty.string_of_uint all_digits]; try reflexivity;
    now rewrite IHd.
Qed.

(** [str] of a natural number: digits, at least one, that denote it. *)
Lemma str_of_Z_numeral (n : Z) :
  0 <= n ->
  exists (d : Decimal.uint),
    str_of_Z n = NilEmpty.string_of_uint d /\ d <> Decimal.Nil /\ uint_val d 0 = n.
Proof.
  intros Hn. destruct n as [|p|p]; [| |lia].
  - exists (Decimal.D0 Decimal.Nil). repeat split. discriminate.
  - exists (Pos.to_uint p). unfold str_of_Z. cbn [Z.to_int NilEmpty.string_of_int].
    pose proof (DecimalPos.Unsigned.of_to p) as Hp.
    repeat split.
    + intros E. rewrite E in Hp. discriminate.
    + now rewrite <- uint_val_of_uint, Hp.
Qed.

Lemma lstrip_digits (cs : list ascii) :
  match cs with c :: _ => is_digit c = true | [] => True end -> lstrip cs = cs.
Proof.
  destruct cs as [|c cs]; [reflexivity|]. intros Hc. cbn [lstrip].
  replace (is_space c) with false; [reflexivity|].
  unfold is_digit, is_space in *. apply andb_true_iff in Hc as [H1 H2].
  apply Nat.leb_le in H1, H2. symmetry. apply orb_false_iff. split.
  - apply andb_false_iff. right. apply Nat.leb_gt. lia.
  - apply andb_false_iff. right. apply Nat.leb_gt. lia.
Qed.

Lemma all_digits_Forall (s : string) :
  all_digits s = true -> Forall (fun c => is_digit c = true) (list_ascii_of_string s).
Proof.
  induction s as [|c s IH]; cbn; intros H; constructor;
    apply andb_true_iff in H as [H1 H2]; auto.
Qed.

Lemma strip_digits (s : string) :
  all_digits s = true -> strip (list_ascii_of_string s) = list_ascii_of_string s.
Proof.
  intros H. apply all_digits_Forall in H. unfold strip.
  assert (Hhd : forall cs, Forall (fun c => is_digit c = true) cs ->
                           match cs with c :: _ => is_digit c = true | [] => True end).
  { intros cs Hcs. destruct Hcs; auto. }
  rewrite (lstrip_digits _ (Hhd _ H)).
  rewrite (lstrip_digits (rev _)); [apply rev_involutive|].
  apply Hhd, Forall_rev, H.
Qed.

Lemma digits_val_start (d : Decimal.uint) :
  d <> Decimal.Nil ->
  forall acc : Z,
    digits_val acc false (list_ascii_of_string (NilEmpty.string_of_uint d))
    = Some (uint_val d acc).
Proof.
  intros Hd acc.
  destruct d; try congruence;
    cbn [NilEmpty.string_of_uint list_ascii_of_string digits_val uint_val];
    (replace (is_digit _) with true by reflexivity);
    rewrite digits_val_numeral; do 2 f_equal;
    match goal with |- context [digit_val ?c] =>
      let v := eval vm_compute in (digit_val c) in
      change (digit_val c) with v
    end; lia.
Qed.

(** [int(str(n)) == n] *)
Lemma int_str_of_Z (n : Z) : 0 <= n -> int (str_of_Z n) = Ok n.
Proof.
  intros Hn. destruct (str_of_Z_numeral n Hn) as (d & -> & Hd & Hv).
  unfold int, parse_int. rewrite (strip_digits _ (all_digits_numeral d)).
  pose proof (digits_val_start d Hd 0) as Hs. rewrite Hv in Hs.
  destruct d; try congruence;
    cbn [NilEmpty.string_of_uint list_ascii_of_string] in *;
    (replace (Ascii.eqb _ "-") with false by reflexivity);
    (replace (Ascii.eqb _ "+") with false by reflexivity);
    now rewrite Hs.
Qed.

Lemma split_from_plain (sep : ascii) (s : string) :
  occurs sep s = false -> forall cur, split_from sep cur s = [cur +++ s].
Proof.
  induction s as [|c s IH]; cbn [occurs split_from]; intros H cur.
  - now rewrite append_empty_r.
  - apply orb_false_iff in H as [H1 H2]. rewrite H1, (IH H2).
    now rewrite append_assoc.
Qed.

Lemma split_from_sep (sep : ascii) (s1 s2 : string) :
  occurs sep s1 = false ->
  forall cur, split_from sep cur (s1 +++ String sep s2)
              = (cur +++ s1) :: split_from sep "" s2.
Proof.
  induction s1 as [|c s IH]; cbn [occurs split_from String.append]; intros H cur.
  - now rewrite Ascii.eqb_refl, append_empty_r.
  - apply orb_false_iff in H as [H1 H2]. rewrite H1, (IH H2).
    now rewrite append_assoc.
Qed.

Lemma digits_no_dash (s : string) : all_digits s = true -> occurs "-" s = false.
Proof.
  induction s as [|c s IH]; cbn; [reflexivity|]. intros H.
  apply andb_true_iff in H as [H1 H2]. rewrite (IH H2), orb_false_r.
  apply Ascii.eqb_neq. intros ->. discriminate.
Qed.

Lemma str_of_Z_digits (n : Z) : 0 <= n -> all_digits (str_of_Z n) = true.
Proof.
  intros Hn. destruct (str_of_Z_numeral n Hn) as (d & -> & _).
  apply all_digits_numeral.
Qed.

(** The range of an [Id] written ["N"]. *)
Lemma id_as_range_single (n : Z) :
  0 <= n -> id_as_range (JStr (str_of_Z n)) = Ok (Range n (n + 1)).
Proof.
  intros Hn. unfold id_as_range, split.
  rewrite (split_from_plain "-" _ (digits_no_dash _ (str_of_Z_digits n Hn))).
  cbn [List.length Nat.eqb]. now rewrite (int_str_of_Z n Hn).
Qed.

(** The range of an [Id] written ["A-B"], whatever the order of [A]
    and [B]. *)
Lemma id_as_range_pair (a b : Z) :
  0 <= a -> 0 <= b ->
  id_as_range (JStr (str_of_Z a +++ "-" +++ str_of_Z b)) = Ok (Range a (b + 1)).
Proof.
  intros Ha Hb. unfold id_as_range, split.
  change ("-" +++ str_of_Z b) with (String "-" (str_of_Z b)).
  rewrite (split_from_sep "-" _ _ (digits_no_dash _ (str_of_Z_digits a Ha))).
  rewrite (split_from_plain "-" _ (digits_no_dash _ (str_of_Z_digits b Hb))).
  cbn [List.length Nat.eqb list_item nth_error bind String.append].
  now rewrite (int_str_of_Z a Ha), (int_str_of_Z b Hb).
Qed.

(* ================================================================== *)
(** ** Groups of pages *)

Section Groups.
Context {P : Type}.
Variable page_Id : P -> result json.

(** A page whose [Id] is already that of a group cannot be added. *)
Lemma add_page_to_group (pages : dict (slot P)) (page : P)
    (pid gid : json) (ps : list P) :
  page_Id page = Ok pid ->
  hashable pid = true ->
  dict_get pid pages = Some (Group gid ps) ->
  add_page page_Id pages page = Raise AttributeError.
Proof.
  intros Hp Hh Hg. unfold add_page. rewrite Hp. cbn [bind].
  rewrite Hh. cbn [negb]. now rewrite Hg.
Qed.

(** A page without [Id] cannot be added. *)
Lemma add_page_without_Id (pages : dict (slot P)) (page : P) (e : exn) :
  page_Id page = Raise e -> add_page page_Id pages page = Raise e.
Proof.
  intros Hp. unfold add_page. now rewrite Hp.
Qed.
End Groups.

(** C4, on the code.  Two pages with one [Id] load as one group with
    both pages in order; a third page with that [Id] makes [Book.load]
    call [page0.add(page)] on the group, which has no such method: the
    load raises [AttributeError], for a plain book and for a table. *)
Theorem third_page_of_an_Id_raises :
  Book_pages Page_init page_Id Cases.two_pages =
    Ok [(JStr "7",
         Group (JStr "7")
               [[("Id", JStr "7"); ("Details", JStr "a")];
                [("Id", JStr "7"); ("Details", JStr "b")]])]
  /\ Book_pages Page_init page_Id Cases.three_pages = Raise AttributeError
  /\ Table_init
       (Demo.table_doc [("Die", JStr "1d8")]
          [Demo.page "7" "a"; Demo.page "7" "b"; Demo.page "7" "c"])
     = Raise AttributeError.
Proof. repeat split; reflexivity. Qed.

(* ================================================================== *)
(** ** The [Id] of a page *)

Lemma attr_set_fresh (k : string) (v : json) (d : attrs) :
  ~ In k (map fst d) -> attr_set k v d = d ++ [(k, v)].
Proof.
  unfold attr_set. induction d as [|[k' v'] d IH]; cbn; intros H; [reflexivity|].
  destruct (String.eqb k' k) eqn:E.
  - apply String.eqb_eq in E. tauto.
  - rewrite IH; [reflexivity | tauto].
Qed.

Lemma hasattr_fresh (k : string) (d : attrs) :
  ~ In k (map fst d) -> hasattr d k = false.
Proof.
  unfold hasattr, assoc_mem. induction d as [|[k' v'] d IH]; cbn; intros H; [reflexivity|].
  destruct (String.eqb k' k) eqn:E.
  - apply String.eqb_eq in E. tauto.
  - apply IH. tauto.
Qed.

Lemma Page_add_all_fresh (items : list (string * json)) :
  forall d : attrs,
    NoDup (map fst (d ++ items)) ->
    ~ In "add" (map fst (d ++ items)) ->
    Page_add_all items d = Ok (d ++ items).
Proof.
  induction items as [|[k v] items IH]; intros d Hnd Hadd; cbn [Page_add_all].
  - now rewrite app_nil_r.
  - rewrite hasattr_fresh
      by (intros Hin; apply Hadd; rewrite map_app; apply in_or_app; now left).
    fold Page_add_all. rewrite attr_set_fresh.
    + replace (d ++ (k, v) :: items) with ((d ++ [(k, v)]) ++ items) in *
        by (now rewrite <- app_assoc).
      now apply IH.
    + rewrite map_app in Hnd. cbn in Hnd. apply NoDup_remove_2 in Hnd.
      intros Hin. apply Hnd, in_or_app. now left.
Qed.

(* ================================================================== *)
(** ** Loading the library *)

Lemma add_books_app (pre post : list file) :
  forall books : dict book,
    add_books (pre ++ post) books = (b <- add_books pre books ;; add_books post b).
Proof.
  induction pre as [|f pre IH]; intros books; cbn [add_books app]; [reflexivity|].
  destruct (add_book books f) as [b|e]; cbn [bind]; [apply IH | reflexivity].
Qed.

Lemma Library_load_concat (library_paths : list (list file)) :
  Library_load library_paths = add_books (List.concat library_paths) [].
Proof.
  unfold Library_load. generalize (@nil (json * book)).
  induction library_paths as [|files paths IH]; intros books; [reflexivity|].
  cbn [List.concat]. rewrite add_books_app.
  destruct (add_books files books) as [b|e]; cbn [bind]; [apply IH | reflexivity].
Qed.

(** A table document without [Die] does not load. *)
Lemma table_without_Die (books : dict book) (f : file) (doc bid title : json) :
  book_record f = Ok doc ->
  Book_header doc = Ok (bid, title, TABLE) ->
  getitem doc "Die" = Raise KeyError ->
  exists e, add_book books f = Raise e.
Proof.
  intros Hrec Hhdr Hdie. unfold add_book, Book_init. rewrite Hrec. cbn [bind].
  rewrite Hhdr. cbn [bind]. rewrite Table_init_eq, Hhdr. cbn [bind].
  destruct (pv <- getitem doc "Pages" ;; _) as [pg|e]; cbn [bind].
  - rewrite Hdie. cbn [bind]. eauto.
  - eauto.
Qed.

(** C3, as the code has it.  [Library.load] catches nothing: when a
    file fails to parse or to load, after the files before it have been
    added, the load ends with the exception of that file; the files
    after it are not read and no library results. *)
Theorem load_stops_at_first_failure
    (library_paths : list (list file)) (pre post : list file) (f : file)
    (books : dict book) (e : exn) :
  List.concat library_paths = pre ++ f :: post ->
  add_books pre [] = Ok books ->
  add_book books f = Raise e ->
  Library_load library_paths = Raise e.
Proof.
  intros Hfiles Hpre Hf.
  rewrite Library_load_concat, Hfiles, add_books_app, Hpre. cbn [bind add_books].
  now rewrite Hf.
Qed.

(* ================================================================== *)
(** ** The properties on concrete documents *)

(** C2 as stated fails when the sub-result is empty: under ["replace"]
    the entry keeps its own text and the sub-explanation is not
    appended. *)
Lemma empty_sub_result_counterexample :
  exists (e : entry) (sub : table),
    Table_init Cases.dispatch_doc = Ok Cases.dispatch
    /\ Table_find Cases.dispatch (JInt 1) = Ok [e]
    /\ Table e = Some sub
    /\ rop sub = JStr "replace"
    /\ Demo.result e [] = Ok ("parent", [])
    /\ Demo.roll sub [] = Ok ("", ["1d1 -> **1**"], [])
    /\ Demo.roll Cases.dispatch [] = Ok (nl +++ "parent", ["1d1 -> **1**"], [])
    /\ Demo.roll Cases.dispatch []
       <> Ok (nl +++ "", ["1d1 -> **1**"] ++ ["1d1 -> **1**"], []).
Proof.
  eexists. eexists.
  refine (conj _ (conj _ (conj _ (conj _ (conj _ (conj _ (conj _ _))))))); 
    try reflexivity.
  vm_compute. discriminate.
Qed.

Lemma sub_table_merge_witness :
  exists (cresult : string) (expl' : list string),
    roll_entries Demo.roll_dice (Table_roll Demo.roll_dice Demo.repr)
                 [Cases.chest] "" ["1d1 -> **1**"] [] =
      roll_entries Demo.roll_dice (Table_roll Demo.roll_dice Demo.repr)
                   [] (("" +++ nl) +++ cresult) expl' []
    /\ (nl +++ "gold" <> "" ->
        expl' = ["1d1 -> **1**"] ++ ["1d1 -> **1**"]
        /\ (rop Cases.gold = JStr "replace" -> cresult = nl +++ "gold")
        /\ (rop Cases.gold = JStr "append" ->
            cresult = ("a chest" +++ nl) +++ nl +++ "gold")
        /\ (rop Cases.gold = JStr "concat" -> cresult = "a chest" +++ nl +++ "gold")
        /\ (str_eqb (rop Cases.gold) "replace" = false ->
            str_eqb (rop Cases.gold) "append" = false ->
            str_eqb (rop Cases.gold) "concat" = false -> cresult = "a chest"))
    /\ (nl +++ "gold" = "" -> cresult = "a chest" /\ expl' = ["1d1 -> **1**"]).
Proof.
  exact (sub_table_merge Demo.roll_dice Demo.repr Cases.chest Cases.gold []
           "" ["1d1 -> **1**"] [] [] [] "a chest" (nl +++ "gold") ["1d1 -> **1**"]
           eq_refl eq_refl eq_refl).
Defined.

(** C3 as stated fails: a directory with a well-formed table and a
    table without [Die] gives no library at all. *)
Lemma malformed_document_counterexample :
  Library_load [[Cases.good_file; Cases.bad_file]] = Raise KeyError
  /\ Library_load [[Cases.bad_file; Cases.good_file]] = Raise KeyError
  /\ ~ (exists books : dict book,
           Library_load [[Cases.good_file; Cases.bad_file]] = Ok books
           /\ List.length books = 1%nat).
Proof.
  refine (conj _ (conj _ _)); try reflexivity.
  intros (books & H & _). vm_compute in H. discriminate.
Qed.

Lemma load_stops_at_first_failure_witness :
  Library_load [[Cases.good_file]; [Cases.bad_file; Cases.good_file]] = Raise KeyError.
Proof.
  refine (load_stops_at_first_failure
            [[Cases.good_file]; [Cases.bad_file; Cases.good_file]]
            [Cases.good_file] [Cases.good_file] Cases.bad_file
            _ KeyError eq_refl eq_refl eq_refl).
Defined.

Lemma plural_substitution_order_witness :
  TableEntry_result Demo.roll_dice (Cases.witches (JStr "1d6")) [2]
  = Ok ("3 bruixes", []).
Proof.
  exact (proj1 (plural_substitution_order Demo.roll_dice)
           (Cases.witches (JStr "1d6")) "#a bruix$(es)" (JStr "1d6") 3 [2] []
           eq_refl eq_refl eq_refl eq_refl eq_refl).
Defined.

(** C6 as stated fails: the singular word is ["un"], not ["one"]. *)
Lemma singular_word_counterexample :
  Demo.roll_dice (JStr "1d1") [] = Ok (1, [])
  /\ Demo.result Cases.goblin [] = Ok ("una goblinun", [])
  /\ Demo.result Cases.goblin []
     <> Ok (strip_markers (replace "#" "one" "#a goblin#"), []).
Proof.
  refine (conj _ (conj _ _)); try reflexivity.
  vm_compute. discriminate.
Qed.

Lemma singular_substitution_witness :
  TableEntry_result Demo.roll_dice Cases.goblin [] = Ok ("una goblinun", []).
Proof.
  exact (singular_substitution Demo.roll_dice Cases.goblin "#a goblin#"
           (JStr "1d1") [] [] eq_refl eq_refl eq_refl eq_refl).
Defined.

(** C7 as stated fails: on a table with a forced roll whose entry rolls
    a [Number], a call and the next one return different results. *)
Lemma forced_roll_counterexample :
  Table_init Cases.forced_orcs_doc = Ok Cases.forced_orcs
  /\ forced_roll Cases.forced_orcs = Some (JInt 1)
  /\ Demo.roll Cases.forced_orcs [0; 2; 0; 0]
     = Ok (nl +++ "3 orcs", ["1d4 -> **1**"], [0; 0])
  /\ Demo.roll Cases.forced_orcs [0; 0]
     = Ok (nl +++ "un orc", ["1d4 -> **1**"], [])
  /\ (nl +++ "3 orcs", ["1d4 -> **1**"]) <> (nl +++ "un orc", ["1d4 -> **1**"]).
Proof.
  refine (conj _ (conj _ (conj _ (conj _ _)))); try reflexivity.
  discriminate.
Qed.

Lemma forced_roll_replay_witness :
  (forall (r r' : Demo.tape) (res : string) (expl : list string),
      Table_roll Demo.roll_dice Demo.repr Cases.forced_chain r = Ok (res, expl, r') ->
      exists (entries : list entry) (r1 : Demo.tape) (more : list string),
        Table_find Cases.forced_chain (JInt 2) = Ok entries
        /\ roll_entries Demo.roll_dice (Table_roll Demo.roll_dice Demo.repr) entries ""
             [headline Demo.repr Cases.forced_chain (JInt 2)] r1 = Ok (res, expl, r')
        /\ expl = "1d4 -> **2**" :: more)
  /\ (replayable Cases.forced_chain = true ->
      forall (r1 r2 r1' r2' : Demo.tape) (x1 x2 : string * list string),
        Table_roll Demo.roll_dice Demo.repr Cases.forced_chain r1 = Ok (x1, r1') ->
        Table_roll Demo.roll_dice Demo.repr Cases.forced_chain r2 = Ok (x2, r2') ->
        x1 = x2).
Proof.
  exact (forced_roll_replay Demo.roll_dice Demo.repr Cases.forced_chain (JInt 2)
           eq_refl eq_refl).
Defined.

(** C8 as stated fails: the result of a roll with one matching entry is
    not its text alone, a newline comes first. *)
Lemma leading_newline_counterexample :
  Table_init Cases.one_entry_doc = Ok Cases.one_entry
  /\ Table_find Cases.one_entry (JInt 1)
     = Ok [TableEntry [("Id", JStr "1"); ("Details", JStr "x")] None]
  /\ Demo.result (TableEntry [("Id", JStr "1"); ("Details", JStr "x")] None) []
     = Ok ("x", [])
  /\ Demo.roll Cases.one_entry [] = Ok (nl +++ "x", ["1d1 -> **1**"], [])
  /\ Demo.roll Cases.one_entry [] <> Ok (joined_by_newline ["x"], ["1d1 -> **1**"], []).
Proof.
  refine (conj _ (conj _ (conj _ (conj _ _)))); try reflexivity.
  vm_compute. discriminate.
Qed.

Lemma roll_result_texts_witness :
  exists (rolled : Z) (r1 : Demo.tape) (entries : list entry) (texts : list string),
    Demo.roll_dice (Die Cases.forced_chain) [3] = Ok (rolled, r1)
    /\ Table_find Cases.forced_chain (rolled_id Cases.forced_chain rolled) = Ok entries
    /\ collect_steps
         (map (entry_step Demo.roll_dice (Table_roll Demo.roll_dice Demo.repr)) entries)
         [headline Demo.repr Cases.forced_chain (rolled_id Cases.forced_chain rolled)] r1
       = Ok (texts, ["1d4 -> **2**"; "1d6 -> **6**"], [])
    /\ List.length texts = List.length entries
    /\ nl +++ "a chest" +++ nl +++ nl +++ "gold" = newline_before_each texts.
Proof.
  exact (proj1 (roll_result_texts Demo.roll_dice Demo.repr Cases.forced_chain [3])
           (nl +++ "a chest" +++ nl +++ nl +++ "gold")
           ["1d4 -> **2**"; "1d6 -> **6**"] [] eq_refl).
Defined.

(** C9 as stated fails: pages whose [Id] is malformed or a reverse
    range are constructed and loaded. *)
Lemma unparsable_Id_counterexample :
  Page_init (Demo.page "abc" "x") = Ok [("Id", JStr "abc"); ("Details", JStr "x")]
  /\ id_as_range (JStr "abc") = Raise ValueError
  /\ Page_init (Demo.page "7-5" "y") = Ok [("Id", JStr "7-5"); ("Details", JStr "y")]
  /\ id_as_range (JStr "7-5") = Ok (Range 7 6)
  /\ (exists t : table,
         Table_init (Demo.table_doc [("Die", JStr "1d8")]
                       [Demo.page "abc" "x"; Demo.page "7-5" "y"]) = Ok t
         /\ all_entries t
            = [TableEntry [("Id", JStr "abc"); ("Details", JStr "x")] None;
               TableEntry [("Id", JStr "7-5"); ("Details", JStr "y")] None]).
Proof.
  refine (conj _ (conj _ (conj _ (conj _ _)))); try reflexivity.
  eexists. split; reflexivity.
Qed.

Lemma falsy_Number_is_absent_Number_witness :
  TableEntry_result Demo.roll_dice (Cases.witches (JStr "")) [5] =
    TableEntry_result (fun _ _ => Raise DiceError) (Cases.witches (JStr "")) [5]
  /\ TableEntry_result Demo.roll_dice (Cases.witches (JStr "")) [5] =
       TableEntry_result Demo.roll_dice (without_Number (Cases.witches (JStr ""))) [5]
  /\ (forall d : string,
         getattr (fields (Cases.witches (JStr ""))) "Details" = Ok (JStr d) ->
         TableEntry_result Demo.roll_dice (Cases.witches (JStr "")) [5]
         = Ok (strip_markers d, [5])
         /\ occurs "#" (strip_markers d) = false
         /\ occurs "$" (strip_markers d) = false).
Proof.
  exact (falsy_Number_is_absent_Number Demo.roll_dice (Cases.witches (JStr ""))
           (JStr "") [5] eq_refl eq_refl).
Defined.

(* ================================================================== *)
(** ** Looking a page up in a loaded book *)

Section SearchLoaded.
Context {P : Type}.
Variable make_page : json -> result P.
Variable page_Id : P -> result json.

Lemma same_Id_filter (L : list P) (p0 p : P) :
  same_Id page_Id p0 p = true ->
  filter (same_Id page_Id p0) L = filter (same_Id page_Id p) L.
Proof.
  intros Hs. apply filter_ext. intros q.
  destruct (same_Id page_Id p q) eqn:E.
  - eapply same_Id_trans; eauto.
  - destruct (same_Id page_Id p0 q) eqn:E0; [|reflexivity].
    rewrite <- E. symmetry. eapply same_Id_trans; [|exact E0].
    now rewrite same_Id_sym.
Qed.

(** The slot that a key equal to the [Id] of [p] selects. *)
Lemma slot_of_Id (L : list P) (p : P) (i : json) (d : dict (slot P)) (F : list P) :
  page_Id p = Ok i ->
  Forall2 (slot_for page_Id L) d F ->
  distinct page_Id F ->
  forall p0, In p0 F -> same_Id page_Id p0 p = true ->
             exists s, dict_get i d = Some s
                       /\ slot_pages s = filter (same_Id page_Id p0) L.
Proof.
  intros Hp. induction 1 as [|[k s] q d F (Hq & Hpages & _) _ IH];
    intros HD p0 Hin Hs; [destruct Hin|].
  cbn [fst snd] in *. destruct HD as [HD1 HD2].
  unfold dict_get. cbn [assoc_get]. fold (@dict_get (slot P) i d).
  assert (Hk : key_eqb k i = same_Id page_Id q p)
    by (now rewrite (same_Id_key page_Id q p _ Hq), Hp).
  destruct Hin as [->|Hin].
  - rewrite Hk, Hs. eauto.
  - rewrite Forall_forall in HD1. pose proof (HD1 p0 Hin) as Hne.
    destruct (key_eqb k i) eqn:E.
    + exfalso. rewrite <- Hne in *. symmetry in Hk.
      assert (same_Id page_Id q p0 = true); [|congruence].
      eapply same_Id_trans; [exact Hk|]. now rewrite same_Id_sym.
    + now apply IH.
Qed.

(** X1.  After [Book.load] has loaded the pages of a document,
    [Book.search] with the [Id] of any loaded page returns the slot
    that holds every loaded page of that [Id], in load order; it
    returns [None] for a key that is the [Id] of no page, and for every
    falsy key, so that a page whose [Id] is empty cannot be found. *)
Theorem search_after_load (l : list json) (d : dict (slot P)) :
  load_pages make_page page_Id l [] = Ok d ->
  exists L : list P,
    make_pages make_page l = Ok L
    /\ (forall (p : P) (i : json),
           In p L -> page_Id p = Ok i -> truthy i = true ->
           exists s : slot P,
             Book_search d i = Ok (Some s)
             /\ In p (slot_pages s)
             /\ slot_pages s = filter (same_Id page_Id p) L)
    /\ (forall pid : json,
           hashable pid = true ->
           (forall (p : P) (i : json),
               In p L -> page_Id p = Ok i -> key_eqb i pid = false) ->
           Book_search d pid = Ok None)
    /\ (forall pid : json, truthy pid = false -> Book_search d pid = Ok None).
Proof.
  intros H.
  destruct (load_pages_inv make_page page_Id l [] d [] (loaded_inv_nil page_Id) H)
    as (L & HL & HF & HK & _).
  cbn [app] in *. exists L. split; [exact HL|].
  refine (conj _ (conj _ _)).
  - intros p i Hin Hp Ht. rewrite Forall_forall in HK.
    destruct (HK p Hin) as (i' & Hi' & Hh).
    assert (i' = i) by congruence. subst i'.
    destruct (first_of_Id_cover page_Id L p Hin (HK p Hin)) as (p0 & Hin0 & Hs0).
    destruct (slot_of_Id L p i d _ Hp HF (first_of_Id_distinct page_Id L) p0 Hin0 Hs0)
      as (s & Hg & Hpages).
    exists s. unfold Book_search. rewrite Ht, Hh. cbn [negb].
    rewrite Hg, Hpages, (same_Id_filter L p0 p Hs0).
    repeat split. apply filter_In. split; [exact Hin|].
    apply same_Id_refl. now apply HK.
  - intros pid Hh Hno. unfold Book_search.
    destruct (truthy pid); [|reflexivity]. cbn [negb]. rewrite Hh. cbn [negb].
    f_equal. apply dict_get_None.
    assert (HFin : forall p0, In p0 (first_of_Id page_Id L) ->
                              forall i, page_Id p0 = Ok i -> key_eqb i pid = false).
    { intros p0 Hp0 i Hi. eapply Hno; eauto.
      now apply (first_of_Id_incl page_Id L). }
    clear -HF HFin. induction HF as [|ks p0 d F (Hq & _) _ IH]; constructor.
    + eapply HFin; [now left | exact Hq].
    + apply IH. intros q Hq'. apply HFin. now right.
  - intros pid Hf. unfold Book_search. now rewrite Hf.
Qed.
End SearchLoaded.

(* ================================================================== *)
(** ** Looking a book up in the library *)

Lemma distinct_keys_snoc (ks : list json) (k : json) :
  distinct_keys ks -> Forall (fun k' => key_eqb k' k = false) ks ->
  distinct_keys (ks ++ [k]).
Proof.
  induction ks as [|a ks IH]; cbn; intros HD HF; [auto|].
  destruct HD as [H1 H2]. inversion HF; subst. split; [|auto].
  apply Forall_app. split; [exact H1 | now constructor].
Qed.

(** An assignment [d[k] = v] keeps the keys of [d], or adds [k] at the
    end when no key equals it. *)
Lemma dict_set_cases {V} (k : json) (v : V) (d : dict V) :
  (exists d1 k0 v0 d2,
      d = d1 ++ (k0, v0) :: d2 /\ key_eqb k0 k = true
      /\ dict_set k v d = d1 ++ (k0, v) :: d2)
  \/ (Forall (fun kv => key_eqb (fst kv) k = false) d
      /\ dict_set k v d = d ++ [(k, v)]).
Proof.
  destruct (dict_get k d) as [v0|] eqn:E.
  - left. apply dict_get_Some in E as (d1 & k0 & d2 & -> & Hk & Hd1).
    exists d1, k0, v0, d2. repeat split; auto. now apply dict_set_old.
  - right. apply dict_get_None in E. split; [exact E | now apply dict_set_new].
Qed.

Lemma dict_get_In {V} (k : json) (v : V) (d : dict V) :
  distinct_keys (map fst d) -> In (k, v) d -> key_eqb k k = true ->
  dict_get k d = Some v.
Proof.
  unfold dict_get. induction d as [|[k' v'] d IH]; cbn; intros HD Hin Hk; [destruct Hin|].
  destruct HD as [H1 H2]. destruct Hin as [E|Hin].
  - injection E as -> ->. now rewrite Hk.
  - rewrite Forall_forall in H1.
    rewrite (H1 k) by (change k with (fst (k, v)); now apply in_map).
    now apply IH.
Qed.

Lemma library_inv_set (books : dict book) (b : book) :
  hashable (book_bid b) = true ->
  library_inv books -> library_inv (dict_set (book_bid b) b books).
Proof.
  intros Hh [HD HB]. destruct (dict_set_cases (book_bid b) b books)
    as [(d1 & k0 & v0 & d2 & -> & Hk & ->)|[HF ->]]; split.
  - now rewrite map_app in *.
  - apply Forall_app in HB as [HB1 HB2]. inversion HB2; subst.
    apply Forall_app. split; [exact HB1|]. constructor; assumption.
  - rewrite map_app. apply distinct_keys_snoc; [exact HD|].
    rewrite Forall_forall in *. intros k Hin. apply in_map_iff in Hin as (kv & <- & Hin).
    now apply HF.
  - apply Forall_app. split; [exact HB|]. constructor; [|constructor]. cbn [fst snd].
    now apply key_eqb_refl.
Qed.

Lemma add_book_inv (books books' : dict book) (f : file) :
  add_book books f = Ok books' -> library_inv books -> library_inv books'.
Proof.
  unfold add_book. intros H Hinv.
  apply bind_Ok in H as ([[b0 t0] ty] & _ & H).
  apply bind_Ok in H as (b & _ & H).
  destruct (hashable (book_bid b)) eqn:Hh; [|discriminate].
  cbn [negb] in H. injection H as <-. now apply library_inv_set.
Qed.

Lemma add_books_inv (files : list file) :
  forall books books' : dict book,
    add_books files books = Ok books' -> library_inv books -> library_inv books'.
Proof.
  induction files as [|f files IH]; intros books books' H Hinv; cbn [add_books] in H.
  - now injection H as <-.
  - apply bind_Ok in H as (b1 & H1 & H). eapply IH; eauto using add_book_inv.
Qed.

Lemma Library_load_inv (library_paths : list (list file)) (books : dict book) :
  Library_load library_paths = Ok books -> library_inv books.
Proof.
  rewrite Library_load_concat. intros H.
  eapply add_books_inv; [exact H|]. split; constructor.
Qed.

Lemma prefix_trans (a b c : string) :
  String.prefix a b = true -> String.prefix b c = true -> String.prefix a c = true.
Proof.
  revert b c. induction a as [|x a IH]; intros b c Hab Hbc; [now destruct c|].
  destruct b as [|y b]; [discriminate|]. destruct c as [|z c]; [discriminate|].
  cbn [String.prefix] in *.
  destruct (ascii_dec x y) as [->|]; [|discriminate].
  destruct (ascii_dec y z) as [->|]; [|discriminate].
  destruct (ascii_dec z z); [|congruence]. eapply IH; eauto.
Qed.

Lemma keys_startswith_strings (p : string) (ks : list json) :
  Forall (fun k => exists s, k = JStr s) ks ->
  keys_startswith (JStr p) ks = Ok (filter (has_prefix p) ks).
Proof.
  induction 1 as [|k ks (s & ->) _ IH]; [reflexivity|].
  cbn [keys_startswith startswith bind filter has_prefix].
  fold (keys_startswith (JStr p) ks). rewrite IH. cbn [bind].
  now destruct (String.prefix p s).
Qed.

Lemma keys_startswith_not_string (p : string) (ks : list json) (k : json) :
  In k ks -> (forall s, k <> JStr s) ->
  keys_startswith (JStr p) ks = Raise AttributeError.
Proof.
  induction ks as [|x ks IH]; intros Hin Hk; [destruct Hin|].
  cbn [keys_startswith]. fold (keys_startswith (JStr p) ks).
  destruct x as [| | |s| |]; cbn [startswith bind]; try reflexivity.
  destruct Hin as [<-|Hin]; [now destruct (Hk s)|].
  now rewrite (IH Hin Hk).
Qed.

Lemma key_eqb_string (k : json) (s : string) :
  key_eqb k (JStr s) = true -> k = JStr s.
Proof.
  destruct k; cbn; try discriminate. intros H. apply String.eqb_eq in H. now subst.
Qed.

(** The keys of a library of books with string ids are those ids. *)
Lemma library_string_keys (books : dict book) :
  library_inv books ->
  (forall b, In b (Library_index books) -> exists s, book_bid b = JStr s) ->
  Forall (fun kb => fst kb = book_bid (snd kb) /\ exists s, fst kb = JStr s) books.
Proof.
  intros [_ HB] Hs. rewrite Forall_forall in *. intros [k b] Hin.
  cbn [fst snd]. destruct (Hs b) as (s & Hb).
  { unfold Library_index, values. change b with (snd (k, b)). now apply in_map. }
  pose proof (HB _ Hin) as Hk. cbn [fst snd] in Hk. rewrite Hb in *.
  apply key_eqb_string in Hk. subst. eauto.
Qed.

(** [Library.search] in a loaded library whose books have string ids. *)
Lemma search_by_filter
    (library_paths : list (list file)) (books : dict book) :
  Library_load library_paths = Ok books ->
  (forall b, In b (Library_index books) -> exists s, book_bid b = JStr s) ->
  forall bid : string,
    Library_search books (JStr bid) =
      Ok (match filter (fun b => has_prefix bid (book_bid b)) (Library_index books) with
          | [b] => Some b
          | _ => None
          end).
Proof.
  intros Hload Hstr bid. pose proof (Library_load_inv _ _ Hload) as Hinv.
  pose proof (library_string_keys books Hinv Hstr) as HK.
  destruct Hinv as [HD _]. unfold Library_search.
  rewrite keys_startswith_strings
    by (rewrite Forall_forall in *; intros k Hin;
        apply in_map_iff in Hin as (kb & <- & Hin); now apply HK).
  cbn [bind].
  assert (Hkeys : filter (has_prefix bid) (map fst books)
                  = map fst (filter (fun kb => has_prefix bid (fst kb)) books)).
  { clear. induction books as [|[k b] d IH]; cbn; [reflexivity|].
    destruct (has_prefix bid k); cbn; now rewrite IH. }
  assert (Hvals : filter (fun b => has_prefix bid (book_bid b)) (Library_index books)
                  = map snd (filter (fun kb => has_prefix bid (fst kb)) books)).
  { unfold Library_index, values. clear -HK.
    induction HK as [|[k b] d [Hk _] _ IH]; cbn in *; [reflexivity|].
    rewrite <- Hk. destruct (has_prefix bid k); cbn; now rewrite IH. }
  rewrite Hkeys, Hvals.
  destruct (filter (fun kb => has_prefix bid (fst kb)) books) as [|[k b] [|kb2 fl]] eqn:E;
    cbn [map List.length Nat.eqb negb]; try reflexivity.
  cbn [list_item nth_error bind fst snd]. f_equal.
  assert (Hin : In (k, b) books).
  { eapply proj1. apply (filter_In (fun kb => has_prefix bid (fst kb))).
    rewrite E. now left. }
  apply dict_get_In; auto.
  rewrite Forall_forall in HK. destruct (HK _ Hin) as [_ (s & Hs)].
  cbn [fst] in Hs. subst. apply key_eqb_refl. reflexivity.
Qed.

(** X2.  In a loaded library whose books all have string ids,
    [Library.search] returns the book whose id starts with the given
    prefix when there is exactly one such book, and [None] when there
    is none or more than one; it never raises. *)
Theorem search_unique_prefix
    (library_paths : list (list file)) (books : dict book) :
  Library_load library_paths = Ok books ->
  (forall b, In b (Library_index books) -> exists s, book_bid b = JStr s) ->
  forall bid : string,
    Library_search books (JStr bid) =
      Ok (match filter (fun b => has_prefix bid (book_bid b)) (Library_index books) with
          | [b] => Some b
          | _ => None
          end).
Proof. exact (search_by_filter library_paths books). Qed.

Lemma only_match (books : dict book) (k : json) (b : book) (s : string) :
  distinct_keys (map fst books) ->
  Forall (fun kb => fst kb = book_bid (snd kb) /\ exists s, fst kb = JStr s) books ->
  In (k, b) books ->
  has_prefix s k = true ->
  (forall b', In b' (values books) -> b' <> b -> has_prefix s (book_bid b') = false) ->
  filter (fun b' => has_prefix s (book_bid b')) (values books) = [b].
Proof.
  unfold values.
  induction books as [|[k' b'] d IH]; intros HD HK Hin Hk Hothers; [destruct Hin|].
  cbn [map fst snd] in *. destruct HD as [HD1 HD2].
  inversion HK as [|? ? [Hkb (s' & Hs')] HK']; subst. cbn [fst snd] in *.
  assert (Hrest : forall kb, In kb d -> snd kb <> b' ).
  { intros kb Hkb' E. rewrite Forall_forall in HD1, HK'.
    destruct (HK' kb Hkb') as [Hfk _].
    assert (Hne : key_eqb k' (fst kb) = false) by (apply HD1; now apply in_map).
    rewrite Hfk, E, <- Hkb, Hs' in Hne. cbn in Hne.
    now rewrite String.eqb_refl in Hne. }
  destruct Hin as [E|Hin].
  - injection E as -> ->. cbn [filter]. rewrite <- Hkb, Hk. f_equal.
    apply filter_none. intros x Hx. apply Hothers; [now right|].
    apply in_map_iff in Hx as (kb & <- & Hkb'). now apply Hrest.
  - assert (Hbb : b' <> b).
    { intros ->. apply (Hrest (k, b) Hin). reflexivity. }
    cbn [filter]. rewrite (Hothers b' (or_introl eq_refl) Hbb).
    apply IH; auto. intros x Hx. apply Hothers. now right.
Qed.

(** X3.  In a loaded library whose books have string ids, a book is
    found by its full id whenever the id of no other book starts with
    it. *)
Theorem found_by_full_id
    (library_paths : list (list file)) (books : dict book) (b : book) (s : string) :
  Library_load library_paths = Ok books ->
  (forall b', In b' (Library_index books) -> exists s', book_bid b' = JStr s') ->
  In b (Library_index books) ->
  book_bid b = JStr s ->
  (forall b', In b' (Library_index books) -> b' <> b ->
              has_prefix s (book_bid b') = false) ->
  Library_search books (JStr s) = Ok (Some b).
Proof.
  intros Hload Hstr Hin Hb Hothers.
  rewrite (search_by_filter library_paths books Hload Hstr).
  pose proof (Library_load_inv _ _ Hload) as Hinv.
  pose proof (library_string_keys books Hinv Hstr) as HK.
  destruct Hinv as [HD _].
  unfold Library_index, values in Hin. apply in_map_iff in Hin as ([k b0] & E & Hin).
  cbn [snd] in E. subst b0.
  assert (Hk : k = JStr s).
  { rewrite Forall_forall in HK. destruct (HK _ Hin) as [Hkb _]. cbn in Hkb. congruence. }
  unfold Library_index.
  rewrite (only_match books k b s HD HK Hin); [reflexivity | | exact Hothers].
  subst k. cbn. clear. induction s as [|c s IH]; [reflexivity|].
  cbn. destruct (ascii_dec c c); [exact IH | congruence].
Qed.

(** X4.  In a loaded library whose books have string ids, a book whose
    id is a proper prefix of the id of another book is returned by no
    search at all: every prefix that selects it selects the other book
    too. *)
Theorem shadowed_book_is_never_found
    (library_paths : list (list file)) (books : dict book)
    (b1 b2 : book) (s1 s2 : string) :
  Library_load library_paths = Ok books ->
  (forall b, In b (Library_index books) -> exists s, book_bid b = JStr s) ->
  In b1 (Library_index books) -> In b2 (Library_index books) ->
  book_bid b1 = JStr s1 -> book_bid b2 = JStr s2 ->
  s1 <> s2 -> String.prefix s1 s2 = true ->
  forall bid : string, Library_search books (JStr bid) <> Ok (Some b1).
Proof.
  intros Hload Hstr Hin1 Hin2 Hb1 Hb2 Hne Hpre bid.
  rewrite (search_by_filter library_paths books Hload Hstr).
  destruct (filter (fun b => has_prefix bid (book_bid b)) (Library_index books))
    as [|b [|b' fl]] eqn:E; try discriminate.
  intros H. injection H as ->.
  assert (H1 : has_prefix bid (book_bid b1) = true).
  { assert (Hin : In b1 [b1]) by now left.
    rewrite <- E in Hin. now apply filter_In in Hin. }
  assert (H2 : In b2 [b1]).
  { rewrite <- E. apply filter_In. split; [exact Hin2|].
    rewrite Hb1 in H1. rewrite Hb2. cbn in *. eapply prefix_trans; eauto. }
  destruct H2 as [->|[]]. congruence.
Qed.

(** X5.  A library that holds a book whose id is not a string (a
    document with a numeric [Id] loads) answers no search: every call
    of [Library.search] raises [AttributeError]. *)
Theorem non_string_id_breaks_search
    (library_paths : list (list file)) (books : dict book) (b : book) :
  Library_load library_paths = Ok books ->
  In b (Library_index books) ->
  (forall s, book_bid b <> JStr s) ->
  forall bid : string, Library_search books (JStr bid) = Raise AttributeError.
Proof.
  intros Hload Hin Hb bid. destruct (Library_load_inv _ _ Hload) as [_ HB].
  unfold Library_index, values in Hin. apply in_map_iff in Hin as ([k b0] & E & Hin).
  cbn [snd] in E. subst b0. rewrite Forall_forall in HB.
  pose proof (HB _ Hin) as Hk. cbn [fst snd] in Hk.
  unfold Library_search.
  rewrite (keys_startswith_not_string bid (map fst books) k); [reflexivity | |].
  - change k with (fst (k, b)). now apply in_map.
  - intros s ->. destruct (book_bid b) eqn:Eb; cbn in Hk; try discriminate.
    now destruct (Hb s0).
Qed.

(* ================================================================== *)
(** ** Hit points *)

Lemma insert_sorted_perm (x : Z) (l : list Z) : Permutation (insert_sorted x l) (x :: l).
Proof.
  induction l as [|y l IH]; cbn; [reflexivity|].
  destruct (x <=? y); [reflexivity|].
  etransitivity; [apply perm_skip, IH | apply perm_swap].
Qed.

Lemma sorted_perm (l : list Z) : Permutation (sorted l) l.
Proof.
  induction l as [|x l IH]; cbn; [constructor|].
  etransitivity; [apply insert_sorted_perm | now apply perm_skip].
Qed.

Lemma insert_sorted_Sorted (x : Z) (l : list Z) :
  Sorted Z.le l -> Sorted Z.le (insert_sorted x l).
Proof.
  induction l as [|y l IH]; cbn; intros H; [repeat constructor|].
  destruct (x <=? y) eqn:E.
  - constructor; [exact H|]. constructor. now apply Z.leb_le.
  - apply Z.leb_gt in E. inversion H as [|? ? Hs Hhd]; subst.
    constructor; [now apply IH|].
    destruct l as [|z l]; cbn; [constructor; lia|].
    destruct (x <=? z); constructor; [lia|]. now inversion Hhd.
Qed.

Lemma sorted_Sorted (l : list Z) : Sorted Z.le (sorted l).
Proof.
  induction l as [|x l IH]; cbn; [constructor | now apply insert_sorted_Sorted].
Qed.

Section HitPointFacts.
Context {R : Type}.
Variable roll_dice : json -> R -> result (Z * R).
Variable repr : json -> string.

Lemma roll_times_spec (die : json) (n : nat) :
  forall (acc : list Z) (r r' : R) (hps : list Z),
    roll_times roll_dice die n acc r = Ok (hps, r') ->
    exists rolls : list Z,
      hps = acc ++ rolls
      /\ List.length rolls = n
      /\ Forall (fun v => exists r1 r2, roll_dice die r1 = Ok (v, r2)) rolls.
Proof.
  induction n as [|n IH]; intros acc r r' hps H; cbn [roll_times] in H.
  - unfold ret in H. injection H as <- _. exists []. now rewrite app_nil_r.
  - unfold mbind in H. destruct (roll_dice die r) as [[v r1]|] eqn:E; [|discriminate].
    destruct (IH _ _ _ _ H) as (rolls & -> & Hlen & Hall).
    exists (v :: rolls). rewrite <- app_assoc. repeat split; cbn; auto.
    constructor; eauto.
Qed.

(** X6.  When [MonsterPage.roll] returns, it returns one value for each
    of the [num] monsters, in ascending order, each of them a result of
    the dice evaluator on the expression made of the part of [HP]
    before its first ['+'], [" * "] and the die. *)
Theorem monster_hit_points_sorted
    (page : attrs) (num : Z) (die : json) (r r' : R) (hps : list Z) :
  MonsterPage_roll roll_dice repr page num die r = Ok (hps, r') ->
  exists (hp : string) (expr : string),
    getattr page "HP" = Ok (JStr hp)
    /\ list_item (split "+" hp) 0 = Ok expr
    /\ List.length hps = Z.to_nat num
    /\ Sorted Z.le hps
    /\ Forall (fun v => exists r1 r2,
                   roll_dice (JStr (expr +++ " * " +++ str repr die)) r1 = Ok (v, r2))
              hps.
Proof.
  unfold MonsterPage_roll. destruct (hasattr page "roll"); [discriminate|].
  unfold mbind, lift, ret, hp_expression. intros H.
  destruct (getattr page "HP") as [[| | |hp| |]|] eqn:Ehp; cbn [bind] in H; try discriminate.
  destruct (list_item (split "+" hp) 0) as [expr|] eqn:Ef; cbn [bind] in H; [|discriminate].
  destruct (roll_times _ _ _ _ r) as [[rolls r1]|] eqn:E; [|discriminate].
  injection H as <- <-.
  apply roll_times_spec in E as (rolls' & -> & Hlen & Hall). cbn [app] in *.
  exists hp, expr.
  refine (conj eq_refl (conj Ef (conj _ (conj _ _)))).
  - rewrite <- Hlen. apply Permutation_length, sorted_perm.
  - apply sorted_Sorted.
  - rewrite Forall_forall in *. intros v Hv. apply Hall.
    eapply Permutation_in; [apply sorted_perm | exact Hv].
Qed.

(** X7.  For pages whose record has no key ["roll"], [MonsterPage.roll]
    uses only the part of [HP] before the first ['+']: a monster with
    hit dice ["h+x"] rolls exactly as one with hit dice ["h"], the
    bonus is dropped.  For no monsters ([num <= 0]) it returns the
    empty list and rolls nothing.  A page whose record has a key
    ["roll"] cannot be rolled: the call raises [TypeError]. *)
Theorem hit_point_bonus_is_dropped :
  (forall (page page' : attrs) (h x : string) (num : Z) (die : json) (r : R),
      hasattr page "roll" = false -> hasattr page' "roll" = false ->
      occurs "+" h = false ->
      getattr page "HP" = Ok (JStr (h +++ String "+" x)) ->
      getattr page' "HP" = Ok (JStr h) ->
      MonsterPage_roll roll_dice repr page num die r
      = MonsterPage_roll roll_dice repr page' num die r)
  /\ (forall (page : attrs) (h x : string) (num : Z) (die : json) (r : R),
         hasattr page "roll" = false ->
         occurs "+" h = false ->
         getattr page "HP" = Ok (JStr (h +++ String "+" x)) ->
         num <= 0 ->
         MonsterPage_roll roll_dice repr page num die r = Ok ([], r))
  /\ (forall (page : attrs) (num : Z) (die : json) (r : R),
         hasattr page "roll" = true ->
         MonsterPage_roll roll_dice repr page num die r = Raise TypeError).
Proof.
  assert (E : forall page h x die,
             occurs "+" h = false ->
             getattr page "HP" = Ok (JStr (h +++ String "+" x)) ->
             hp_expression repr page die = Ok (h +++ " * " +++ str repr die)).
  { intros page h x die Hh Hp. unfold hp_expression, split. rewrite Hp. cbn [bind].
    now rewrite (split_from_sep "+" h x Hh). }
  refine (conj _ (conj _ _)).
  - intros page page' h x num die r Hr Hr' Hh Hp Hp'.
    assert (E' : hp_expression repr page' die = Ok (h +++ " * " +++ str repr die)).
    { unfold hp_expression, split. rewrite Hp'. cbn [bind].
      now rewrite (split_from_plain "+" h Hh). }
    unfold MonsterPage_roll, mbind, lift. now rewrite Hr, Hr', (E page h x die Hh Hp), E'.
  - intros page h x num die r Hr Hh Hp Hn.
    unfold MonsterPage_roll, mbind, lift. rewrite Hr, (E page h x die Hh Hp).
    replace (Z.to_nat num) with O by lia. reflexivity.
  - intros page num die r Hr. unfold MonsterPage_roll, lift. now rewrite Hr.
Qed.
End HitPointFacts.

(* ================================================================== *)
(** ** Tables made by [maketable] *)

Lemma str_of_Z_inj (a b : Z) : 0 <= a -> 0 <= b -> str_of_Z a = str_of_Z b -> a = b.
Proof.
  intros Ha Hb E. pose proof (int_str_of_Z a Ha) as H1.
  rewrite E, (int_str_of_Z b Hb) in H1. congruence.
Qed.

Lemma load_made_pages (lines : list string) :
  forall (eid : Z) (d : dict (slot entry)),
    0 <= eid ->
    Forall (fun kv => exists j, fst kv = JStr (str_of_Z j) /\ 0 <= j < eid) d ->
    load_pages (TableEntry_init Table_init) entry_Id (maketable_entries eid lines) d
    = Ok (d ++ made_slots eid lines).
Proof.
  induction lines as [|line rest IH]; intros eid d He Hd.
  - cbn. now rewrite app_nil_r.
  - cbn [maketable_entries load_pages made_slots].
    change (TableEntry_init Table_init
              (JObj [("Id", JStr (str_of_Z eid)); ("Details", JStr (str_strip line))]))
      with (Ok (made_entry eid line)).
    cbn [bind]. unfold add_page.
    change (entry_Id (made_entry eid line)) with (@Ok json (JStr (str_of_Z eid))).
    cbn [bind hashable negb].
    assert (Hnew : Forall (fun kv => key_eqb (fst kv) (JStr (str_of_Z eid)) = false) d).
    { rewrite Forall_forall in *. intros kv Hkv. destruct (Hd kv Hkv) as (j & -> & Hj).
      cbn. apply String.eqb_neq. intros E. apply str_of_Z_inj in E; lia. }
    rewrite (proj2 (dict_get_None _ d) Hnew), (dict_set_new _ _ d Hnew).
    cbn [bind].
    rewrite IH; [now rewrite <- app_assoc | lia |].
    apply Forall_app. split.
    + rewrite Forall_forall in *. intros kv Hkv. destruct (Hd kv Hkv) as (j & E & Hj).
      exists j. split; [exact E | lia].
    + constructor; [|constructor]. exists eid. split; [reflexivity | lia].
Qed.

Lemma find_made_slots (k : Z) (lines : list string) :
  forall eid : Z,
    0 <= eid ->
    find_with (fun e => e) (JInt k) (made_slots eid lines)
    = Ok (if (eid <=? k) && (k <? eid + Z.of_nat (List.length lines))
          then [made_entry k (nth (Z.to_nat (k - eid)) lines "")]
          else []).
Proof.
  induction lines as [|line rest IH]; intros eid He.
  - cbn [made_slots find_with List.length Z.of_nat].
    replace ((eid <=? k) && (k <? eid + 0)) with false; [reflexivity|].
    symmetry. apply andb_false_iff.
    destruct (Z.leb_spec eid k); [right; apply Z.ltb_ge; lia | now left].
  - cbn [made_slots]. rewrite find_slot_pages.
    cbn [slot_id_as_range].
    change (entry_Id (made_entry eid line)) with (@Ok json (JStr (str_of_Z eid))).
    cbn [bind]. rewrite (id_as_range_single eid He). cbn [bind].
    rewrite (IH (eid + 1)) by lia. cbn [bind range_contains start stop slot_pages].
    cbn [List.length]. rewrite Nat2Z.inj_succ.
    destruct (Z.leb_spec eid k), (Z.ltb_spec k (eid + 1)),
      (Z.leb_spec (eid + 1) k),
      (Z.ltb_spec k (eid + 1 + Z.of_nat (List.length rest))),
      (Z.ltb_spec k (eid + Z.succ (Z.of_nat (List.length rest))));
      cbn [andb app]; try lia; try reflexivity.
    + replace k with eid by lia. now rewrite Z.sub_diag.
    + replace (Z.to_nat (k - eid)) with (S (Z.to_nat (k - (eid + 1)))) by lia.
      reflexivity.
Qed.

Lemma Table_init_maketable (lines : list string) :
  Table_init (maketable lines)
  = Ok (MkTable (JStr "undefined") (JStr "undefined title") TABLE
          (made_slots 1 lines)
          (JStr ("1d" +++ str_of_Z (Z.of_nat (List.length lines)))) None
          (JStr "replace")).
Proof.
  rewrite Table_init_eq. unfold maketable.
  cbn [Book_header truthy negb getitem attr_get assoc_get String.eqb Ascii.eqb
       Bool.eqb bind BookType_of key_eqb Z.eqb Pos.eqb Book_pages].
  rewrite (load_made_pages lines 1 []) by (lia || constructor).
  reflexivity.
Qed.

(** X8.  The table that [maketable] makes from the lines of a file
    always loads, with the die ["1dN"] for [N] lines, and a rolled
    value [k] from 1 to [N] finds exactly the entry made from line [k],
    stripped; any other value finds nothing. *)
Theorem maketable_round_trip (lines : list string) :
  exists t : table,
    Table_init (maketable lines) = Ok t
    /\ Die t = JStr ("1d" +++ str_of_Z (Z.of_nat (List.length lines)))
    /\ forced_roll t = None
    /\ forall k : Z,
        Table_find t (JInt k)
        = Ok (if (1 <=? k) && (k <? 1 + Z.of_nat (List.length lines))
              then [TableEntry
                      [("Id", JStr (str_of_Z k));
                       ("Details", JStr (str_strip (nth (Z.to_nat (k - 1)) lines "")))]
                      None]
              else []).
Proof.
  eexists. split; [apply Table_init_maketable|].
  refine (conj eq_refl (conj eq_refl _)).
  intros k. unfold Table_find. cbn [pages].
  now rewrite (find_made_slots k lines 1) by lia.
Qed.

Section MadeTables.
Context {R : Type}.
Variable roll_dice : json -> R -> result (Z * R).
Variable repr : json -> string.

(** X9.  A roll on a table made by [maketable] whose die gives a value
    [k] from 1 to the number of lines returns line [k], stripped and
    with its count markers removed, after a newline, and the headline
    as explanation. *)
Theorem roll_on_made_table
    (lines : list string) (t : table) (r r1 : R) (k : Z) :
  Table_init (maketable lines) = Ok t ->
  roll_dice (Die t) r = Ok (k, r1) ->
  1 <= k <= Z.of_nat (List.length lines) ->
  Table_roll roll_dice repr t r
  = Ok (nl +++ strip_markers (str_strip (nth (Z.to_nat (k - 1)) lines "")),
        [("1d" +++ str_of_Z (Z.of_nat (List.length lines)))
           +++ " -> **" +++ str_of_Z k +++ "**"],
        r1).
Proof.
  intros Ht Hd Hk. rewrite Table_init_maketable in Ht. injection Ht as <-.
  rewrite Table_roll_eq, Hd. cbv zeta.
  unfold rolled_id, Table_find. cbn [forced_roll pages].
  rewrite (find_made_slots k lines 1) by lia.
  replace ((1 <=? k) && (k <? 1 + Z.of_nat (List.length lines))) with true
    by (symmetry; apply andb_true_iff; split; [apply Z.leb_le | apply Z.ltb_lt]; lia).
  rewrite roll_entries_cons, run_step_plain by reflexivity.
  reflexivity.
Qed.
End MadeTables.

Lemma search_after_load_witness :
  exists L : list attrs,
    make_pages Page_init [Demo.page "7" "a"; Demo.page "" "b"; Demo.page "7" "c"] = Ok L
    /\ (forall (p : attrs) (i : json),
           In p L -> page_Id p = Ok i -> truthy i = true ->
           exists s : slot attrs,
             Book_search
               [(JStr "7", Group (JStr "7") [[("Id", JStr "7"); ("Details", JStr "a")];
                                             [("Id", JStr "7"); ("Details", JStr "c")]]);
                (JStr "", Single [("Id", JStr ""); ("Details", JStr "b")])] i
             = Ok (Some s)
             /\ In p (slot_pages s)
             /\ slot_pages s = filter (same_Id page_Id p) L)
    /\ (forall pid : json,
           hashable pid = true ->
           (forall (p : attrs) (i : json),
               In p L -> page_Id p = Ok i -> key_eqb i pid = false) ->
           Book_search
             [(JStr "7", Group (JStr "7") [[("Id", JStr "7"); ("Details", JStr "a")];
                                           [("Id", JStr "7"); ("Details", JStr "c")]]);
              (JStr "", Single [("Id", JStr ""); ("Details", JStr "b")])] pid
           = Ok None)
    /\ (forall pid : json,
           truthy pid = false ->
           Book_search
             [(JStr "7", Group (JStr "7") [[("Id", JStr "7"); ("Details", JStr "a")];
                                           [("Id", JStr "7"); ("Details", JStr "c")]]);
              (JStr "", Single [("Id", JStr ""); ("Details", JStr "b")])] pid
           = Ok None).
Proof.
  exact (search_after_load Page_init page_Id
           [Demo.page "7" "a"; Demo.page "" "b"; Demo.page "7" "c"] _ eq_refl).
Defined.

Lemma roll_on_made_table_witness :
  Table_roll Demo.roll_dice Demo.repr (Cases.loaded (maketable ["  orc "; "#a elf$"])) [1]
  = Ok (nl +++ " elf", ["1d2 -> **2**"], []).
Proof.
  refine (roll_on_made_table Demo.roll_dice Demo.repr ["  orc "; "#a elf$"]
            (Cases.loaded (maketable ["  orc "; "#a elf$"])) [1] [] 2
            eq_refl eq_refl _).
  cbn. lia.
Defined.

(* ================================================================== *)
(** ** Changing the settings *)

Lemma attr_get_set_same (k : string) (v : json) (d : attrs) :
  attr_get k (attr_set k v d) = Some v.
Proof.
  unfold attr_get, attr_set. induction d as [|[k' v'] d IH]; cbn.
  - now rewrite String.eqb_refl.
  - destruct (String.eqb k' k) eqn:E; cbn; rewrite E; [reflexivity | exact IH].
Qed.

Lemma attr_get_set_other (k k' : string) (v : json) (d : attrs) :
  k' <> k -> attr_get k' (attr_set k v d) = attr_get k' d.
Proof.
  intros Hne. unfold attr_get, attr_set. induction d as [|[k0 v0] d IH]; cbn.
  - replace (String.eqb k k') with false; [reflexivity|].
    symmetry. apply String.eqb_neq. congruence.
  - destruct (String.eqb k0 k) eqn:E; cbn.
    + apply String.eqb_eq in E. subst k0.
      replace (String.eqb k k') with false; [reflexivity|].
      symmetry. apply String.eqb_neq. congruence.
    + destruct (String.eqb k0 k'); [reflexivity | exact IH].
Qed.

Lemma keys_startswith_In (p : json) (keys : list json) :
  forall found, keys_startswith p keys = Ok found ->
                forall x, In x found -> In x keys.
Proof.
  induction keys as [|y keys IH]; intros found H x Hx.
  - injection H as <-. destruct Hx.
  - cbn [keys_startswith] in H. fold (keys_startswith p keys) in H.
    apply bind_Ok in H as (b & _ & H). apply bind_Ok in H as (bids & Hb & H).
    injection H as <-. destruct b.
    + destruct Hx as [->|Hx]; [now left | right; eapply IH; eauto].
    + right. eapply IH; eauto.
Qed.

(** Each element of [chars] is one character; when the text starts
    with a continuation byte, so does every byte of the first. *)
Lemma chars_one_char (s : string) :
  Forall (fun x => one_char x = true) (chars s)
  /\ (forall d s0, s = String d s0 -> is_continuation d = true ->
                   exists x rest,
                     chars s = x :: rest
                     /\ forallb is_continuation (list_ascii_of_string x) = true).
Proof.
  induction s as [|c s' [IH1 IH2]]; [split; [constructor | discriminate]|].
  cbn [chars]. destruct s' as [|d s0].
  - cbn. split; [repeat constructor|].
    intros d s0 E Hd. injection E as <- <-. exists (String c ""), [].
    cbn. now rewrite Hd.
  - destruct (is_continuation d) eqn:Ed.
    + destruct (IH2 d s0 eq_refl Ed) as (x & rest & Ex & Hx).
      rewrite Ex in *. inversion IH1 as [|? ? _ Hrest]; subst. split.
      * constructor; [exact Hx | exact Hrest].
      * intros d' s' E Hd'. injection E as <- <-. exists (String c x), rest.
        split; [reflexivity|]. cbn. now rewrite Hd', Hx.
    + split; [constructor; [reflexivity | exact IH1]|].
      intros d' s' E Hd'. injection E as <- <-.
      exists (String c ""), (chars (String d s0)). cbn. now rewrite Hd'.
Qed.

Lemma constrained_name_not_char (k v : string) (vs : list string) :
  valid_values_for k = v :: vs -> one_char k = false.
Proof.
  unfold valid_values_for.
  destruct (String.eqb k "opengame") eqn:E1;
    [apply String.eqb_eq in E1; now subst|].
  destruct (String.eqb k "system") eqn:E2;
    [apply String.eqb_eq in E2; now subst|].
  destruct (String.eqb k "attributes") eqn:E3;
    [apply String.eqb_eq in E3; now subst | discriminate].
Qed.

(** A name that the loop over the valid settings has produced is in
    them. *)
Lemma selected_known (v : json) (keys : list json) (k : string) :
  iter v = Ok keys -> In (JStr k) keys -> one_char k = false ->
  contains v k = Ok true.
Proof.
  destruct v as [| | |s|l|o]; cbn [iter contains]; intros H Hin Hk;
    try discriminate; injection H as <-; f_equal.
  - apply in_map_iff in Hin as (x & E & Hx). injection E as ->.
    pose proof (proj1 (chars_one_char s)) as Hall. rewrite Forall_forall in Hall.
    rewrite (Hall k Hx) in Hk. discriminate.
  - apply existsb_exists. exists (JStr k). split; [exact Hin|].
    cbn. apply String.eqb_refl.
  - apply in_map_iff in Hin as (x & E & Hx). injection E as ->.
    apply existsb_exists. exists k. split; [exact Hx | apply String.eqb_refl].
Qed.

Lemma filter_strings (p : string) (l : list string) :
  filter (has_prefix p) (map JStr l) = map JStr (filter (String.prefix p) l).
Proof.
  induction l as [|x l IH]; [reflexivity|].
  cbn [map filter has_prefix]. rewrite IH. now destruct (String.prefix p x).
Qed.

(** The command has raised and left the settings as they were. *)
Ltac set_has_raised :=
  right; split; [reflexivity | right; right; cbn [snd]; eauto].

(** The command has stored the value; what is left to prove is that
    the value is valid. *)
Ltac set_has_stored k keys :=
  left; exists k, keys;
  match goal with
  | |- context [hasattr ?s' "save"] =>
      destruct (hasattr s' "save");
      [|destruct (Settings_save_file s'); cbn [bind]]
  end;
  (refine (conj eq_refl (conj _ (conj eq_refl (conj _ _))));
   [eassumption | cbn [snd]; eauto |]).

(** What a [set] command does to the settings. *)
Lemma command_set_cases (s : attrs) (setting value : string) :
  (exists (k : string) (keys : list json),
      iter (instance_attr s "USER_FACING_SETTINGS"
                          (JArr (map JStr USER_FACING_SETTINGS))) = Ok keys
      /\ keys_startswith (JStr setting) keys = Ok [JStr k]
      /\ fst (command_set s setting value) = attr_set k (JStr value) s
      /\ (snd (command_set s setting value) = Accepted k
          \/ exists e, snd (command_set s setting value) = Raised e)
      /\ (forall v vs, valid_values_for k = v :: vs -> In value (v :: vs)))
  \/ (fst (command_set s setting value) = s
      /\ ((exists m, snd (command_set s setting value) = Invalid_setting m)
          \/ (exists m, snd (command_set s setting value) = Invalid_value m)
          \/ (exists e, snd (command_set s setting value) = Raised e))).
Proof.
  unfold command_set.
  set (valid_settings := instance_attr s "USER_FACING_SETTINGS"
                                       (JArr (map JStr USER_FACING_SETTINGS))).
  destruct (iter valid_settings) as [keys|e] eqn:Ei; cbn [bind];
    [|set_has_raised].
  destruct (keys_startswith (JStr setting) keys) as [found|e] eqn:Ef;
    [|set_has_raised].
  assert (Hother : forall res : attrs * set_reply,
             res = match join ", " valid_settings with
                   | Ok names =>
                       (s, Invalid_setting
                             ("Invalid setting " +++ String "034"%char setting
                                +++ String "034"%char ". Valid choices are: ["
                                +++ names +++ "]"))
                   | Raise e => (s, Raised e)
                   end ->
             fst res = s
             /\ ((exists m, snd res = Invalid_setting m)
                 \/ (exists m, snd res = Invalid_value m)
                 \/ (exists e, snd res = Raised e))).
  { intros res ->. destruct (join ", " valid_settings);
      (split; [reflexivity|]); [left | right; right]; cbn [snd]; eauto. }
  destruct found as [|x rest]; [right; now apply Hother|].
  destruct x as [| | |k| |]; try (right; destruct rest; now apply Hother).
  destruct rest as [|y l]; [|right; now apply Hother].
  pose proof (keys_startswith_In _ _ _ Ef (JStr k) (or_introl eq_refl)) as Hin.
  destruct (hasattr s "get_valid_values"); [set_has_raised|].
  unfold get_valid_values. fold valid_settings.
  destruct (contains valid_settings k) as [known|e] eqn:Ec; cbn [bind];
    [|set_has_raised].
  destruct (hasattr s "set"); [set_has_raised|].
  unfold Settings_set.
  destruct known.
  - destruct (valid_values_for k) as [|v vs] eqn:Ev.
    + set_has_stored k keys; intros v' vs' E; rewrite Ev in E; discriminate.
    + destruct (existsb (String.eqb value) (v :: vs)) eqn:Ex; cbn [negb].
      * assert (Hval : In value (v :: vs)).
        { apply existsb_exists in Ex as (x & Hx & Hxe).
          apply String.eqb_eq in Hxe. now subst. }
        set_has_stored k keys; intros v' vs' E; rewrite Ev in E;
          now injection E as <- <-.
      * right. split; [reflexivity|]. right. left. cbn [snd]. eauto.
  - assert (Hval : forall v vs, valid_values_for k = v :: vs -> In value (v :: vs)).
    { intros v vs Ev. exfalso.
      rewrite (selected_known valid_settings keys k Ei Hin
                 (constrained_name_not_char k v vs Ev)) in Ec.
      discriminate. }
    set_has_stored k keys; exact Hval.
Qed.

Lemma command_set_constrained (s : attrs) (setting value : string) :
  constrained s -> constrained (fst (command_set s setting value)).
Proof.
  intros Hc. destruct (command_set_cases s setting value)
    as [(k & keys & _ & _ & -> & _ & Hval)|(-> & _)]; [|exact Hc].
  intros n v vs Hn. destruct (string_dec n k) as [->|Hne].
  - exists value. split; [apply attr_get_set_same | eapply Hval; eauto].
  - rewrite (attr_get_set_other k n _ s Hne). now apply Hc.
Qed.

(** X10.  The settings start with [opengame], [system] and [attributes]
    inside their lists of valid values, and no sequence of [set]
    commands takes any of them out of its list. *)
Theorem set_commands_keep_valid_values :
  (forall books_path : string, constrained (Settings_defaults books_path))
  /\ (forall (s : attrs) (commands : list (string * string)),
         constrained s -> constrained (commands_set s commands)).
Proof.
  split.
  - intros bp n v vs Hn. unfold valid_values_for in Hn.
    destruct (String.eqb n "opengame") eqn:E1;
      [apply String.eqb_eq in E1; subst; injection Hn as <- <-;
       exists "yes"; split; [reflexivity | now left]|].
    destruct (String.eqb n "system") eqn:E2;
      [apply String.eqb_eq in E2; subst; injection Hn as <- <-;
       exists "ve"; split; [reflexivity | now left]|].
    destruct (String.eqb n "attributes") eqn:E3; [|discriminate].
    apply String.eqb_eq in E3; subst; injection Hn as <- <-.
    exists "ve". split; [reflexivity | right; right; now left].
  - intros s commands. revert s. unfold commands_set.
    induction commands as [|[setting value] cs IH]; intros s Hc; [exact Hc|].
    cbn [fold_left fst snd]. apply IH. now apply command_set_constrained.
Qed.

(** X11.  A [set] command that is accepted has resolved its first word
    to the one name, among the valid settings, that starts with it;
    the valid settings are the list [USER_FACING_SETTINGS] of the
    class unless the settings hold a value of that name, which the
    settings file can give them.  The command stores the value, as a
    string, under the name found and leaves every other setting as it
    was.  A command answered with an invalid setting or an invalid
    value changes nothing; a command that raises has changed nothing,
    or has stored the value and failed to save. *)
Theorem set_changes_one_setting (s s' : attrs) (setting value : string) (reply : set_reply) :
  command_set s setting value = (s', reply) ->
  (forall k,
      reply = Accepted k ->
      (exists keys,
          iter (instance_attr s "USER_FACING_SETTINGS"
                              (JArr (map JStr USER_FACING_SETTINGS))) = Ok keys
          /\ keys_startswith (JStr setting) keys = Ok [JStr k])
      /\ (attr_get "USER_FACING_SETTINGS" s = None ->
          filter (fun key => String.prefix setting key) USER_FACING_SETTINGS = [k])
      /\ attr_get k s' = Some (JStr value)
      /\ forall k', k' <> k -> attr_get k' s' = attr_get k' s)
  /\ ((exists m, reply = Invalid_setting m) \/ (exists m, reply = Invalid_value m) ->
      s' = s)
  /\ (forall e, reply = Raised e ->
                s' = s \/ exists k, s' = attr_set k (JStr value) s).
Proof.
  intros H.
  assert (H1 : fst (command_set s setting value) = s') by now rewrite H.
  assert (H2 : snd (command_set s setting value) = reply) by now rewrite H.
  destruct (command_set_cases s setting value)
    as [(k & keys & Hi & Hf & Hs & Hr & _)|(Hs & Hr)];
    rewrite H1 in Hs; rewrite H2 in Hr; clear H H1 H2; subst s'.
  - refine (conj _ (conj _ _)).
    + intros k' ->. destruct Hr as [Hr|(e & Hr)]; [|discriminate].
      injection Hr as ->.
      refine (conj _ (conj _ (conj _ _))).
      * eauto.
      * intros Hnone. unfold instance_attr in Hi. rewrite Hnone in Hi.
        change (Ok (map JStr USER_FACING_SETTINGS) = Ok keys) in Hi.
        assert (Ek : keys = map JStr USER_FACING_SETTINGS) by congruence.
        subst keys.
        rewrite (keys_startswith_strings setting) in Hf
          by (repeat constructor; eauto).
        rewrite filter_strings in Hf.
        change (fun key => String.prefix setting key) with (String.prefix setting).
        destruct (filter _ USER_FACING_SETTINGS) as [|x [|y l]];
          try discriminate.
        now injection Hf as ->.
      * apply attr_get_set_same.
      * intros k' Hk'. now apply attr_get_set_other.
    + intros [(m & ->)|(m & ->)]; destruct Hr as [Hr|(e & Hr)]; discriminate.
    + intros e _. right. eauto.
  - refine (conj _ (conj _ _)).
    + intros k ->. destruct Hr as [(m & Hr)|[(m & Hr)|(e & Hr)]]; discriminate.
    + reflexivity.
    + intros e _. now left.
Qed.

(* ================================================================== *)
(** ** The commands on books *)

Lemma newline_before_each_prefix (texts : list string) :
  texts <> [] -> String.prefix nl (newline_before_each texts) = true.
Proof.
  destruct texts as [|t ts]; [congruence|]. intros _.
  unfold newline_before_each. cbn [map String.concat].
  destruct (map (fun c => nl +++ c) ts); cbn.
  - now destruct t.
  - match goal with |- String.prefix "" ?x = true => now destruct x end.
Qed.

Section RolltFacts.
Context {R : Type}.
Variable roll_dice : json -> R -> result (Z * R).
Variable repr : json -> string.

(** X12.  [rollt] on a table that the search finds: when no entry of
    the table matches the rolled id the command answers "something
    went wrong" and sends nothing else; when entries match and the roll
    returns, it sends the title of the table with the result of the
    roll, which starts with a newline, and the explanation lines joined
    by newlines. *)
Theorem rollt_reply (books : dict book) (table_book : string) (t : table)
    (r r1 : R) (rolled : Z) (entries : list entry) :
  Library_search books (JStr table_book) = Ok (Some (TableBook t)) ->
  roll_dice (Die t) r = Ok (rolled, r1) ->
  Table_find t (rolled_id t rolled) = Ok entries ->
  (entries = [] ->
   rollt roll_dice repr books table_book r = Ok (Say "something went wrong", r1))
  /\ (entries <> [] ->
      forall (rep : reply) (r' : R),
        rollt roll_dice repr books table_book r = Ok (rep, r') ->
        exists (res : string) (expl : list string),
          Table_roll roll_dice repr t r = Ok (res, expl, r')
          /\ String.prefix nl res = true
          /\ rep = Send (Embed (title t)
                           [("Result", JStr res, false);
                            ("Explanation", JStr (String.concat nl expl), false)]
                           None)).
Proof.
  intros Hs Hd Hf.
  assert (E : Table_roll roll_dice repr t r =
              match collect_steps
                      (map (entry_step roll_dice (Table_roll roll_dice repr)) entries)
                      [headline repr t (rolled_id t rolled)] r1 with
              | Ok (x, r') => Ok (newline_before_each (fst x), snd x, r')
              | Raise e => Raise e
              end).
  { rewrite Table_roll_eq, Hd. cbv zeta. rewrite Hf. unfold roll_entries.
    rewrite run_steps_collect.
    now destruct (collect_steps _ _ r1) as [[x r2]|e]. }
  split.
  - intros ->. unfold rollt, mbind, lift. rewrite Hs. cbn [bind].
    rewrite E. reflexivity.
  - intros Hne rep r' H. unfold rollt, mbind, lift in H. rewrite Hs in H.
    cbn [bind] in H. rewrite E in H. rewrite E.
    destruct (collect_steps _ _ r1) as [[[texts expl] r2]|e] eqn:Ec; [|discriminate].
    cbn [fst snd] in *.
    assert (Hp : String.prefix nl (newline_before_each texts) = true).
    { apply newline_before_each_prefix. intros ->.
      apply collect_steps_length in Ec. cbn [fst] in Ec.
      rewrite length_map in Ec. destruct entries; [congruence | discriminate]. }
    destruct (newline_before_each texts) as [|c res] eqn:En; [discriminate|].
    cbn [String.eqb] in H.
    replace (String.eqb (String c res) "") with false in H by reflexivity.
    unfold ret in H. injection H as <- <-.
    exists (String c res), expl. auto.
Qed.
End RolltFacts.

(* ================================================================== *)
(** ** The card of a monster *)

Lemma dict_set_Forall_snd {V} (Q : V -> Prop) (k : json) (v : V) (d : dict V) :
  Forall (fun kv => Q (snd kv)) d -> Q v ->
  Forall (fun kv => Q (snd kv)) (dict_set k v d).
Proof.
  intros Hd Hv. unfold dict_set. induction d as [|[k' v'] d IH]; cbn.
  - now constructor.
  - inversion Hd as [|? ? H1 H2]; subst.
    destruct (key_eqb k' k); constructor; auto.
Qed.

Section Pairs.
Context {P : Type}.
Variable make_page : json -> result P.
Variable page_Id : P -> result json.

Lemma add_page_pairs (d d' : dict (slot P)) (p : P) :
  groups_are_pairs d -> add_page page_Id d p = Ok d' -> groups_are_pairs d'.
Proof.
  unfold groups_are_pairs, add_page. intros Hd H.
  destruct (page_Id p) as [pid|]; [|discriminate]. cbn [bind] in H.
  destruct (hashable pid); [|discriminate]. cbn [negb] in H.
  destruct (dict_get pid d) as [[page0|gid ps]|]; [| discriminate |].
  - destruct (page_Id page0) as [gid|]; [|discriminate].
    cbn [bind] in H. injection H as <-.
    now apply (dict_set_Forall_snd
                 (fun s => match s with
                           | Single _ => True
                           | Group _ ps => List.length ps = 2%nat
                           end)).
  - injection H as <-.
    now apply (dict_set_Forall_snd
                 (fun s => match s with
                           | Single _ => True
                           | Group _ ps => List.length ps = 2%nat
                           end)).
Qed.

Lemma load_pages_pairs (l : list json) :
  forall d d' : dict (slot P),
    groups_are_pairs d -> load_pages make_page page_Id l d = Ok d' ->
    groups_are_pairs d'.
Proof.
  induction l as [|pd l IH]; intros d d' Hd H.
  - now injection H as <-.
  - cbn [load_pages] in H.
    apply bind_Ok in H as (p & Hp & H). apply bind_Ok in H as (d1 & Hd1 & H).
    eapply IH; [|exact H]. eapply add_page_pairs; eauto.
Qed.

(** What [Book.search] finds under the [Id] of a loaded page: the page
    itself when it is the only one of its [Id], a group of two when it
    is not. *)
Lemma search_loaded_page (l : list json) (d : dict (slot P)) (L : list P)
    (p : P) (i : json) :
  load_pages make_page page_Id l [] = Ok d ->
  make_pages make_page l = Ok L ->
  In p L -> page_Id p = Ok i -> truthy i = true ->
  (filter (same_Id page_Id p) L = [p] -> Book_search d i = Ok (Some (Single p)))
  /\ (filter (same_Id page_Id p) L <> [p] ->
      exists gid ps, Book_search d i = Ok (Some (Group gid ps))).
Proof.
  intros H HL Hin Hp Ht.
  pose proof (load_pages_pairs l [] d (Forall_nil _) H) as Hpairs.
  destruct (load_pages_inv make_page page_Id l [] d [] (loaded_inv_nil page_Id) H)
    as (L' & HL' & HF & HK & _).
  cbn [app] in *. assert (L' = L) by congruence. subst L'.
  rewrite Forall_forall in HK. destruct (HK p Hin) as (i' & Hi' & Hh).
  assert (i' = i) by congruence. subst i'.
  destruct (first_of_Id_cover page_Id L p Hin (HK p Hin)) as (p0 & Hin0 & Hs0).
  destruct (slot_of_Id page_Id L p i d _ Hp HF (first_of_Id_distinct page_Id L) p0 Hin0 Hs0)
    as (s & Hg & Hpages).
  rewrite (same_Id_filter page_Id L p0 p Hs0) in Hpages.
  assert (Hsearch : Book_search d i = Ok (Some s)).
  { unfold Book_search. rewrite Ht, Hh. cbn [negb]. now rewrite Hg. }
  rewrite Hsearch.
  assert (Hs : In (i, s) d \/ True) by now right. clear Hs.
  assert (Hsize : match s with
                  | Single _ => True
                  | Group _ ps => List.length ps = 2%nat
                  end).
  { unfold groups_are_pairs in Hpairs. rewrite Forall_forall in Hpairs.
    apply dict_get_Some in Hg as (d1 & k0 & d2 & -> & _ & _).
    apply (Hpairs (k0, s)). apply in_or_app. right. now left. }
  split.
  - intros E. rewrite E in Hpages. destruct s as [q|gid ps]; cbn in Hpages.
    + now injection Hpages as ->.
    + subst ps. discriminate.
  - intros Hne. destruct s as [q|gid ps]; [|eauto].
    exfalso. apply Hne. cbn in Hpages. rewrite <- Hpages.
    assert (Hq : In p [q]).
    { rewrite Hpages. apply filter_In. split; [exact Hin|].
      apply same_Id_refl. now apply HK. }
    destruct Hq as [->|[]]. reflexivity.
Qed.
End Pairs.

Lemma getattr_hasattr (p : attrs) (k : string) :
  (hasattr p k = true -> exists v, getattr p k = Ok v)
  /\ (hasattr p k = false -> getattr p k = Raise AttributeError).
Proof.
  unfold hasattr, assoc_mem, getattr, attr_get.
  destruct (assoc_get String.eqb k p); split; intros; eauto; discriminate.
Qed.

Section MonsterCard.
Variable repr : json -> string.

(** X13.  [monster] with a book that the settings name and the search
    finds, asked for the [Id] of a loaded page: the command sends a
    card exactly when the page is the only one of its [Id] and has all
    of the attributes the card reads, [Notes] included; the card has a
    field [Notes] only when [Notes] is truthy.  A page that lacks one of
    the attributes, or that shares its [Id] with another page, makes
    the command raise [AttributeError]. *)
Theorem monster_card (settings : attrs) (books : dict book) (mb bid title : json)
    (l : list json) (pages : dict (slot attrs)) (L : list attrs) (p : attrs)
    (mid : string) :
  getattr settings "monster_book" = Ok mb ->
  Library_search books mb = Ok (Some (MonsterBook bid title pages)) ->
  load_pages Page_init page_Id l [] = Ok pages ->
  make_pages Page_init l = Ok L ->
  In p L -> page_Id p = Ok (JStr mid) -> mid <> "" ->
  (filter (same_Id page_Id p) L = [p] ->
   forallb (hasattr p) card_attributes = true ->
   exists (Name Notes : json) (e : embed),
     getattr p "Name" = Ok Name /\ getattr p "Notes" = Ok Notes
     /\ monster repr settings books mid = Ok (Send e)
     /\ embed_title e = JStr (str repr Name +++ " [**" +++ mid +++ "**]")
     /\ map (fun f => fst (fst f)) (embed_fields e)
        = ["AC"; "HD"; "Move"; "Attacks"; "Damage"; "# Appearing (In Lair)";
           "Save As"; "Morale"; "Treasure"; "Alignment"; "XP"]
            ++ (if truthy Notes then ["Notes"] else []))
  /\ (filter (same_Id page_Id p) L = [p] ->
      forallb (hasattr p) card_attributes = false ->
      monster repr settings books mid = Raise AttributeError)
  /\ (filter (same_Id page_Id p) L <> [p] ->
      monster repr settings books mid = Raise AttributeError).
Proof.
  intros Hmb Hs Hload HL Hin Hp Hmid.
  assert (Ht : truthy (JStr mid) = true).
  { cbn. destruct mid; [congruence | reflexivity]. }
  destruct (search_loaded_page Page_init page_Id l pages L p (JStr mid)
              Hload HL Hin Hp Ht) as [Hone Hmany].
  refine (conj _ (conj _ _)).
  - intros E Hall. specialize (Hone E).
    unfold monster. rewrite Hmb. cbn [bind]. rewrite Hs. cbn [bind book_search].
    rewrite Hone. cbn [bind found_getattr].
    cbn [forallb card_attributes] in Hall.
    repeat match type of Hall with
           | (_ && _)%bool = true => apply andb_prop in Hall as [? Hall]
           end.
    unfold page_Id in Hp. rewrite Hp.
    repeat match goal with
           | H : hasattr p ?k = true |- _ =>
               let v := fresh "v" in
               let Hv := fresh "Hv" in
               destruct (proj1 (getattr_hasattr p k) H) as (v & Hv);
               try rewrite Hv; clear H Hv
           end.
    cbn [bind str].
    do 3 eexists. refine (conj eq_refl (conj eq_refl (conj eq_refl (conj eq_refl _)))).
    cbn [embed_fields]. rewrite map_app. cbn [map fst].
    f_equal. match goal with |- context [truthy ?n] => now destruct (truthy n) end.
  - intros E Hnot. specialize (Hone E).
    unfold monster. rewrite Hmb. cbn [bind]. rewrite Hs. cbn [bind book_search].
    rewrite Hone. cbn [bind found_getattr].
    cbn [forallb card_attributes] in Hnot.
    repeat match goal with
           | |- context [getattr p ?k] =>
               let B := fresh "B" in
               destruct (hasattr p k) eqn:B;
               [ destruct (proj1 (getattr_hasattr p k) B) as (? & ->); cbn [bind]
               | now rewrite (proj2 (getattr_hasattr p k) B) ]
           end.
    discriminate.
  - intros Hne. destruct (Hmany Hne) as (gid & ps & Hg).
    unfold monster. rewrite Hmb. cbn [bind]. rewrite Hs. cbn [bind book_search].
    rewrite Hg. reflexivity.
Qed.
End MonsterCard.

(* ================================================================== *)
(** ** The settings a command can rely on *)

(** With the list of the class, a [set] command writes a name of
    that list only. *)
Lemma command_set_other (s : attrs) (setting value k : string) :
  attr_get "USER_FACING_SETTINGS" s = None ->
  ~ In k USER_FACING_SETTINGS ->
  attr_get k (fst (command_set s setting value)) = attr_get k s.
Proof.
  intros Hnone Hk.
  destruct (command_set_cases s setting value)
    as [(k' & keys & Hi & Hf & -> & _)|(-> & _)]; [|reflexivity].
  apply attr_get_set_other. intros Ek'. apply Hk. rewrite Ek'. clear Ek'.
  unfold instance_attr in Hi. rewrite Hnone in Hi.
  change (Ok (map JStr USER_FACING_SETTINGS) = Ok keys) in Hi.
  assert (Ek : keys = map JStr USER_FACING_SETTINGS) by congruence.
  subst keys.
  pose proof (keys_startswith_In _ _ _ Hf (JStr k') (or_introl eq_refl)) as Hin.
  apply in_map_iff in Hin as (x & E & Hx). now injection E as ->.
Qed.

Lemma commands_set_other (k : string) (commands : list (string * string)) :
  ~ In k USER_FACING_SETTINGS ->
  forall s : attrs,
    attr_get "USER_FACING_SETTINGS" s = None ->
    attr_get k (commands_set s commands) = attr_get k s.
Proof.
  intros Hk. unfold commands_set.
  induction commands as [|[setting value] cs IH]; intros s Hnone; [reflexivity|].
  cbn [fold_left fst snd]. rewrite IH.
  - now apply command_set_other.
  - rewrite command_set_other; [exact Hnone | exact Hnone |].
    cbn. intuition discriminate.
Qed.

Lemma load_other (k : string) (data : list (string * json)) :
  ~ In k (map fst data) ->
  forall s : attrs,
    attr_get k (fold_left (fun d kv => attr_set (fst kv) (snd kv) d) data s)
    = attr_get k s.
Proof.
  induction data as [|[k' v] data IH]; intros Hk s; [reflexivity|].
  cbn [fold_left fst snd]. rewrite IH.
  - apply attr_get_set_other. intros ->. apply Hk. now left.
  - intros H. apply Hk. now right.
Qed.

Section MonsterBookSetting.
Variable repr : json -> string.

(** X14.  When the settings file has neither the key [monster_book]
    nor the key [USER_FACING_SETTINGS], the settings hold no
    [monster_book]: [Settings.__init__] sets [monsters], and a [set]
    command then only writes a name of the list of the class.  So,
    whatever [set] commands have run, [monster] raises
    [AttributeError] before it searches anything.  A settings file
    with a list [USER_FACING_SETTINGS] that names [monster_book] makes
    [set monster_book mmb] store it. *)
Theorem monster_book_setting_is_missing
    (books_path : string) (settings_file : option (option json)) (s : attrs)
    (commands : list (string * string)) (books : dict book) (mid : string) :
  (Settings_init books_path settings_file = Ok s ->
   (forall data, settings_file = Some (Some (JObj data)) ->
                 ~ In "monster_book" (map fst data)
                 /\ ~ In "USER_FACING_SETTINGS" (map fst data)) ->
   getattr (commands_set s commands) "monster_book" = Raise AttributeError
   /\ monster repr (commands_set s commands) books mid = Raise AttributeError)
  /\ (exists s0 : attrs,
         Settings_init books_path
           (Some (Some (JObj [("USER_FACING_SETTINGS",
                               JArr [JStr "token"; JStr "monster_book"])])))
         = Ok s0
         /\ command_set s0 "monster_book" "mmb"
            = (attr_set "monster_book" (JStr "mmb") s0, Accepted "monster_book")
         /\ getattr (commands_set s0 [("monster_book", "mmb")]) "monster_book"
            = Ok (JStr "mmb")).
Proof.
  split.
  - intros Hinit Hfile.
    assert (Hs : attr_get "monster_book" s = None
                 /\ attr_get "USER_FACING_SETTINGS" s = None).
    { unfold Settings_init, Settings_load in Hinit.
      destruct settings_file as [[[| | | | |data]|]|]; try discriminate;
        injection Hinit as <-; [|split; reflexivity].
      destruct (Hfile data eq_refl) as [Hm Hu].
      split; (rewrite load_other; [reflexivity | assumption]). }
    destruct Hs as [Hm Hu].
    assert (E : getattr (commands_set s commands) "monster_book" = Raise AttributeError).
    { unfold getattr. rewrite commands_set_other; [now rewrite Hm | | exact Hu].
      cbn. intuition discriminate. }
    split; [exact E|]. unfold monster. now rewrite E.
  - eexists. split; [reflexivity|]. split; reflexivity.
Qed.
End MonsterBookSetting.

Lemma load_get (data : list (string * json)) :
  NoDup (map fst data) ->
  forall (s : attrs) (k : string),
    attr_get k (fold_left (fun d kv => attr_set (fst kv) (snd kv) d) data s)
    = match attr_get k data with
      | Some v => Some v
      | None => attr_get k s
      end.
Proof.
  induction data as [|[k' v] data IH]; intros Hnd s k; [reflexivity|].
  inversion Hnd as [|? ? Hk' Hnd']; subst.
  cbn [fold_left fst snd]. rewrite IH by exact Hnd'.
  change (attr_get k ((k', v) :: data))
    with (if String.eqb k' k then Some v else attr_get k data).
  destruct (String.eqb k' k) eqn:E.
  - apply String.eqb_eq in E. subst k'.
    replace (attr_get k data) with (@None json).
    + apply attr_get_set_same.
    + symmetry. clear -Hk'. unfold attr_get.
      induction data as [|[k0 v0] data IH]; [reflexivity|]. cbn.
      destruct (String.eqb k0 k) eqn:E0.
      * apply String.eqb_eq in E0. subst. exfalso. apply Hk'. now left.
      * apply IH. intros H. apply Hk'. now right.
  - destruct (attr_get k data); [reflexivity|].
    apply attr_get_set_other. intros ->. now rewrite String.eqb_refl in E.
Qed.

Lemma attr_get_filter (f : string -> bool) (s : attrs) (k : string) :
  attr_get k (filter (fun kv => f (fst kv)) s)
  = if f k then attr_get k s else None.
Proof.
  unfold attr_get. induction s as [|[k' v] s IH]; cbn.
  - now destruct (f k).
  - destruct (f k') eqn:Ef; cbn.
    + destruct (String.eqb k' k) eqn:E.
      * apply String.eqb_eq in E. subst. now rewrite Ef.
      * exact IH.
    + destruct (String.eqb k' k) eqn:E.
      * apply String.eqb_eq in E. subst. now rewrite IH, Ef.
      * exact IH.
Qed.

Lemma NoDup_filter_keys (f : string * json -> bool) (s : attrs) :
  NoDup (map fst s) -> NoDup (map fst (filter f s)).
Proof.
  induction s as [|[k v] s IH]; cbn; intros H; [constructor|].
  inversion H as [|? ? Hk Hs]; subst.
  destruct (f (k, v)); cbn; [constructor|]; auto.
  intros Hin. apply Hk. apply in_map_iff in Hin as (x & <- & Hx).
  apply in_map. now apply filter_In in Hx.
Qed.

(** X15.  Saved settings come back: when the settings file holds what
    [Settings.save] wrote for settings [s], [Settings.__init__] gives
    settings in which every key that does not start with ["__"] has
    the value it had in [s], or its default when [s] did not have it;
    a key that starts with ["__"] is not saved and comes back as its
    default. *)
Theorem saved_settings_are_restored (books_path : string) (s : attrs) :
  NoDup (map fst s) ->
  exists s' : attrs,
    Settings_init books_path (Some (Some (Settings_save s))) = Ok s'
    /\ forall k : string,
         attr_get k s' =
           match (if String.prefix "__" k then None else attr_get k s) with
           | Some v => Some v
           | None => attr_get k (Settings_defaults books_path)
           end.
Proof.
  intros Hnd. unfold Settings_init, Settings_load, Settings_save.
  eexists. split; [reflexivity|]. intros k.
  rewrite load_get by now apply NoDup_filter_keys.
  rewrite (attr_get_filter (fun key => negb (String.prefix "__" key)) s k).
  now destruct (String.prefix "__" k).
Qed.

(* ================================================================== *)
(** ** Rolling the scores of a character *)

Lemma sum_from (l : list Z) (a : Z) : fold_left Z.add l a = a + sum l.
Proof.
  unfold sum. revert a. induction l as [|x l IH]; intros a; cbn; [lia|].
  rewrite (IH (a + x)), (IH x). lia.
Qed.

Lemma sum_cons (x : Z) (l : list Z) : sum (x :: l) = x + sum l.
Proof. unfold sum at 1. cbn. now rewrite sum_from. Qed.

Lemma sum_app (l1 l2 : list Z) : sum (l1 ++ l2) = sum l1 + sum l2.
Proof.
  induction l1 as [|x l1 IH]; [reflexivity|].
  cbn [app]. rewrite !sum_cons, IH. lia.
Qed.

Lemma sum_perm (l l' : list Z) : Permutation l l' -> sum l = sum l'.
Proof.
  induction 1 as [|x l l' _ IH|x y l|l l' l'' _ IH1 _ IH2];
    rewrite ?sum_cons; lia.
Qed.

Lemma insert_row_perm (x : row) (l : list row) :
  Permutation (insert_row x l) (x :: l).
Proof.
  induction l as [|y l IH]; cbn; [reflexivity|].
  destruct (score y <=? score x); [reflexivity|].
  rewrite IH. apply perm_swap.
Qed.

Lemma sorted_rows_perm (l : list row) : Permutation (sorted_rows l) l.
Proof.
  induction l as [|x l IH]; cbn; [constructor|].
  rewrite insert_row_perm. now constructor.
Qed.

Lemma insert_row_sorted (x : row) (l : list row) :
  StronglySorted (fun a b => score b <= score a) l ->
  StronglySorted (fun a b => score b <= score a) (insert_row x l).
Proof.
  induction 1 as [|y l Hl IH Hy]; cbn.
  - constructor; constructor.
  - destruct (Z.leb_spec (score y) (score x)) as [Hle|Hlt].
    + constructor; [now constructor|].
      constructor; [exact Hle|].
      eapply Forall_impl; [|exact Hy]. cbn. intros; lia.
    + constructor; [exact IH|].
      eapply Permutation_Forall; [symmetry; apply insert_row_perm|].
      constructor; [lia | exact Hy].
Qed.

Lemma sorted_rows_sorted (l : list row) :
  StronglySorted (fun a b => score b <= score a) (sorted_rows l).
Proof.
  induction l as [|x l IH]; cbn; [constructor|]. now apply insert_row_sorted.
Qed.

Lemma sorted_last_lowest (best : list row) (x : row) :
  StronglySorted (fun a b => score b <= score a) (best ++ [x]) ->
  Forall (fun y => score x <= score y) best.
Proof.
  induction best as [|b best IH]; cbn; intros H; [constructor|].
  inversion H as [|? ? Hs Hb]; subst. constructor; [|now apply IH].
  rewrite Forall_forall in Hb. apply Hb, in_or_app. right. now left.
Qed.

Lemma last_row_split (l : list row) (x : row) :
  last_row l = Ok x -> exists best, l = best ++ [x].
Proof.
  unfold last_row. destruct (rev l) as [|y t] eqn:E; [discriminate|].
  intros H. injection H as ->. exists (rev t).
  rewrite <- (rev_involutive l), E. reflexivity.
Qed.

Lemma count_perm (f : Z -> bool) (l l' : list Z) :
  Permutation l l' -> List.length (filter f l) = List.length (filter f l').
Proof. intros H. apply Permutation_length. now apply Permutation_filter. Qed.

Section DiceFacts.
Context {R : Type}.
Variable roll_dice : string -> R -> result (Z * string * R).

Lemma roll_rows_spec (die : string) (n : nat) :
  forall (output rows : list row) (r r' : R),
    roll_rows roll_dice die n output r = Ok (rows, r') ->
    exists new, rows = output ++ new /\ List.length new = n.
Proof.
  induction n as [|n IH]; intros output rows r r' H.
  - cbn in H. unfold ret in H. injection H as <- _. exists [].
    now rewrite app_nil_r.
  - cbn [roll_rows] in H. unfold mbind at 1 in H.
    destruct (roll_dice die r) as [[[x e] r1]|]; [|discriminate].
    apply IH in H as (new & -> & Hlen).
    eexists (_ :: new). rewrite <- app_assoc. split; [reflexivity|].
    cbn. now rewrite Hlen.
Qed.

Lemma method_die_scores (method : json) :
  snd (method_die method) = 6%nat \/ snd (method_die method) = 7%nat.
Proof.
  unfold method_die.
  destruct (str_eqb method "inorder+"); [now left|].
  destruct (str_eqb method "ve"); [now right|].
  destruct (str_eqb method "heroic"); [now right | now left].
Qed.

(** What [roll_attributes] returns from the rows it has rolled. *)
Lemma roll_attributes_spec (method : json) (r r' : R)
    (rows : list row) (total : Z) (die : string) :
  roll_attributes roll_dice method r = Ok (rows, total, die, r') ->
  let low := List.length (filter (fun x => x <? 9) (map score rows)) in
  exists rolled : list row,
    roll_rows roll_dice die (snd (method_die method)) [] r = Ok (rolled, r')
    /\ die = fst (method_die method)
    /\ List.length rows = snd (method_die method)
    /\ Permutation rolled rows
    /\ (snd (method_die method) = 6%nat ->
        rows = rolled
        /\ total = if (low <? 2)%nat then sum (map score rows) else 0)
    /\ (snd (method_die method) = 7%nat ->
        StronglySorted (fun a b => score b <= score a) rows
        /\ exists (best : list row) (lowest : row),
            rows = best ++ [lowest]
            /\ Forall (fun x => score lowest <= score x) best
            /\ total = if (low <? 2)%nat then sum (map score best)
                       else - score lowest).
Proof.
  unfold roll_attributes. pose proof (method_die_scores method) as Hn.
  destruct (method_die method) as [d n]. cbn [fst snd] in *.
  unfold mbind at 1.
  destruct (roll_rows roll_dice d n [] r) as [[output r1]|] eqn:E; [|discriminate].
  destruct (roll_rows_spec d n [] output r r1 E) as (new & Hnew & Hlen).
  cbn [app] in Hnew. subst new.
  destruct Hn as [-> | ->]; rewrite Hlen; cbn [Nat.ltb Nat.leb].
  - unfold ret. intros H. injection H as <- <- <- <-. cbv zeta.
    exists output.
    refine (conj E (conj eq_refl (conj Hlen (conj (Permutation_refl _)
              (conj _ _))))); [now intros _ | discriminate].
  - unfold mbind, lift, ret.
    destruct (last_row (sorted_rows output)) as [lowest|] eqn:El; [|discriminate].
    intros H. injection H as <- <- <- <-. cbv zeta.
    pose proof (sorted_rows_perm output) as Hperm.
    exists output.
    refine (conj E (conj eq_refl (conj _ (conj _ (conj _ _))))).
    + now rewrite (Permutation_length Hperm).
    + now symmetry.
    + discriminate.
    + intros _. split; [apply sorted_rows_sorted|].
      destruct (last_row_split _ _ El) as (best & Hbest).
      exists best, lowest. split; [exact Hbest|]. split.
      * apply sorted_last_lowest. rewrite <- Hbest. apply sorted_rows_sorted.
      * rewrite (count_perm (fun x => x <? 9) (map score (sorted_rows output))
                   (map score output)) by now apply Permutation_map.
        match goal with |- context [if ?c then _ else _] => destruct c end;
          [|lia].
        rewrite (sum_perm (map score output) (map score (sorted_rows output)))
          by (apply Permutation_map; now symmetry).
        rewrite Hbest, map_app, sum_app. cbn [map]. rewrite sum_cons.
        change (sum []) with 0. lia.
Qed.

(** X16.  [roll_attributes] rolls six scores, or seven with the methods
    ["ve"] and ["heroic"].  Six scores are returned as rolled, and their
    score is their total when fewer than two of them are below 9, and
    0 otherwise.  Seven scores are returned from the highest to the
    lowest, all seven of them; their score is the total of the six
    highest when fewer than two of the seven are below 9, and the
    lowest score negated otherwise. *)
Theorem roll_attributes_score (method : json) (r r' : R)
    (rows : list row) (total : Z) (die : string) :
  roll_attributes roll_dice method r = Ok (rows, total, die, r') ->
  let low := List.length (filter (fun x => x <? 9) (map score rows)) in
  exists rolled : list row,
    roll_rows roll_dice die (snd (method_die method)) [] r = Ok (rolled, r')
    /\ die = fst (method_die method)
    /\ List.length rows = snd (method_die method)
    /\ Permutation rolled rows
    /\ (snd (method_die method) = 6%nat ->
        rows = rolled
        /\ total = if (low <? 2)%nat then sum (map score rows) else 0)
    /\ (snd (method_die method) = 7%nat ->
        StronglySorted (fun a b => score b <= score a) rows
        /\ exists (best : list row) (lowest : row),
            rows = best ++ [lowest]
            /\ Forall (fun x => score lowest <= score x) best
            /\ total = if (low <? 2)%nat then sum (map score best)
                       else - score lowest).
Proof. exact (roll_attributes_spec method r r' rows total die). Qed.
End DiceFacts.

(* ================================================================== *)
(** ** Rolling a character *)

Section CharacterFacts.
Context {R : Type}.
Variable roll_dice : string -> R -> result (Z * string * R).

Lemma roll_until_eq (settings : attrs) (method : json) (fuel : nat)
    (rolled : list row * Z * string) (r : R) :
  roll_until roll_dice settings method fuel rolled r =
    match getattr settings "score_threshold" with
    | Ok threshold =>
        match int_lt (snd (fst rolled)) threshold with
        | Ok true =>
            match fuel with
            | O => Ok (None, r)
            | S fuel' =>
                match roll_attributes roll_dice method r with
                | Ok (next, r1) => roll_until roll_dice settings method fuel' next r1
                | Raise e => Raise e
                end
            end
        | Ok false => Ok (Some rolled, r)
        | Raise e => Raise e
        end
    | Raise e => Raise e
    end.
Proof.
  destruct fuel; cbn [roll_until]; unfold mbind, lift, ret;
    destruct (getattr settings "score_threshold") as [threshold|]; cbn [bind];
    try reflexivity;
    destruct (int_lt (snd (fst rolled)) threshold) as [[|]|]; reflexivity.
Qed.

Lemma roll_until_accepts (settings : attrs) (method : json) (z : Z) :
  getattr settings "score_threshold" = Ok (JInt z) ->
  forall (fuel : nat) (cur out : list row * Z * string) (r r' : R),
    roll_until roll_dice settings method fuel cur r = Ok (Some out, r') ->
    z <= snd (fst out)
    /\ ((out = cur /\ r' = r)
        \/ exists r0, roll_attributes roll_dice method r0 = Ok (out, r')).
Proof.
  intros Hth. induction fuel as [|fuel IH]; intros cur out r r' H;
    rewrite roll_until_eq, Hth in H; cbn [int_lt] in H;
    destruct (Z.ltb_spec (snd (fst cur)) z) as [Hlt|Hge];
    try discriminate;
    try (injection H as <- <-; split; [exact Hge | now left]).
  destruct (roll_attributes roll_dice method r) as [[next r1]|] eqn:E; [|discriminate].
  destruct (IH next out r1 r' H) as [Hz [[-> ->]|Hex]]; split; eauto.
Qed.

Lemma roll_until_more_fuel (settings : attrs) (method : json) (n : nat) :
  forall (fuel : nat) (cur out : list row * Z * string) (r r' : R),
    roll_until roll_dice settings method fuel cur r = Ok (Some out, r') ->
    roll_until roll_dice settings method (fuel + n) cur r = Ok (Some out, r').
Proof.
  induction fuel as [|fuel IH]; intros cur out r r' H;
    rewrite roll_until_eq in H; rewrite roll_until_eq;
    destruct (getattr settings "score_threshold") as [threshold|]; try discriminate;
    destruct (int_lt (snd (fst cur)) threshold) as [[|]|]; try discriminate;
    try exact H.
  cbn [Nat.add].
  destruct (roll_attributes roll_dice method r) as [[next r1]|]; [|discriminate].
  now apply IH.
Qed.

Lemma character_lines_spec (system : json) (die : string) (rows : list row)
    (lines notes : list string) :
  character_lines system die rows = Ok (lines, notes) ->
  notes = ["Assign the attribute values as you wish."]
  /\ Forall2 (fun row line =>
                format_attribute system die (score row) (details row) "" = Ok line)
             rows lines.
Proof.
  unfold character_lines. cbn [List.length Nat.eqb].
  match goal with
  | |- context [bind (?f (map _ rows)) _] => set (format_all := f)
  end.
  assert (Hall : forall rows lines,
             format_all (map (fun row => ("", row)) rows) = Ok lines ->
             Forall2 (fun row line =>
                        format_attribute system die (score row) (details row) ""
                        = Ok line) rows lines).
  { clear. induction rows as [|row rows IH]; intros lines H.
    - cbn in H. injection H as <-. constructor.
    - cbn [map] in H.
      change (format_all (("", row) :: map (fun row => ("", row)) rows))
        with (line <- format_attribute system die (score row) (details row) "" ;;
              lines <- format_all (map (fun row => ("", row)) rows) ;;
              Ok (line :: lines)) in H.
      destruct (format_attribute system die (score row) (details row) "")
        as [line|] eqn:El; [|discriminate].
      cbn [bind] in H.
      destruct (format_all (map (fun row => ("", row)) rows)) as [rest|];
        [|discriminate].
      cbn [bind] in H. injection H as <-. constructor; [exact El | now apply IH]. }
  intros H.
  destruct (format_all (map (fun row => ("", row)) rows)) as [output|] eqn:E;
    [|discriminate].
  cbn [bind] in H. injection H as <- <-. split; [reflexivity | now apply Hall].
Qed.

(** X17.  A character that [rollcharacter] sends, under a positive
    integer threshold, is the outcome of a call of [roll_attributes]
    whose score reaches the threshold; when no rolled score is
    negative, fewer than two of its scores are below 9.  Every rolled
    row has its line, without an attribute name, and the notes are the
    one default line.  The embed goes to the context when [opengame]
    is ["yes"], and else to each text channel whose name starts with
    ["dm"] and then to the author.  Once the loop has ended within
    [fuel] turns, it gives the same for any larger number of turns. *)
Theorem rollcharacter_accepts (settings : attrs) (iam icon : string)
    (channels : list channel) (fuel : nat) (r r' : R)
    (sent : list (destination * embed)) (z : Z) :
  getattr settings "score_threshold" = Ok (JInt z) ->
  0 < z ->
  rollcharacter roll_dice settings iam icon channels fuel r = Ok (Some sent, r') ->
  (exists (method system opengame : json) (rows : list row) (total : Z)
          (die : string) (r0 : R) (lines : list string),
      getattr settings "attributes" = Ok method
      /\ getattr settings "system" = Ok system
      /\ getattr settings "opengame" = Ok opengame
      /\ roll_attributes roll_dice method r0 = Ok (rows, total, die, r')
      /\ z <= total
      /\ (Forall (fun row => 0 <= score row) rows ->
          (List.length (filter (fun x => (x <? 9)%Z) (map score rows)) < 2)%nat)
      /\ Forall2 (fun row line =>
                    format_attribute system die (score row) (details row) "" = Ok line)
                 rows lines
      /\ let e :=
           Embed (JStr "Character")
             [("Ability Scores:", JStr (String.concat nl lines), false);
              ("Notes:", JStr "Assign the attribute values as you wish.", true)]
             (Some (iam, icon)) in
         sent = if str_eqb opengame "yes" then [(To_context, e)]
                else map (fun c => (To_channel c, e))
                         (filter (fun c => is_text c
                                           && String.prefix "dm" (channel_name c))
                                 channels)
                       ++ [(To_author, e)])
  /\ (forall n : nat,
         rollcharacter roll_dice settings iam icon channels (fuel + n) r
         = Ok (Some sent, r')).
Proof.
  intros Hth Hz H. split.
  - unfold rollcharacter in H. unfold mbind at 1, lift in H.
    destruct (getattr settings "attributes") as [method|]; [|discriminate].
    cbn [bind] in H. unfold mbind at 1 in H.
    destruct (roll_until roll_dice settings method fuel ([], 0, "") r)
      as [[[[[rows total] die]|] r1]|] eqn:Eu; try discriminate.
    destruct (roll_until_accepts settings method z Hth _ _ _ _ _ Eu)
      as [Hge [[Hcur _]|(r0 & Hr0)]].
    { injection Hcur as -> -> ->. cbn in Hge. lia. }
    cbn [fst snd] in Hge.
    unfold mbind, lift, ret in H.
    destruct (getattr settings "system") as [system|]; [|discriminate].
    cbn [bind] in H.
    destruct (character_lines system die rows) as [[lines notes]|] eqn:El;
      [|discriminate].
    destruct (character_lines_spec _ _ _ _ _ El) as [-> HF].
    cbn [bind] in H.
    destruct (getattr settings "opengame") as [opengame|]; [|discriminate].
    cbn [bind] in H.
    exists method, system, opengame, rows, total, die, r0, lines.
    refine (conj eq_refl (conj eq_refl (conj eq_refl (conj _ (conj Hge
              (conj _ (conj HF _))))))).
    + assert (r1 = r') by (destruct (str_eqb opengame "yes"); congruence).
      now subst r1.
    + intros Hpos.
      destruct (roll_attributes_spec roll_dice method r0 r1 rows total die Hr0)
        as (rolled & _ & _ & _ & _ & H6 & H7).
      destruct (Nat.ltb_spec
                  (List.length (filter (fun x => (x <? 9)%Z) (map score rows))) 2)
        as [Hlow|Hlow]; [exact Hlow | exfalso].
      destruct (method_die_scores method) as [E|E].
      * destruct (H6 E) as [_ Ht]. lia.
      * destruct (H7 E) as [_ (best & lowest & Hrows & _ & Ht)].
        rewrite Forall_forall in Hpos.
        assert (0 <= score lowest); [|lia].
        apply Hpos. rewrite Hrows. apply in_or_app. right. now left.
    + cbv zeta. destruct (str_eqb opengame "yes"); cbv beta in H;
        cbn [String.concat] in H; now injection H as <- _.
  - intros n. unfold rollcharacter in *. unfold mbind at 1, lift in H.
    unfold mbind at 1, lift.
    destruct (getattr settings "attributes") as [method|]; [|discriminate].
    cbn [bind] in *. unfold mbind at 1 in H. unfold mbind at 1.
    destruct (roll_until roll_dice settings method fuel ([], 0, "") r)
      as [[[out|] r1]|] eqn:Eu; try discriminate.
    now rewrite (roll_until_more_fuel settings method n _ _ _ _ _ Eu).
Qed.

(** X18.  A threshold written by the [set] command is a string, so
    that after an accepted [set score_threshold], whatever the value,
    [rollcharacter] raises [TypeError] at the first comparison of the
    score with the threshold. *)
Theorem set_score_threshold_breaks_rollcharacter
    (s s' : attrs) (setting value : string) (iam icon : string)
    (channels : list channel) (fuel : nat) (r : R) :
  hasattr s "attributes" = true ->
  command_set s setting value = (s', Accepted "score_threshold") ->
  getattr s' "score_threshold" = Ok (JStr value)
  /\ rollcharacter roll_dice s' iam icon channels fuel r = Raise TypeError.
Proof.
  intros Ha H.
  assert (H1 : fst (command_set s setting value) = s') by now rewrite H.
  assert (H2 : snd (command_set s setting value) = Accepted "score_threshold")
    by now rewrite H.
  destruct (command_set_cases s setting value)
    as [(k & keys & _ & _ & Hs & Hr & _)|(Hs & Hr)];
    rewrite H1 in Hs; rewrite H2 in Hr; clear H H1 H2.
  - destruct Hr as [Hr|(e & Hr)]; [|discriminate].
    injection Hr as <-. subst s'.
    assert (Hth : getattr (attr_set "score_threshold" (JStr value) s) "score_threshold"
                  = Ok (JStr value)).
    { unfold getattr. now rewrite attr_get_set_same. }
    split; [exact Hth|].
    unfold rollcharacter. unfold mbind at 1, lift.
    destruct (proj1 (getattr_hasattr s "attributes") Ha) as (method & Hm).
    assert (Hm' : getattr (attr_set "score_threshold" (JStr value) s) "attributes"
                  = Ok method).
    { unfold getattr in *. rewrite attr_get_set_other; [exact Hm | discriminate]. }
    rewrite Hm'. cbn [bind]. unfold mbind at 1.
    now rewrite roll_until_eq, Hth.
  - destruct Hr as [(m & Hr)|[(m & Hr)|(e & Hr)]]; discriminate.
Qed.

(** X19.  With an integer threshold of zero or less, and settings that
    hold valid values, [rollcharacter] rolls nothing: it sends a
    character whose ability scores are the empty text. *)
Theorem rollcharacter_without_rolls (settings : attrs) (iam icon : string)
    (channels : list channel) (fuel : nat) (r : R) (z : Z) :
  constrained settings ->
  getattr settings "score_threshold" = Ok (JInt z) ->
  z <= 0 ->
  exists sent : list (destination * embed),
    rollcharacter roll_dice settings iam icon channels fuel r = Ok (Some sent, r)
    /\ sent <> []
    /\ Forall (fun de =>
                 snd de =
                   Embed (JStr "Character")
                     [("Ability Scores:", JStr "", false);
                      ("Notes:", JStr "Assign the attribute values as you wish.", true)]
                     (Some (iam, icon)))
              sent.
Proof.
  intros Hc Hth Hz.
  destruct (Hc "attributes" "inorder" ["inorder+"; "ve"; "heroic"] eq_refl)
    as (method & Hm & _).
  destruct (Hc "system" "ve" ["ose"] eq_refl) as (system & Hsy & _).
  destruct (Hc "opengame" "yes" ["no"] eq_refl) as (opengame & Ho & _).
  unfold rollcharacter, getattr. rewrite Hm, Hsy, Ho.
  unfold mbind at 1, lift. cbn [bind]. unfold mbind at 1.
  rewrite roll_until_eq, Hth. cbn [int_lt fst snd].
  destruct (Z.ltb_spec 0 z) as [Hlt|_]; [lia|].
  unfold mbind, lift, ret. cbn [bind character_lines List.length Nat.eqb map].
  cbn [bind String.concat str_eqb].
  destruct (String.eqb opengame "yes"); eexists; split; try reflexivity; split.
  - discriminate.
  - repeat constructor.
  - intros E. apply (f_equal (@List.length _)) in E.
    rewrite length_app in E. cbn in E. lia.
  - apply Forall_app. split; [|repeat constructor].
    apply Forall_forall. intros de Hin. apply in_map_iff in Hin as (c & <- & _).
    reflexivity.
Qed.
End CharacterFacts.

(* ================================================================== *)
(** ** What can go wrong when a character is rolled *)

Section CharacterErrors.
Context {R : Type}.
Variable roll_dice : string -> R -> result (Z * string * R).

Lemma roll_rows_raise (die : string) (n : nat) :
  forall (output : list row) (r : R) (e : exn),
    roll_rows roll_dice die n output r = Raise e ->
    exists r0, roll_dice die r0 = Raise e.
Proof.
  induction n as [|n IH]; intros output r e H; [discriminate|].
  cbn [roll_rows] in H. unfold mbind at 1 in H.
  destruct (roll_dice die r) as [[[x ex] r1]|e'] eqn:E.
  - eapply IH, H.
  - injection H as <-. eauto.
Qed.

Lemma roll_attributes_raise (method : json) (r : R) (e : exn) :
  roll_attributes roll_dice method r = Raise e ->
  exists die r0, roll_dice die r0 = Raise e.
Proof.
  unfold roll_attributes. destruct (method_die method) as [d n].
  unfold mbind at 1.
  destruct (roll_rows roll_dice d n [] r) as [[output r1]|e'] eqn:E.
  - destruct (_ <? _)%nat eqn:El; [|discriminate].
    unfold mbind, lift, last_row.
    destruct (rev (sorted_rows output)) as [|x t] eqn:Er; [|discriminate].
    exfalso. apply Nat.ltb_lt in El.
    apply (f_equal (@List.length _)) in Er. rewrite length_rev in Er.
    rewrite (Permutation_length (sorted_rows_perm output)) in Er.
    cbn in Er. lia.
  - intros H. injection H as <-. exists d.
    eapply roll_rows_raise, E.
Qed.

Lemma roll_until_raise (settings : attrs) (method : json) (z : Z) :
  getattr settings "score_threshold" = Ok (JInt z) ->
  forall (fuel : nat) (cur : list row * Z * string) (r : R) (e : exn),
    roll_until roll_dice settings method fuel cur r = Raise e ->
    exists die r0, roll_dice die r0 = Raise e.
Proof.
  intros Hth. induction fuel as [|fuel IH]; intros cur r e H;
    rewrite roll_until_eq, Hth in H; cbn [int_lt] in H;
    destruct (snd (fst cur) <? z); try discriminate.
  destruct (roll_attributes roll_dice method r) as [[next r1]|e'] eqn:E.
  - eapply IH, H.
  - injection H as <-. eapply roll_attributes_raise, E.
Qed.

Lemma character_lines_total (system : string) (die : string) (rows : list row) :
  In system ["ve"; "ose"] ->
  exists lines, character_lines (JStr system) die rows = Ok lines.
Proof.
  intros Hs. unfold character_lines. cbn [List.length Nat.eqb].
  match goal with
  | |- context [bind (?f (map _ rows)) _] => set (format_all := f)
  end.
  assert (Hall : exists output, format_all (map (fun row => ("", row)) rows) = Ok output).
  { induction rows as [|row rows (output & IH)]; [now exists []|].
    cbn [map].
    change (format_all (("", row) :: map (fun row => ("", row)) rows))
      with (line <- format_attribute (JStr system) die (score row) (details row) "" ;;
            lines <- format_all (map (fun row => ("", row)) rows) ;;
            Ok (line :: lines)).
    rewrite IH. unfold format_attribute, modifier. cbn [hashable negb str_eqb].
    destruct Hs as [<-|[<-|[]]]; cbn [String.eqb Ascii.eqb Bool.eqb bind]; eauto. }
  destruct Hall as (output & ->). cbn [bind]. eauto.
Qed.

(** X20.  With settings that hold valid values and an integer
    threshold, [rollcharacter] raises nothing of its own: whenever it
    raises, the dice evaluator has raised that exception. *)
Theorem rollcharacter_raises_only_with_the_dice (settings : attrs)
    (iam icon : string) (channels : list channel) (fuel : nat) (r : R)
    (z : Z) (e : exn) :
  constrained settings ->
  getattr settings "score_threshold" = Ok (JInt z) ->
  rollcharacter roll_dice settings iam icon channels fuel r = Raise e ->
  exists (die : string) (r0 : R), roll_dice die r0 = Raise e.
Proof.
  intros Hc Hth H.
  destruct (Hc "attributes" "inorder" ["inorder+"; "ve"; "heroic"] eq_refl)
    as (method & Hm & _).
  destruct (Hc "system" "ve" ["ose"] eq_refl) as (system & Hsy & Hsys).
  destruct (Hc "opengame" "yes" ["no"] eq_refl) as (opengame & Ho & _).
  unfold rollcharacter, getattr in H. rewrite Hm, Hsy, Ho in H.
  unfold mbind at 1, lift in H. cbn [bind] in H. unfold mbind at 1 in H.
  destruct (roll_until roll_dice settings (JStr method) fuel ([], 0, "") r)
    as [[[[[rows total] die]|] r1]|e'] eqn:Eu.
  - unfold mbind, lift, ret in H. cbn [bind] in H.
    destruct (character_lines_total system die rows Hsys) as ([lines notes] & El).
    rewrite El in H. cbn [bind] in H.
    destruct (str_eqb (JStr opengame) "yes"); discriminate.
  - discriminate.
  - injection H as <-. eapply roll_until_raise; eauto.
Qed.
End CharacterErrors.

(* ================================================================== *)
(** ** The properties on a small library *)

Lemma constrained_by_check (s : attrs) : constrainedb s = true -> constrained s.
Proof.
  unfold constrainedb, constrained. intros H setting v vs Hv.
  rewrite forallb_forall in H.
  assert (Hin : In setting ["opengame"; "system"; "attributes"]).
  { unfold valid_values_for in Hv.
    destruct (String.eqb setting "opengame") eqn:E1;
      [apply String.eqb_eq in E1; subst; now left|].
    destruct (String.eqb setting "system") eqn:E2;
      [apply String.eqb_eq in E2; subst; right; now left|].
    destruct (String.eqb setting "attributes") eqn:E3; [|discriminate].
    apply String.eqb_eq in E3; subst. right; right; now left. }
  specialize (H setting Hin). rewrite Hv in H.
  destruct (attr_get setting s) as [[| | |value| |]|]; try discriminate.
  exists value. split; [reflexivity|].
  apply existsb_exists in H as (x & Hx & Hxe).
  apply String.eqb_eq in Hxe. now subst.
Qed.

Lemma shelf_string_ids (b : book) :
  In b (Library_index Shelf.books) -> exists s, book_bid b = JStr s.
Proof.
  intros [<-|[<-|[<-|[]]]]; eexists; reflexivity.
Qed.

Lemma search_unique_prefix_witness :
  Library_search Shelf.books (JStr "mmb") =
    Ok (match filter (fun b => has_prefix "mmb" (book_bid b))
                     (Library_index Shelf.books) with
        | [b] => Some b
        | _ => None
        end).
Proof.
  exact (search_unique_prefix [Shelf.files] Shelf.books eq_refl shelf_string_ids "mmb").
Defined.

Lemma found_by_full_id_witness :
  Library_search Shelf.books (JStr "mmbecmi") = Ok (Some Shelf.mmbecmi).
Proof.
  refine (found_by_full_id [Shelf.files] Shelf.books Shelf.mmbecmi "mmbecmi"
            eq_refl shelf_string_ids _ eq_refl _).
  - right. left. reflexivity.
  - intros b' [<-|[<-|[<-|[]]]] Hne; try reflexivity. now destruct Hne.
Defined.

Lemma shadowed_book_is_never_found_witness :
  Library_search Shelf.books (JStr "mm") = Ok None
  /\ Library_search Shelf.books (JStr "mm") <> Ok (Some Shelf.mm).
Proof.
  split; [reflexivity|].
  refine (shadowed_book_is_never_found [Shelf.files] Shelf.books
            Shelf.mm Shelf.mmbecmi "mm" "mmbecmi"
            eq_refl shelf_string_ids _ _ eq_refl eq_refl _ eq_refl "mm").
  - left. reflexivity.
  - right. left. reflexivity.
  - discriminate.
Defined.

Lemma non_string_id_breaks_search_witness :
  Library_search Shelf.numbered (JStr "t") = Raise AttributeError.
Proof.
  refine (non_string_id_breaks_search
            [[Shelf.manual (JInt 7) []; Cases.good_file]] Shelf.numbered
            (MonsterBook (JInt 7) (JStr "Monsters") []) eq_refl _ _ "t").
  - left. reflexivity.
  - discriminate.
Defined.

Lemma monster_hit_points_sorted_witness :
  exists (hp : string) (expr : string),
    getattr Shelf.ogre "HP" = Ok (JStr hp)
    /\ list_item (split "+" hp) 0 = Ok expr
    /\ List.length [2; 5; 9] = Z.to_nat 3
    /\ Sorted Z.le [2; 5; 9]
    /\ Forall (fun v => exists r1 r2,
                   Draw.roll_dice (JStr (expr +++ " * " +++ str Demo.repr (JStr "1d8"))) r1
                   = Ok (v, r2))
              [2; 5; 9].
Proof.
  exact (monster_hit_points_sorted Draw.roll_dice Demo.repr Shelf.ogre 3
           (JStr "1d8") [5; 2; 9] [] [2; 5; 9] eq_refl).
Defined.

Lemma hit_point_bonus_is_dropped_witness :
  MonsterPage_roll Draw.roll_dice Demo.repr Shelf.ogre 2 (JStr "1d8") [7; 4]
  = MonsterPage_roll Draw.roll_dice Demo.repr [("HP", JStr "4")] 2 (JStr "1d8") [7; 4]
  /\ MonsterPage_roll Draw.roll_dice Demo.repr Shelf.ogre 0 (JStr "1d8") [7; 4]
     = Ok ([], [7; 4])
  /\ MonsterPage_roll Draw.roll_dice Demo.repr
       [("HP", JStr "4+1"); ("roll", JStr "1d8")] 2 (JStr "1d8") [7; 4]
     = Raise TypeError.
Proof.
  destruct (hit_point_bonus_is_dropped Draw.roll_dice Demo.repr) as (H1 & H2 & H3).
  refine (conj _ (conj _ _)).
  - exact (H1 Shelf.ogre [("HP", JStr "4")] "4" "1" 2 (JStr "1d8") [7; 4]
              eq_refl eq_refl eq_refl eq_refl eq_refl).
  - refine (H2 Shelf.ogre "4" "1" 0 (JStr "1d8") [7; 4] eq_refl eq_refl eq_refl _).
    lia.
  - exact (H3 [("HP", JStr "4+1"); ("roll", JStr "1d8")] 2 (JStr "1d8") [7; 4] eq_refl).
Defined.

Lemma set_commands_keep_valid_values_witness :
  constrained (commands_set Shelf.defaults [("sys", "ose"); ("open", "maybe")]).
Proof.
  apply (proj2 set_commands_keep_valid_values Shelf.defaults
           [("sys", "ose"); ("open", "maybe")]).
  apply constrained_by_check. reflexivity.
Defined.

Lemma set_changes_one_setting_witness :
  command_set Shelf.defaults "sys" "ose"
  = (attr_set "system" (JStr "ose") Shelf.defaults, Accepted "system")
  /\ filter (fun key => String.prefix "sys" key) USER_FACING_SETTINGS = ["system"]
  /\ attr_get "system" (attr_set "system" (JStr "ose") Shelf.defaults)
     = Some (JStr "ose")
  /\ attr_get "token" (attr_set "system" (JStr "ose") Shelf.defaults)
     = attr_get "token" Shelf.defaults.
Proof.
  destruct (set_changes_one_setting Shelf.defaults
              (attr_set "system" (JStr "ose") Shelf.defaults) "sys" "ose"
              (Accepted "system") eq_refl) as (H1 & _ & _).
  destruct (H1 "system" eq_refl) as (_ & Hf & Hg & Ho).
  refine (conj eq_refl (conj (Hf eq_refl) (conj Hg (Ho "token" _)))).
  discriminate.
Defined.

Lemma rollt_reply_witness :
  ([TableEntry [("Id", JStr "1"); ("Details", JStr "x")] None] = [] ->
   rollt Demo.roll_dice Demo.repr Shelf.books "t" [0]
   = Ok (Say "something went wrong", []))
  /\ ([TableEntry [("Id", JStr "1"); ("Details", JStr "x")] None] <> [] ->
      forall (rep : reply) (r' : Demo.tape),
        rollt Demo.roll_dice Demo.repr Shelf.books "t" [0] = Ok (rep, r') ->
        exists (res : string) (expl : list string),
          Table_roll Demo.roll_dice Demo.repr Shelf.table_t [0] = Ok (res, expl, r')
          /\ String.prefix nl res = true
          /\ rep = Send (Embed (title Shelf.table_t)
                           [("Result", JStr res, false);
                            ("Explanation", JStr (String.concat nl expl), false)]
                           None)).
Proof.
  exact (rollt_reply Demo.roll_dice Demo.repr Shelf.books "t" Shelf.table_t
           [0] [] 1 [TableEntry [("Id", JStr "1"); ("Details", JStr "x")] None]
           eq_refl eq_refl eq_refl).
Defined.

Lemma monster_book_setting_is_missing_witness :
  Settings_init "books" (Some (Some (JObj [("token", JStr "abc")])))
  = Ok (attr_set "token" (JStr "abc") Shelf.defaults)
  /\ getattr (commands_set (attr_set "token" (JStr "abc") Shelf.defaults)
                           [("monsters", "mm")]) "monster_book"
     = Raise AttributeError
  /\ monster Demo.repr
             (commands_set (attr_set "token" (JStr "abc") Shelf.defaults)
                           [("monsters", "mm")])
             Shelf.books "ogre"
     = Raise AttributeError.
Proof.
  split; [reflexivity|].
  refine (proj1 (monster_book_setting_is_missing Demo.repr "books"
                   (Some (Some (JObj [("token", JStr "abc")])))
                   (attr_set "token" (JStr "abc") Shelf.defaults)
                   [("monsters", "mm")] Shelf.books "ogre") eq_refl _).
  intros data E. injection E as <-. split; cbn; intuition discriminate.
Defined.

Lemma monster_card_witness :
  (filter (same_Id page_Id Shelf.ogre) Shelf.monster_pages = [Shelf.ogre] ->
   forallb (hasattr Shelf.ogre) card_attributes = true ->
   exists (Name Notes : json) (e : embed),
     getattr Shelf.ogre "Name" = Ok Name /\ getattr Shelf.ogre "Notes" = Ok Notes
     /\ monster Demo.repr Shelf.with_monster_book Shelf.books "ogre" = Ok (Send e)
     /\ embed_title e = JStr (str Demo.repr Name +++ " [**" +++ "ogre" +++ "**]")
     /\ map (fun f => fst (fst f)) (embed_fields e)
        = ["AC"; "HD"; "Move"; "Attacks"; "Damage"; "# Appearing (In Lair)";
           "Save As"; "Morale"; "Treasure"; "Alignment"; "XP"]
            ++ (if truthy Notes then ["Notes"] else []))
  /\ (filter (same_Id page_Id Shelf.ogre) Shelf.monster_pages = [Shelf.ogre] ->
      forallb (hasattr Shelf.ogre) card_attributes = false ->
      monster Demo.repr Shelf.with_monster_book Shelf.books "ogre"
      = Raise AttributeError)
  /\ (filter (same_Id page_Id Shelf.ogre) Shelf.monster_pages <> [Shelf.ogre] ->
      monster Demo.repr Shelf.with_monster_book Shelf.books "ogre"
      = Raise AttributeError).
Proof.
  refine (monster_card Demo.repr Shelf.with_monster_book Shelf.books
            (JStr "mmb") _ _ Shelf.monsters_doc _ Shelf.monster_pages Shelf.ogre
            "ogre" eq_refl eq_refl eq_refl eq_refl _ eq_refl _).
  - right. left. reflexivity.
  - discriminate.
Defined.

Lemma roll_attributes_score_witness :
  let rows := fst (fst Shelf.good_roll) in
  let low := List.length (filter (fun x => x <? 9) (map score rows)) in
  exists rolled : list row,
    roll_rows Draw.roll_dice_explained "3d6" (snd (method_die (JStr "ve"))) []
              [12; 13; 14; 15; 16; 10; 9]
    = Ok (rolled, [])
    /\ "3d6" = fst (method_die (JStr "ve"))
    /\ List.length rows = snd (method_die (JStr "ve"))
    /\ Permutation rolled rows
    /\ (snd (method_die (JStr "ve")) = 6%nat ->
        rows = rolled
        /\ 80 = if (low <? 2)%nat then sum (map score rows) else 0)
    /\ (snd (method_die (JStr "ve")) = 7%nat ->
        StronglySorted (fun a b => score b <= score a) rows
        /\ exists (best : list row) (lowest : row),
            rows = best ++ [lowest]
            /\ Forall (fun x => score lowest <= score x) best
            /\ 80 = if (low <? 2)%nat then sum (map score best)
                    else - score lowest).
Proof.
  exact (roll_attributes_score Draw.roll_dice_explained (JStr "ve")
           [12; 13; 14; 15; 16; 10; 9] [] (fst (fst Shelf.good_roll)) 80 "3d6"
           eq_refl).
Defined.

Lemma set_score_threshold_breaks_rollcharacter_witness :
  getattr (attr_set "score_threshold" (JStr "70") Shelf.defaults) "score_threshold"
  = Ok (JStr "70")
  /\ rollcharacter Draw.roll_dice_explained
       (attr_set "score_threshold" (JStr "70") Shelf.defaults)
       "ann" "ann.png" Shelf.channels 2 Shelf.scores
     = Raise TypeError.
Proof.
  exact (set_score_threshold_breaks_rollcharacter Draw.roll_dice_explained
           Shelf.defaults (attr_set "score_threshold" (JStr "70") Shelf.defaults)
           "sc" "70" "ann" "ann.png" Shelf.channels 2 Shelf.scores
           eq_refl eq_refl).
Defined.

Lemma rollcharacter_accepts_witness :
  rollcharacter Draw.roll_dice_explained Shelf.defaults "ann" "ann.png"
                Shelf.channels (2 + 3) Shelf.scores
  = Ok (Some Shelf.sent, []).
Proof.
  exact (proj2 (rollcharacter_accepts Draw.roll_dice_explained Shelf.defaults
                  "ann" "ann.png" Shelf.channels 2 Shelf.scores [] Shelf.sent 60
                  eq_refl eq_refl eq_refl) 3%nat).
Defined.

Lemma saved_settings_are_restored_witness :
  exists s' : attrs,
    Settings_init "books" (Some (Some (Settings_save Shelf.with_monster_book))) = Ok s'
    /\ forall k : string,
         attr_get k s' =
           match (if String.prefix "__" k then None
                  else attr_get k Shelf.with_monster_book) with
           | Some v => Some v
           | None => attr_get k (Settings_defaults "books")
           end.
Proof.
  apply (saved_settings_are_restored "books" Shelf.with_monster_book).
  repeat constructor; cbn; intuition discriminate.
Defined.

Lemma rollcharacter_without_rolls_witness :
  exists sent : list (destination * embed),
    rollcharacter Draw.roll_dice_explained Shelf.without_threshold "ann" "ann.png"
                  Shelf.channels 0 Shelf.scores
    = Ok (Some sent, Shelf.scores)
    /\ sent <> []
    /\ Forall (fun de =>
                 snd de =
                   Embed (JStr "Character")
                     [("Ability Scores:", JStr "", false);
                      ("Notes:", JStr "Assign the attribute values as you wish.", true)]
                     (Some ("ann", "ann.png")))
              sent.
Proof.
  refine (rollcharacter_without_rolls Draw.roll_dice_explained
            Shelf.without_threshold "ann" "ann.png" Shelf.channels 0 Shelf.scores 0
            (constrained_by_check Shelf.without_threshold eq_refl) eq_refl _).
  lia.
Defined.

Lemma rollcharacter_raises_only_with_the_dice_witness :
  exists (die : string) (r0 : Demo.tape),
    Draw.roll_dice_explained die r0 = Raise DiceError.
Proof.
  exact (rollcharacter_raises_only_with_the_dice Draw.roll_dice_explained
           Shelf.defaults "ann" "ann.png" Shelf.channels 2 [3; 3; 3] 60 DiceError
           (constrained_by_check Shelf.defaults eq_refl) eq_refl eq_refl).
Defined.

(* ================================================================== *)
(** ** Ids as ranges, and books of one id *)

(** X21.  An [Id] written as one number matches that roll and no
    other, and an [Id] written ["A-B"] matches the rolls from [A] to
    [B], both included. *)
Theorem Id_ranges_are_inclusive (a b n : Z) :
  0 <= a -> 0 <= b ->
  (exists r, id_as_range (JStr (str_of_Z a)) = Ok r
             /\ range_contains (JInt n) r = (n =? a))
  /\ (exists r, id_as_range (JStr (str_of_Z a +++ "-" +++ str_of_Z b)) = Ok r
                /\ range_contains (JInt n) r = ((a <=? n) && (n <=? b))%bool).
Proof.
  intros Ha Hb. split.
  - exists (Range a (a + 1)). split; [now apply id_as_range_single|].
    cbn. destruct (Z.eqb_spec n a) as [->|Hne].
    + apply andb_true_iff. split; [apply Z.leb_le | apply Z.ltb_lt]; lia.
    + apply andb_false_iff.
      destruct (Z.leb_spec a n); [right; apply Z.ltb_ge; lia | now left].
  - exists (Range a (b + 1)). split; [now apply id_as_range_pair|].
    cbn. f_equal.
    destruct (Z.ltb_spec n (b + 1)), (Z.leb_spec n b); try reflexivity; lia.
Qed.

Lemma dict_get_set_same {V} (k : json) (v : V) (d : dict V) :
  key_eqb k k = true -> dict_get k (dict_set k v d) = Some v.
Proof.
  intros Hk. unfold dict_get, dict_set. induction d as [|[k' v'] d IH]; cbn.
  - now rewrite Hk.
  - destruct (key_eqb k' k) eqn:E; cbn; rewrite E; [reflexivity | exact IH].
Qed.

Lemma distinct_keys_one_value {V} (d : dict V) (k1 k2 : json) (v1 v2 : V) :
  distinct_keys (map fst d) ->
  In (k1, v1) d -> In (k2, v2) d -> key_eqb k1 k2 = true -> v1 = v2.
Proof.
  induction d as [|[k v] d IH]; intros HD H1 H2 Hk; [destruct H1|].
  cbn [map fst] in HD. destruct HD as [HD1 HD2]. rewrite Forall_forall in HD1.
  destruct H1 as [E1|H1], H2 as [E2|H2].
  - congruence.
  - injection E1 as -> ->.
    rewrite (HD1 k2) in Hk; [discriminate|].
    change k2 with (fst (k2, v2)). now apply in_map.
  - injection E2 as -> ->. rewrite key_eqb_sym in Hk.
    rewrite (HD1 k1) in Hk; [discriminate|].
    change k1 with (fst (k1, v1)). now apply in_map.
  - now apply IH.
Qed.

(** The book [Library.add_book] makes from a file does not depend on
    the books there are. *)
Lemma add_book_made (books books' : dict book) (f : file) :
  add_book books f = Ok books' ->
  exists b, hashable (book_bid b) = true
            /\ forall books0, add_book books0 f = Ok (dict_set (book_bid b) b books0).
Proof.
  unfold add_book. destruct (Book_init f) as [[[b0 t0] ty]|]; [|discriminate].
  cbn [bind].
  match goal with
  | |- context [bind ?m _] => destruct m as [b|]; [|discriminate]
  end.
  cbn [bind]. destruct (hashable (book_bid b)) eqn:Hh; [|discriminate].
  intros _. exists b. split; [exact Hh|]. intros books0. reflexivity.
Qed.

(** X22.  The last file read wins its id: when [Library.load] succeeds
    and the last file makes the book [b], the library holds [b] under
    the id of [b] and no other book of that id, so that a book an
    earlier file made for this id has been replaced. *)
Theorem last_file_of_an_id_wins
    (library_paths : list (list file)) (pre : list file) (f : file)
    (books : dict book) (b : book) :
  List.concat library_paths = pre ++ [f] ->
  Library_load library_paths = Ok books ->
  add_book [] f = Ok [(book_bid b, b)] ->
  dict_get (book_bid b) books = Some b
  /\ forall b', In b' (Library_index books) ->
                key_eqb (book_bid b') (book_bid b) = true -> b' = b.
Proof.
  intros Hfiles Hload Hb.
  pose proof (Library_load_inv _ _ Hload) as [HD HB].
  rewrite Library_load_concat, Hfiles, add_books_app in Hload.
  apply bind_Ok in Hload as (books0 & Hpre & Hf). cbn [add_books] in Hf.
  apply bind_Ok in Hf as (books1 & Hadd & E). injection E as <-.
  destruct (add_book_made _ _ _ Hadd) as (b0 & Hh & Hmk).
  rewrite (Hmk []) in Hb. cbn in Hb.
  assert (b0 = b) by congruence. subst b0.
  rewrite Hmk in Hadd. injection Hadd as <-.
  assert (Hget : dict_get (book_bid b) (dict_set (book_bid b) b books0) = Some b).
  { apply dict_get_set_same. now apply key_eqb_refl. }
  split; [exact Hget|].
  intros b' Hin Hk.
  apply dict_get_Some in Hget as (d1 & k0 & d2 & Hd & Hk0 & _).
  unfold Library_index, values in Hin. apply in_map_iff in Hin as ([k' b''] & Eb & Hin).
  cbn [snd] in Eb. subst b''.
  rewrite Forall_forall in HB. pose proof (HB _ Hin) as Hk'. cbn [fst snd] in Hk'.
  apply (distinct_keys_one_value _ k' k0 b' b HD Hin).
  - rewrite Hd. apply in_or_app. right. now left.
  - rewrite key_eqb_sym in Hk0.
    eapply key_eqb_trans; [exact Hk'|]. eapply key_eqb_trans; [exact Hk | exact Hk0].
Qed.

Lemma Id_ranges_are_inclusive_witness :
  (exists r, id_as_range (JStr (str_of_Z 4)) = Ok r
             /\ range_contains (JInt 4) r = (4 =? 4))
  /\ (exists r, id_as_range (JStr (str_of_Z 4 +++ "-" +++ str_of_Z 6)) = Ok r
                /\ range_contains (JInt 4) r = ((4 <=? 4) && (4 <=? 6))%bool).
Proof.
  apply (Id_ranges_are_inclusive 4 6 4); lia.
Defined.

Lemma last_file_of_an_id_wins_witness :
  dict_get (JStr "mm") [(JStr "mm", MonsterBook (JStr "mm") (JStr "Monsters") [])]
  = Some (MonsterBook (JStr "mm") (JStr "Monsters") [])
  /\ forall b',
      In b' (Library_index [(JStr "mm", MonsterBook (JStr "mm") (JStr "Monsters") [])]) ->
      key_eqb (book_bid b') (JStr "mm") = true ->
      b' = MonsterBook (JStr "mm") (JStr "Monsters") [].
Proof.
  exact (last_file_of_an_id_wins
           [[Shelf.manual (JStr "mm") Shelf.monsters_doc]; [Shelf.manual (JStr "mm") []]]
           [Shelf.manual (JStr "mm") Shelf.monsters_doc] (Shelf.manual (JStr "mm") [])
           [(JStr "mm", MonsterBook (JStr "mm") (JStr "Monsters") [])]
           (MonsterBook (JStr "mm") (JStr "Monsters") [])
           eq_refl eq_refl eq_refl).
Defined.

Lemma split_from_nonempty (sep : ascii) (s : string) :
  forall cur, exists v vs, split_from sep cur s = v :: vs.
Proof.
  induction s as [|c s IH]; intros cur; cbn [split_from]; [eauto|].
  destruct (Ascii.eqb c sep); eauto.
Qed.

(** X23.  An [Id] that starts with a dash, such as a negative number,
    has no range: [id_as_range] raises [ValueError], because the text
    before the first dash is empty.  Of an [Id] with more than one dash
    only the two first parts are read: ["A-B-C"] has the range of
    ["A-B"]. *)
Theorem Id_range_edges :
  (forall s : string, id_as_range (JStr (String "-" s)) = Raise ValueError)
  /\ (forall a b rest : string,
         occurs "-" a = false -> occurs "-" b = false ->
         id_as_range (JStr (a +++ String "-" (b +++ String "-" rest)))
         = id_as_range (JStr (a +++ String "-" b))).
Proof.
  split.
  - intros s. unfold id_as_range, split. cbn [split_from Ascii.eqb Bool.eqb].
    destruct (split_from_nonempty "-" s "") as (v & vs & ->). reflexivity.
  - intros a b rest Ha Hb. unfold id_as_range, split.
    rewrite !(split_from_sep "-" a _ Ha).
    rewrite (split_from_sep "-" b _ Hb), (split_from_plain "-" b Hb).
    destruct (split_from_nonempty "-" rest "") as (v & vs & ->). reflexivity.
Qed.

Lemma Id_range_edges_witness :
  id_as_range (JStr "-3") = Raise ValueError
  /\ id_as_range (JStr ("2" +++ String "-" ("5" +++ String "-" "9")))
     = id_as_range (JStr ("2" +++ String "-" "5")).
Proof.
  split.
  - exact (proj1 Id_range_edges "3").
  - exact (proj2 Id_range_edges "2" "5" "9" eq_refl eq_refl).
Defined.

(* ================================================================== *)
(** ** Where the [Id] of a page is read *)

Section LoadSucceeds.
Context {P : Type}.
Variable make_page : json -> result P.
Variable page_Id : P -> result json.

(** A page is added unless it is the third of its [Id]. *)
Lemma add_page_succeeds (d : dict (slot P)) (L : list P) (p : P) :
  loaded_inv page_Id d L -> groups_are_pairs d -> keyed page_Id p ->
  (List.length (filter (same_Id page_Id p) (L ++ [p])) <= 2)%nat ->
  exists d', add_page page_Id d p = Ok d'.
Proof.
  intros (HF & HK & _) Hpairs Hkp Hcount.
  pose proof Hkp as (pid & Hp & Hh).
  unfold add_page. rewrite Hp. cbn [bind]. rewrite Hh. cbn [negb].
  destruct (dict_get pid d) as [[page0|gid ps]|] eqn:Hg; [| |eauto].
  - apply dict_get_Some in Hg as (d1 & k0 & d2 & -> & Hk0 & _).
    apply Forall2_app_inv_l in HF as (F1 & F' & _ & HF2 & _).
    inversion HF2 as [|? p0 ? F2 Hs _]; subst.
    destruct Hs as (Hp0 & Hpages & _). cbn [fst snd slot_pages] in *.
    assert (Hin : In page0 (filter (same_Id page_Id p0) L))
      by (rewrite <- Hpages; now left).
    apply filter_In in Hin as [Hin _].
    rewrite Forall_forall in HK. destruct (HK page0 Hin) as (i & -> & _).
    cbn [bind]. eauto.
  - exfalso.
    unfold groups_are_pairs in Hpairs. rewrite Forall_forall in Hpairs.
    apply dict_get_Some in Hg as (d1 & k0 & d2 & -> & Hk0 & _).
    assert (Hlen : List.length ps = 2%nat).
    { apply (Hpairs (k0, Group gid ps)). apply in_or_app. right. now left. }
    apply Forall2_app_inv_l in HF as (F1 & F' & _ & HF2 & _).
    inversion HF2 as [|? p0 ? F2 Hs _]; subst.
    destruct Hs as (Hp0 & Hpages & _). cbn [fst snd slot_pages] in *.
    assert (Hs : same_Id page_Id p0 p = true)
      by (now rewrite (same_Id_key page_Id p0 p _ Hp0), Hp).
    rewrite filter_app, length_app in Hcount.
    rewrite <- (same_Id_filter page_Id L p0 p Hs), <- Hpages, Hlen in Hcount.
    cbn [filter] in Hcount. rewrite (same_Id_refl page_Id p Hkp) in Hcount.
    cbn in Hcount. lia.
Qed.

Lemma load_pages_succeeds (l : list json) :
  forall (d : dict (slot P)) (L0 L : list P),
    loaded_inv page_Id d L0 -> groups_are_pairs d ->
    make_pages make_page l = Ok L ->
    (forall p, In p L -> keyed page_Id p) ->
    (forall p, In p L ->
               (List.length (filter (same_Id page_Id p) (L0 ++ L)) <= 2)%nat) ->
    exists d', load_pages make_page page_Id l d = Ok d'
               /\ loaded_inv page_Id d' (L0 ++ L).
Proof.
  induction l as [|pd l IH]; intros d L0 L Hinv Hpairs HL HK Hcount.
  - injection HL as <-. exists d. now rewrite app_nil_r.
  - cbn [make_pages] in HL. apply bind_Ok in HL as (p & Hp & HL).
    fold (make_pages make_page l) in HL.
    apply bind_Ok in HL as (L' & HL' & HL). injection HL as <-.
    destruct (add_page_succeeds d L0 p Hinv Hpairs (HK p (or_introl eq_refl)))
      as (d1 & Hd1).
    { specialize (Hcount p (or_introl eq_refl)).
      change (p :: L') with ([p] ++ L') in Hcount.
      rewrite app_assoc, filter_app, length_app in Hcount. lia. }
    cbn [load_pages]. rewrite Hp. cbn [bind]. rewrite Hd1. cbn [bind].
    destruct (IH d1 (L0 ++ [p]) L' (add_page_inv page_Id d d1 L0 p Hinv Hd1)
                (add_page_pairs page_Id d d1 p Hpairs Hd1) HL')
      as (d' & Hd' & Hinv').
    + intros q Hq. apply HK. now right.
    + intros q Hq. rewrite <- app_assoc. apply Hcount. now right.
    + exists d'. split; [exact Hd'|]. now rewrite <- app_assoc in Hinv'.
Qed.
End LoadSucceeds.

(** The range of a slot is that of its key. *)
Lemma slot_range_by_key (L : list entry) (ks : json * slot entry) (p0 : entry) :
  slot_for entry_Id L ks p0 -> slot_id_as_range (snd ks) = id_as_range (fst ks).
Proof.
  destruct ks as [k s]. cbn [fst snd]. intros (Hp0 & Hpages & Hgid).
  destruct s as [q|gid ps]; cbn [slot_id_as_range slot_pages] in *.
  - assert (Hin : In q (filter (same_Id entry_Id p0) L))
      by (rewrite <- Hpages; now left).
    apply filter_In in Hin as [_ Hq].
    rewrite (same_Id_key entry_Id p0 q _ Hp0) in Hq.
    destruct (entry_Id q) as [i|]; [|discriminate]. cbn [bind].
    symmetry. now apply key_eqb_id_as_range.
  - symmetry. now apply key_eqb_id_as_range.
Qed.

(** [find] raises when an [Id] has no range: the error of the first
    one. *)
Lemma find_raises (L : list entry) (rid : json) (e : exn)
    (d : dict (slot entry)) (F : list entry) :
  Forall2 (slot_for entry_Id L) d F ->
  (exists p0 k, In p0 F /\ entry_Id p0 = Ok k /\ id_as_range k = Raise e) ->
  (forall p0 k e', In p0 F -> entry_Id p0 = Ok k -> id_as_range k = Raise e' -> e' = e) ->
  find_with (fun x => x) rid d = Raise e.
Proof.
  induction 1 as [|ks p0 d F Hs _ IH]; intros (q & k & Hq & Hk & Hr) Hall;
    [destruct Hq|].
  rewrite find_slot_pages. destruct ks as [k0 s].
  pose proof (slot_range_by_key L (k0, s) p0 Hs) as Hrange. cbn [fst snd] in Hrange.
  destruct Hs as (Hp0 & _). cbn [fst] in Hp0. rewrite Hrange.
  destruct (id_as_range k0) as [rg|e'] eqn:E; cbn [bind].
  - rewrite IH; [reflexivity | |].
    + destruct Hq as [->|Hq]; [congruence|]. eauto.
    + intros p1 k1 e' H1 Hk1 Hr1. exact (Hall p1 k1 e' (or_intror H1) Hk1 Hr1).
  - f_equal. exact (Hall p0 k0 e' (or_introl eq_refl) Hp0 E).
Qed.

Lemma id_as_range_text_error (s : string) (e : exn) :
  id_as_range (JStr s) = Raise e -> e = ValueError.
Proof.
  unfold id_as_range, split, int.
  destruct (split_from_nonempty "-" s "") as (v & vs & ->).
  destruct vs as [|v1 vs]; cbn [List.length Nat.eqb list_item nth_error bind].
  - destruct (parse_int s); cbn [bind]; congruence.
  - destruct (parse_int v); cbn [bind]; [|congruence].
    destruct (parse_int v1); cbn [bind]; congruence.
Qed.

(** C9, as the code has it.  Constructing a page copies the fields of
    the record and never parses [Id], and [Book.load] uses [page.Id]
    only as a key.  Whatever the [Id]s are, the pages of a document
    load, provided that every page has an [Id] that can be a key and
    that no [Id] is shared by more than two pages; a page without [Id]
    raises [AttributeError] and an [Id] that cannot be a key raises
    [TypeError].  An [Id] is parsed by [id_as_range] only, which
    [Table.find] evaluates: in a loaded table whose [Id]s are all
    strings, an ASCII [Id] that does not parse makes every [find] raise
    [ValueError].  A reverse range ["A-B"] with [A > B] parses, into a
    range that contains no rolled id. *)
Theorem page_Id_is_not_validated :
  (forall items : list (string * json),
      NoDup (map fst items) -> ~ In "add" (map fst items) ->
      Page_init (JObj items) = Ok items)
  /\ (forall (P : Type) (make_page : json -> result P) (page_Id : P -> result json)
             (l : list json) (L : list P),
         make_pages make_page l = Ok L ->
         (forall p, In p L -> keyed page_Id p) ->
         (forall p, In p L ->
                    (List.length (filter (same_Id page_Id p) L) <= 2)%nat) ->
         exists d : dict (slot P),
           load_pages make_page page_Id l [] = Ok d
           /\ flat_map slot_pages (values d) = mapping_order page_Id L)
  /\ (forall (items : attrs) (pages : dict (slot attrs)),
         attr_get "Id" items = None ->
         add_page page_Id pages items = Raise AttributeError)
  /\ (forall (items : attrs) (pages : dict (slot attrs)) (i : json),
         attr_get "Id" items = Some i -> hashable i = false ->
         add_page page_Id pages items = Raise TypeError)
  /\ (forall (book : json) (t : table) (loaded : list entry),
         Table_init book = Ok t ->
         loaded_entries book = Ok loaded ->
         (forall e, In e loaded -> exists s, entry_Id e = Ok (JStr s)) ->
         (exists e s, In e loaded /\ entry_Id e = Ok (JStr s)
                      /\ ascii_only s = true
                      /\ id_as_range (JStr s) = Raise ValueError) ->
         forall rid : json, Table_find t rid = Raise ValueError)
  /\ (forall a b : Z,
         0 <= b -> b < a ->
         id_as_range (JStr (str_of_Z a +++ "-" +++ str_of_Z b)) = Ok (Range a (b + 1))
         /\ forall rid : json, range_contains rid (Range a (b + 1)) = false).
Proof.
  refine (conj _ (conj _ (conj _ (conj _ (conj _ _))))).
  - intros items Hnd Hadd. cbn [Page_init]. now apply (Page_add_all_fresh items []).
  - intros P make_page page_Id l L HL HK Hcount.
    destruct (load_pages_succeeds make_page page_Id l [] [] L
                (loaded_inv_nil page_Id) (Forall_nil _) HL HK Hcount)
      as (d & Hd & Hinv).
    exists d. split; [exact Hd|]. now apply loaded_inv_order.
  - intros items pages H. apply add_page_without_Id.
    unfold page_Id, getattr. now rewrite H.
  - intros items pages i Hi Hh. unfold add_page, page_Id, getattr.
    rewrite Hi. cbn [bind]. now rewrite Hh.
  - intros book t loaded Ht Hl Hstr (e & s & Hin & He & _ & Hbad) rid.
    destruct (Table_init_loaded book t Ht) as (loaded' & Hl' & HF & HK & _).
    assert (loaded' = loaded) by congruence. subst loaded'.
    unfold Table_find. apply (find_raises loaded rid ValueError _ _ HF).
    + rewrite Forall_forall in HK.
      destruct (first_of_Id_cover entry_Id loaded e Hin (HK e Hin)) as (p0 & Hp0 & Hs).
      destruct (Hstr p0 (first_of_Id_incl entry_Id loaded p0 Hp0)) as (s0 & Hs0).
      rewrite (same_Id_key entry_Id p0 e _ Hs0), He in Hs.
      cbn in Hs. apply String.eqb_eq in Hs. subst s0.
      exists p0, (JStr s). auto.
    + intros p0 k e' Hp0 Hk Hr.
      destruct (Hstr p0 (first_of_Id_incl entry_Id loaded p0 Hp0)) as (s0 & Hs0).
      assert (k = JStr s0) by congruence. subst k.
      now apply (id_as_range_text_error s0).
  - intros a b Hb Hab. split; [apply id_as_range_pair; lia|].
    intros rid. destruct rid as [|x|z| | |]; cbn; try reflexivity.
    + destruct (a <=? bool_to_Z x) eqn:E1; [|reflexivity].
      apply Z.leb_le in E1. apply Z.ltb_ge. lia.
    + destruct (a <=? z) eqn:E1; [|reflexivity].
      apply Z.leb_le in E1. apply Z.ltb_ge. lia.
Qed.

Lemma page_Id_is_not_validated_witness :
  Page_init (JObj [("Id", JStr "5-"); ("Name", JStr "orc")])
  = Ok [("Id", JStr "5-"); ("Name", JStr "orc")]
  /\ (exists d : dict (slot entry),
         load_pages (TableEntry_init Table_init) entry_Id
                    [Demo.page "abc" "x"; Demo.page "7-5" "y"; Demo.page "abc" "z"] []
         = Ok d
         /\ flat_map slot_pages (values d)
            = mapping_order entry_Id
                [TableEntry [("Id", JStr "abc"); ("Details", JStr "x")] None;
                 TableEntry [("Id", JStr "7-5"); ("Details", JStr "y")] None;
                 TableEntry [("Id", JStr "abc"); ("Details", JStr "z")] None])
  /\ add_page page_Id [] [("Name", JStr "orc")] = Raise AttributeError
  /\ add_page page_Id [] [("Id", JArr [])] = Raise TypeError
  /\ Table_find
       (Cases.loaded (Demo.table_doc [("Die", JStr "1d8")]
                        [Demo.page "7-5" "y"; Demo.page "abc" "x"]))
       (JInt 7)
     = Raise ValueError
  /\ (id_as_range (JStr (str_of_Z 7 +++ "-" +++ str_of_Z 5)) = Ok (Range 7 (5 + 1))
      /\ forall rid : json, range_contains rid (Range 7 (5 + 1)) = false).
Proof.
  destruct page_Id_is_not_validated as (H1 & H2 & H3 & H4 & H5 & H6).
  refine (conj _ (conj _ (conj _ (conj _ (conj _ _))))).
  - apply H1.
    + repeat constructor; cbn; intuition discriminate.
    + cbn. intuition discriminate.
  - apply (H2 entry (TableEntry_init Table_init) entry_Id
              [Demo.page "abc" "x"; Demo.page "7-5" "y"; Demo.page "abc" "z"]).
    + reflexivity.
    + intros p [<-|[<-|[<-|[]]]]; eexists; split; reflexivity.
    + intros p [<-|[<-|[<-|[]]]]; cbn; lia.
  - now apply H3.
  - now apply (H4 [("Id", JArr [])] [] (JArr [])).
  - apply (H5 (Demo.table_doc [("Die", JStr "1d8")]
                 [Demo.page "7-5" "y"; Demo.page "abc" "x"])
              _
              [TableEntry [("Id", JStr "7-5"); ("Details", JStr "y")] None;
               TableEntry [("Id", JStr "abc"); ("Details", JStr "x")] None]).
    + reflexivity.
    + reflexivity.
    + intros e [<-|[<-|[]]]; eexists; reflexivity.
    + exists (TableEntry [("Id", JStr "abc"); ("Details", JStr "x")] None), "abc".
      refine (conj _ (conj eq_refl (conj eq_refl eq_refl))). right. now left.
  - apply H6; lia.
Defined.

Lemma forced_text_resolves_no_entry_witness :
  forced_roll Cases.forced_text = Some (JStr "1")
  /\ (Table_find Cases.forced_text (JStr "1") = Ok []
      /\ "" = ""
      /\ ["1d1 -> **1**"] = [headline Demo.repr Cases.forced_text (JStr "1")])
  /\ Demo.roll Cases.forced_text [0]
     = Ok ("", [headline Demo.repr Cases.forced_text (JStr "1")], []).
Proof.
  assert (Hs : "1" <> "") by discriminate.
  destruct (proj1 forced_text_resolves_no_entry Demo.tape Demo.roll_dice Demo.repr
              Cases.forced_text "1" [0] eq_refl Hs) as [H1 H2].
  refine (conj eq_refl (conj (H1 "" ["1d1 -> **1**"] [] eq_refl) _)).
  exact (H2 1 [] [] eq_refl eq_refl).
Defined.
